(** * Saving, loading, training and validating small fully-connected networks

    A shallow embedding of the notebooks
    [intro-to-pytorch/Part 6 - Saving and Loading Models.ipynb] and
    [intro-to-pytorch/Part 5 - Inference and Validation (Exercises).ipynb]
    (the latter also carries the cells of the "Training Neural Networks"
    notebook).

    The notebooks arrange calls into the PyTorch library.  The library
    operations the cells call are modelled in [Module Torch] with the
    semantics PyTorch documents; tensor entries are real numbers, the usual
    idealisation of 32-bit floats.  The cells themselves are embedded in
    [Module Part6] and [Module Part5]. *)

From Stdlib Require Import Reals Lra Ascii.
From stdpp Require Import base strings list pretty gmap.

Open Scope string_scope.
Open Scope list_scope.

(** ** The library operations used by the notebooks *)

Module Torch.

(** [torch.Size]: the list of dimensions of a tensor. *)
Definition shape := list nat.

(** A tensor: its size and its entries in row-major order. *)
Record tensor := Tensor { size : shape; data : list R }.

(** What [load_state_dict] reports: a stored parameter whose size is not
    the size of the parameter of the model. *)
Inductive load_msg :=
| SizeMismatch (key : string) (from_checkpoint in_model : shape).

Record load_report := LoadReport {
  missing_keys : list string;
  unexpected_keys : list string;
  error_msgs : list load_msg
}.

(** Python exceptions the cells can raise. *)
Inductive exn :=
| FileNotFoundError (path : string)
| KeyError (key : string)
| TypeError (what : string)
| RuntimeError (what : string)
| RuntimeError_load_state_dict (r : load_report)
| CudaUnavailable
| ZeroDivisionError.

(** The last character of a string. *)
Fixpoint last_char (s : string) : option ascii :=
  match s with
  | EmptyString => None
  | String a EmptyString => Some a
  | String _ s' => last_char s'
  end.

(** [OrderedDict] from parameter names to tensors, as returned by
    [Module.state_dict()]. *)
Definition state_dict := list (string * tensor).

Fixpoint sd_lookup (k : string) (sd : state_dict) : option tensor :=
  match sd with
  | [] => None
  | (k', t) :: sd' => if decide (k' = k) then Some t else sd_lookup k sd'
  end.

Definition sd_keys (sd : state_dict) : list string := sd.*1.

(** The global random number generator, as the stream of reals it will
    produce; drawing [n] numbers returns them with the rest of the stream. *)
Definition rng := nat → R.

Definition rand (n : nat) (g : rng) : list R * rng :=
  (g <$> seq 0 n, λ j, g (n + j)).

(** [nn.Linear(in_features, out_features)]: a weight of size
    [out_features x in_features] and a bias of size [out_features], both
    randomly initialised. *)
Record Linear := {
  in_features : nat;
  out_features : nat;
  weight : tensor;
  bias : tensor
}.

Definition nn_Linear (i o : nat) (g : rng) : Linear * rng :=
  let '(w, g1) := rand (o * i) g in
  let '(b, g2) := rand o g1 in
  ({| in_features := i; out_features := o;
      weight := Tensor [o; i] w; bias := Tensor [o] b |}, g2).

(** A layer [Linear(i, o)] whose weights are all zero and whose bias is
    [b]. *)
Definition Linear_zero_weights (i o : nat) (b : list R) : Linear :=
  {| in_features := i; out_features := o;
     weight := Tensor [o; i] (replicate (o * i) 0%R);
     bias := Tensor [o] b |}.

(** [state_dict()] of a linear layer registered under [prefix]. *)
Definition Linear_state_dict (prefix : string) (l : Linear) : state_dict :=
  [(prefix +:+ "weight", weight l); (prefix +:+ "bias", bias l)].

(** The two parameters of a linear layer. *)
Inductive field := Weight | Bias.

Definition field_name (f : field) : string :=
  match f with Weight => "weight" | Bias => "bias" end.

Definition field_of (f : field) (l : Linear) : tensor :=
  match f with Weight => weight l | Bias => bias l end.

(** Two layers with the same features and the same sizes of tensors. *)
Definition same_layout (l0 l : Linear) : Prop :=
  in_features l0 = in_features l ∧ out_features l0 = out_features l
  ∧ size (weight l0) = size (weight l) ∧ size (bias l0) = size (bias l).

(** [Module._load_from_state_dict] for one parameter: a stored tensor of the
    parameter's size is copied into it ([param.copy_(input_param)]); a stored
    tensor of another size is reported and the parameter is left alone; a
    key that is not stored is reported missing. *)
Definition load_param (sd : state_dict) (key : string) (p : tensor)
  : tensor * (list string * list load_msg) :=
  match sd_lookup key sd with
  | Some t =>
      if decide (size t = size p)
      then (Tensor (size p) (data t), ([], []))
      else (p, ([], [SizeMismatch key (size t) (size p)]))
  | None => (p, ([key], []))
  end.

Definition load_Linear (sd : state_dict) (prefix : string) (l : Linear)
  : Linear * (list string * list load_msg) :=
  let '(w, (mw, ew)) := load_param sd (prefix +:+ "weight") (weight l) in
  let '(b, (mb, eb)) := load_param sd (prefix +:+ "bias") (bias l) in
  ({| in_features := in_features l; out_features := out_features l;
      weight := w; bias := b |}, (mw ++ mb, ew ++ eb)).

(** Rows of a row-major matrix with [cols] columns. *)
Fixpoint rows (n cols : nat) (d : list R) : list (list R) :=
  match n with
  | 0 => []
  | S n' => take cols d :: rows n' cols (drop cols d)
  end.

Definition dot (a b : list R) : R := foldr Rplus 0%R (zip_with Rmult a b).

(** [Linear.forward] on one example: [W x + b], for an example of
    [in_features] entries and a layer whose tensors have the sizes of its
    features. *)
Definition Linear_forward (l : Linear) (x : list R) : list R :=
  zip_with Rplus
    ((λ r, dot r x) <$> rows (out_features l) (in_features l) (data (weight l)))
    (data (bias l)).

(** [F.relu]. *)
Definition relu (x : list R) : list R := (λ v, Rmax 0 v) <$> x.

(** [nn.Dropout(p)]: in training mode every entry is zeroed with
    probability [p] and the kept ones are scaled by [1/(1-p)]; in evaluation
    mode it is the identity.  [keep j] is the random draw for entry [j]. *)
Record Dropout := { p : R }.

Definition Dropout_forward (d : Dropout) (training : bool) (keep : nat → bool)
    (x : list R) : list R :=
  if training
  then imap (λ j v, if keep j then (v / (1 - p d))%R else 0%R) x
  else x.

(** [F.log_softmax] along the class dimension. *)
Definition log_softmax (x : list R) : list R :=
  let lse := ln (foldr Rplus 0%R (exp <$> x)) in
  (λ v, (v - lse)%R) <$> x.

End Torch.

(** ** The network class of [fc_model] *)

Module FcModel.
Import Torch.

(** Modelled from the spec: [fc_model.Network], the class the notebook
    instantiates as [fc_model.Network(784, 10, [512, 256, 128])]; its file
    is not among the sources.  The spec describes "an ordered collection of
    per-layer weight matrices and bias vectors, addressed by layer
    name/index" built from "the input dimension, output dimension, the list
    of hidden-layer widths"; the notebook prints the instance as a
    [ModuleList] [hidden_layers] of [Linear(784, 512)], [Linear(512, 256)],
    [Linear(256, 128)], an [output] layer [Linear(128, 10)] and a
    [Dropout(p=0.5)], with the state-dict keys [hidden_layers.0.weight],
    [hidden_layers.0.bias], ..., [output.weight], [output.bias].  A module
    is created in training mode. *)
Record Network := {
  hidden_layers : list Linear;
  output : Linear;
  dropout : Dropout;
  training : bool
}.

(** Modelled from the spec: the chain of hidden layers [Linear(i, h1)],
    [Linear(h1, h2)], ... of the constructor, returned with the width of the
    last one.  For an empty list of widths, of which the spec says nothing,
    there is no hidden layer and the output layer reads the input. *)
Fixpoint hidden_stack (i : nat) (hs : list nat) (g : rng)
  : list Linear * (nat * rng) :=
  match hs with
  | [] => ([], (i, g))
  | h :: hs' =>
      let '(l, g1) := nn_Linear i h g in
      let '(ls, r) := hidden_stack h hs' g1 in
      (l :: ls, r)
  end.

(** Modelled from the spec: the constructor [Network(input_size,
    output_size, hidden_layers)]; every parameter is drawn from the random
    number generator. *)
Definition Network_init (input_size output_size : nat) (hs : list nat)
    (g : rng) : Network :=
  let '(ls, (last, g1)) := hidden_stack input_size hs g in
  let '(out, _) := nn_Linear last output_size g1 in
  {| hidden_layers := ls; output := out;
     dropout := {| p := 0.5 |}; training := true |}.

(** [model.eval()] and [model.train()]. *)
Definition eval (m : Network) : Network :=
  {| hidden_layers := hidden_layers m; output := output m;
     dropout := dropout m; training := false |}.

Definition train (m : Network) : Network :=
  {| hidden_layers := hidden_layers m; output := output m;
     dropout := dropout m; training := true |}.

(** The name under which layer [k] of the [ModuleList] registers its
    parameters. *)
Definition hidden_prefix (k : nat) : string :=
  "hidden_layers." +:+ pretty k +:+ ".".

Fixpoint layers_state_dict (k : nat) (ls : list Linear) : state_dict :=
  match ls with
  | [] => []
  | l :: ls' =>
      Linear_state_dict (hidden_prefix k) l ++ layers_state_dict (S k) ls'
  end.

(** [model.state_dict()]. *)
Definition Network_state_dict (m : Network) : state_dict :=
  layers_state_dict 0 (hidden_layers m)
  ++ Linear_state_dict "output." (output m).

Fixpoint load_layers (sd : state_dict) (k : nat) (ls : list Linear)
  : list Linear * (list string * list load_msg) :=
  match ls with
  | [] => ([], ([], []))
  | l :: ls' =>
      let '(l', (m1, e1)) := load_Linear sd (hidden_prefix k) l in
      let '(ls'', (m2, e2)) := load_layers sd (S k) ls' in
      (l' :: ls'', (m1 ++ m2, e1 ++ e2))
  end.

(** [model.load_state_dict(sd)] with the default [strict=True]: every
    parameter of the model is loaded from [sd]; the stored keys the model
    does not have are unexpected.  The model is mutated in place, so it is
    returned next to the report. *)
Definition load_into (m : Network) (sd : state_dict)
  : Network * load_report :=
  let '(ls, (m1, e1)) := load_layers sd 0 (hidden_layers m) in
  let '(out, (m2, e2)) := load_Linear sd "output." (output m) in
  let own := sd_keys (Network_state_dict m) in
  let unexpected := filter (λ k, k ∉ own) (sd_keys sd) in
  ({| hidden_layers := ls; output := out;
      dropout := dropout m; training := training m |},
   LoadReport (m1 ++ m2) unexpected (e1 ++ e2)).

(** Any missing key, unexpected key or size mismatch raises the
    [RuntimeError] "Error(s) in loading state_dict for Network". *)
Definition load_outcome (r : load_report) : exn + () :=
  match r with
  | LoadReport [] [] [] => inr ()
  | _ => inl (RuntimeError_load_state_dict r)
  end.

Definition load_state_dict (m : Network) (sd : state_dict)
  : Network * (exn + ()) :=
  let '(m', r) := load_into m sd in (m', load_outcome r).

(** Modelled from the spec: [Network.forward] on one flattened example, in
    the manner of the dropout classifier of the validation notebook: each
    hidden layer is followed by [relu] and dropout, and the output layer by
    [log_softmax].  [keep k j] is the dropout draw for unit [j] after hidden
    layer [k]. *)
Fixpoint hidden_forward (d : Dropout) (training : bool)
    (keep : nat → nat → bool) (k : nat) (ls : list Linear) (x : list R)
  : list R :=
  match ls with
  | [] => x
  | l :: ls' =>
      hidden_forward d training keep (S k) ls'
        (Dropout_forward d training (keep k) (relu (Linear_forward l x)))
  end.

Definition forward (m : Network) (keep : nat → nat → bool) (x : list R)
  : list R :=
  log_softmax
    (Linear_forward (output m)
       (hidden_forward (dropout m) (training m) keep 0 (hidden_layers m) x)).

(** A prediction, as the inference cell of the validation notebook makes
    it: [model.eval()], [output = model.forward(img)],
    [ps = torch.exp(output)]. *)
Definition predict (m : Network) (keep : nat → nat → bool) (x : list R)
  : list R :=
  exp <$> forward (eval m) keep x.

(** The hidden widths of a model, [[each.out_features for each in
    model.hidden_layers]]. *)
Definition widths (m : Network) : list nat :=
  out_features <$> hidden_layers m.

(** A layer whose tensors have the sizes of [Linear(i, o)]. *)
Definition Linear_shaped (i o : nat) (l : Linear) : Prop :=
  in_features l = i ∧ out_features l = o
  ∧ size (weight l) = [o; i] ∧ size (bias l) = [o].

Fixpoint layers_shaped (i : nat) (hs : list nat) (ls : list Linear) : Prop :=
  match hs, ls with
  | [], [] => True
  | h :: hs', l :: ls' => Linear_shaped i h l ∧ layers_shaped h hs' ls'
  | _, _ => False
  end.

(** A model with the architecture of [Network(i, o, hs)], whatever the
    values of its parameters, its mode and its dropout rate. *)
Definition has_architecture (i o : nat) (hs : list nat) (m : Network) : Prop :=
  layers_shaped i hs (hidden_layers m)
  ∧ Linear_shaped (List.last hs i) o (output m).

End FcModel.

(** ** Part 6: saving and loading models *)

Module Part6.
Import Torch FcModel.

(** The Python values the cells store in dictionaries. *)
Inductive value :=
| VInt (n : nat)
| VIntList (l : list nat)
| VTensor (t : tensor)
| VStateDict (sd : state_dict).

(** The objects the cells hand to [torch.save]: a state dict, or a
    dictionary with string keys. *)
Inductive pyobj :=
| ObjStateDict (sd : state_dict)
| ObjDict (d : gmap string value).

(** The files written by [torch.save]. *)
Abbreviation filesystem := (gmap string pyobj).

Definition torch_save (obj : pyobj) (path : string) (fs : filesystem)
  : filesystem := <[path := obj]> fs.

Definition torch_load (path : string) (fs : filesystem) : exn + pyobj :=
  match fs !! path with
  | Some obj => inr obj
  | None => inl (FileNotFoundError path)
  end.

(** [obj[key]]. *)
Definition getitem (obj : pyobj) (key : string) : exn + value :=
  match obj with
  | ObjDict d =>
      match d !! key with Some v => inr v | None => inl (KeyError key) end
  | ObjStateDict sd =>
      match sd_lookup key sd with
      | Some t => inr (VTensor t)
      | None => inl (KeyError key)
      end
  end.

Definition as_int (v : value) : exn + nat :=
  match v with VInt n => inr n | _ => inl (TypeError "int") end.

Definition as_int_list (v : value) : exn + list nat :=
  match v with VIntList l => inr l | _ => inl (TypeError "list") end.

Definition as_state_dict (v : value) : exn + state_dict :=
  match v with
  | VStateDict sd => inr sd
  | _ => inl (TypeError "state_dict")
  end.

Definition bind {A B} (c : exn + A) (k : A → exn + B) : exn + B :=
  match c with inl e => inl e | inr a => k a end.

Notation "'let*' x ':=' c 'in' k" := (bind c (λ x, k))
  (at level 10, x pattern, c at level 100, k at level 200, only parsing).

(** The cell
    [checkpoint = {'input_size': 784, 'output_size': 10,
                   'hidden_layers': [each.out_features for each in model.hidden_layers],
                   'state_dict': model.state_dict()}]. *)
Definition checkpoint (model : Network) : gmap string value :=
  {[ "input_size" := VInt 784;
     "output_size" := VInt 10;
     "hidden_layers" := VIntList (out_features <$> hidden_layers model);
     "state_dict" := VStateDict (Network_state_dict model) ]}.

(** [torch.save(checkpoint, 'checkpoint.pth')]. *)
Definition save_checkpoint (model : Network) (fs : filesystem) : filesystem :=
  torch_save (ObjDict (checkpoint model)) "checkpoint.pth" fs.

(** [def load_checkpoint(filepath)]. *)
Definition load_checkpoint (filepath : string) (fs : filesystem) (g : rng)
  : exn + Network :=
  let* checkpoint := torch_load filepath fs in
  let* input_size := bind (getitem checkpoint "input_size") as_int in
  let* output_size := bind (getitem checkpoint "output_size") as_int in
  let* hidden := bind (getitem checkpoint "hidden_layers") as_int_list in
  let model := Network_init input_size output_size hidden g in
  let* sd := bind (getitem checkpoint "state_dict") as_state_dict in
  match load_state_dict model sd with
  | (model', inr _) => inr model'
  | (_, inl e) => inl e
  end.

(** The cell that loads a stored state dict into a model of another
    architecture:
    [model = fc_model.Network(784, 10, [400, 200, 100])],
    [model.load_state_dict(state_dict)]. *)
Definition try_this (sd : state_dict) (g : rng) : Network * (exn + ()) :=
  load_state_dict (Network_init 784 10 [400; 200; 100] g) sd.

(** *** What the claims compare the cells with *)

(** The load error reports a size mismatch. *)
Definition is_size_mismatch (e : exn) : Prop :=
  match e with
  | RuntimeError_load_state_dict r => error_msgs r ≠ []
  | _ => False
  end.

(** The parameter names of the hidden layers [k], ..., [k + n - 1]. *)
Definition layer_names (k n : nat) : list string :=
  concat ((λ j, [hidden_prefix j +:+ "weight"; hidden_prefix j +:+ "bias"])
            <$> seq k n).

(** What two architectures must share for no stored tensor to have another
    size than the parameter it is loaded into: the width of every hidden
    layer both have, the width that feeds the output layer, the output
    size, and the input size when both have a hidden layer. *)
Definition sizes_agree (i0 o0 : nat) (hs : list nat) (i o : nat)
    (hs' : list nat) : Prop :=
  (∀ j h h', hs !! j = Some h → hs' !! j = Some h' → h = h')
  ∧ List.last hs i0 = List.last hs' i
  ∧ o0 = o
  ∧ (hs ≠ [] → hs' ≠ [] → i0 = i).

(** A generator that only produces zeros. *)
Definition zero_rng : rng := λ _, 0%R.

(** A network [784 -> 1 -> 10] whose hidden unit is always 1 before dropout
    and feeds the logit of class 0 only. *)
Definition dropout_demo : Network :=
  {| hidden_layers := [Linear_zero_weights 784 1 [1%R]];
     output := {| in_features := 1; out_features := 10;
                  weight := Tensor [10; 1] (1%R :: replicate 9 0%R);
                  bias := Tensor [10] (replicate 10 0%R) |};
     dropout := {| p := 0.5 |};
     training := true |}.

End Part6.

(** ** Part 5: the training cell with its validation pass, and the training
    loop of the "Training Neural Networks" notebook *)

Module Part5.
Import Torch.

Inductive device := CPU | CUDA.

Definition same_device (a b : device) : bool :=
  match a, b with
  | CPU, CPU | CUDA, CUDA => true
  | _, _ => false
  end.

(** One image of the data set ([1 x 28 x 28], as its rows) and its label. *)
Definition image := list (list R).
Definition sample := (image * nat)%type.

(** [x.view(x.shape[0], -1)] on one example. *)
Definition view_flat (x : image) : list R := concat x.

(** A mini-batch as the loader yields it: the image tensor, the label
    tensor and the device both are on. *)
Record batch := Batch {
  images : list image;
  labels : list nat;
  on : device
}.

(** [torch.utils.data.DataLoader(dataset, batch_size=..., shuffle=...)]. *)
Record DataLoader := {
  dataset : list sample;
  batch_size : nat;
  shuffle : bool
}.

(** [len(loader)]: the number of batches, the last one possibly short. *)
Definition len (dl : DataLoader) : nat :=
  (length (dataset dl) + batch_size dl - 1) / batch_size dl.

Fixpoint chunks {A} (n bs : nat) (l : list A) : list (list A) :=
  match n with
  | 0 => []
  | S n' => take bs l :: chunks n' bs (drop bs l)
  end.

Definition collate (c : list sample) : batch :=
  Batch (c.*1) (c.*2) CPU.

(** [nn.NLLLoss()] with the default mean reduction. *)
Definition NLLLoss (log_ps : list (list R)) (targets : list nat) : R :=
  (foldr Rplus 0 (zip_with (λ row t, - nth t row 0) log_ps targets)
   / INR (length log_ps))%R.

(** [row.argmax()]: the position of the first largest entry. *)
Fixpoint argmax_from (best : R) (best_i i : nat) (row : list R) : nat :=
  match row with
  | [] => best_i
  | v :: row' =>
      if Rlt_dec best v then argmax_from v i (S i) row'
      else argmax_from best best_i (S i) row'
  end.

Definition argmax (row : list R) : nat :=
  match row with
  | [] => 0
  | v :: row' => argmax_from v 0 1 row'
  end.

(** [output.argmax(-1) == labels[None]]: whether each example of the batch
    is classified correctly. *)
Definition batch_equals (outputs : list (list R)) (targets : list nat)
  : list bool :=
  zip_with (λ c t, bool_decide (c = t)) (argmax <$> outputs) targets.

(** [torch.mean(equals.type(torch.FloatTensor))]. *)
Definition mean_float (equals : list bool) : R :=
  (foldr Rplus 0 ((λ b : bool, if b then 1 else 0) <$> equals)
   / INR (length equals))%R.

(** The calls into the library, as they are logged. *)
Inductive event :=
| EvModelTrain | EvModelEval | EvCuda | EvView
| EvZeroGrad | EvForward | EvLoss | EvBackward | EvStep
| EvItem | EvPrint.

(** One line printed at the end of an epoch. *)
Record epoch_line := EpochLine {
  line_epoch : nat;
  line_epochs : nat;
  line_training_loss : R;
  line_test_loss : option R;
  line_test_accuracy : option R
}.

(** What the library supplies to the cells, for a model with parameter set
    [P] and an optimizer with state [O]: the forward computation of the
    model on one flattened example (given the mode and the dropout draws),
    reverse-mode differentiation of a scalar function of the parameters,
    sums and zeros of gradients, the update rule of the optimizer, and the
    dropout draws and the shuffling permutation as functions of the state
    of the random number generator. *)
Class Library (P O : Type) := {
  model_forward : P → bool → (nat → nat → bool) → list R → list R;
  autograd : (P → R) → P → P;
  grad_add : P → P → P;
  grad_zeros : P → P;
  optim_update : O → P → P → O * P;
  bernoulli : nat → nat → nat → nat → bool;
  randperm : nat → list sample → list sample
}.

Section Cells.

Context {P O : Type} {lib : Library P O}.

(** The objects the cell mutates. *)
Record world := World {
  cuda_is_available : bool;
  params : P;
  grads : option P;
  training : bool;
  model_on : device;
  optim : O;
  rng_state : nat;
  trace : list event;
  stdout : list epoch_line
}.

(** A tensor computed from the parameters remembers how ([grad_fn]), unless
    it was computed under [torch.no_grad()]. *)
Record computed (A : Type) := Computed {
  value : A;
  grad_fn : option (P → A)
}.
Arguments Computed {A}.
Arguments value {A}.
Arguments grad_fn {A}.

(** Computations of the cell: they read and write the world and may raise. *)
Definition M (A : Type) : Type := world → (exn + A) * world.

Definition ret {A} (a : A) : M A := λ w, (inr a, w).

Definition bind {A B} (c : M A) (k : A → M B) : M B :=
  λ w, match c w with
       | (inr a, w') => k a w'
       | (inl e, w') => (inl e, w')
       end.

Definition raise {A} (e : exn) : M A := λ w, (inl e, w).

Definition log (ev : event) : M () :=
  λ w, (inr (), World (cuda_is_available w) (params w) (grads w) (training w)
                  (model_on w) (optim w) (rng_state w) (trace w ++ [ev])
                  (stdout w)).

Notation "x ← c ; k" := (bind c (λ x, k))
  (at level 20, c at level 100, k at level 200, only parsing).
Notation "c ;; k" := (bind c (λ _, k))
  (at level 100, k at level 200, right associativity, only parsing).

(** [for x in xs: acc = body(x, acc)]. *)
Fixpoint for_each {A S} (xs : list A) (body : A → S → M S) (acc : S) : M S :=
  match xs with
  | [] => ret acc
  | x :: xs' => acc' ← body x acc; for_each xs' body acc'
  end.

(** [torch.device("cuda:0" if torch.cuda.is_available() else "cpu")]. *)
Definition select_device : M device :=
  λ w, (inr (if cuda_is_available w then CUDA else CPU), w).

(** [model.to(device)]. *)
Definition model_to (d : device) : M () :=
  λ w, (inr (), World (cuda_is_available w) (params w) (grads w) (training w)
                  d (optim w) (rng_state w) (trace w) (stdout w)).

(** [model.train()] and [model.eval()]. *)
Definition set_training (b : bool) : M () :=
  λ w, (inr (), World (cuda_is_available w) (params w) (grads w) b
                  (model_on w) (optim w) (rng_state w)
                  (trace w ++ [if b then EvModelTrain else EvModelEval])
                  (stdout w)).

(** [images.cuda(), labels.cuda()]: raises where CUDA is not available. *)
Definition batch_cuda (b : batch) : M batch :=
  λ w, if cuda_is_available w
       then (log EvCuda;; log EvCuda;; ret (Batch (images b) (labels b) CUDA)) w
       else (inl CudaUnavailable, w).

(** The batches a loader yields when the random number generator is in
    state [s]: the data set, shuffled when asked, cut into batches. *)
Definition loader_batches (dl : DataLoader) (s : nat) : list batch :=
  collate <$> chunks (len dl) (batch_size dl)
                (if shuffle dl then randperm s (dataset dl) else dataset dl).

(** [for images, labels in loader]: starting the iteration of a shuffling
    loader draws a permutation. *)
Definition iterate (dl : DataLoader) : M (list batch) :=
  λ w, (inr (loader_batches dl (rng_state w)),
        if shuffle dl
        then World (cuda_is_available w) (params w) (grads w) (training w)
               (model_on w) (optim w) (S (rng_state w)) (trace w) (stdout w)
        else w).

(** [optimizer.zero_grad()]. *)
Definition optimizer_zero_grad : M () :=
  λ w, (inr (), World (cuda_is_available w) (params w)
                  (grad_zeros <$> grads w) (training w) (model_on w) (optim w)
                  (rng_state w) (trace w ++ [EvZeroGrad]) (stdout w)).

(** [model(images)]: the forward pass on every example of the batch, with
    fresh dropout draws; the model and the batch must be on one device. *)
Definition batch_forward (draws : nat → nat → nat → bool) (mode : bool)
    (xs : list (list R)) (ps : P) : list (list R) :=
  imap (λ n x, model_forward ps mode (draws n) x) xs.

Definition model_call (no_grad : bool) (xs : list (list R)) (xs_on : device)
  : M (computed (list (list R))) :=
  λ w, if same_device xs_on (model_on w)
       then
         let f := batch_forward (bernoulli (rng_state w)) (training w) xs in
         (inr (Computed (f (params w)) (if no_grad then None else Some f)),
          World (cuda_is_available w) (params w) (grads w) (training w)
            (model_on w) (optim w) (S (rng_state w)) (trace w ++ [EvForward])
            (stdout w))
       else (inl (RuntimeError "tensors on different devices"), w).

(** [criterion(output, labels)]. *)
Definition criterion (out : computed (list (list R))) (targets : list nat)
  : M (computed R) :=
  log EvLoss;;
  ret (Computed (NLLLoss (value out) targets)
         ((λ f ps, NLLLoss (f ps) targets) <$> grad_fn out)).

(** [loss.backward()]: the gradient of the loss at the current parameters
    is added to the stored gradients. *)
Definition backward (loss : computed R) : M () :=
  match grad_fn loss with
  | None => raise (RuntimeError "tensor does not require grad")
  | Some f =>
      λ w, let g := autograd f (params w) in
           (inr (), World (cuda_is_available w) (params w)
                      (Some (match grads w with
                             | Some g0 => grad_add g0 g
                             | None => g
                             end))
                      (training w) (model_on w) (optim w) (rng_state w)
                      (trace w ++ [EvBackward]) (stdout w))
  end.

(** [optimizer.step()]: parameters without a gradient are skipped. *)
Definition optimizer_step : M () :=
  λ w, match grads w with
       | Some g =>
           let '(o', ps') := optim_update (optim w) (params w) g in
           (inr (), World (cuda_is_available w) ps' (grads w) (training w)
                      (model_on w) o' (rng_state w) (trace w ++ [EvStep])
                      (stdout w))
       | None =>
           (inr (), World (cuda_is_available w) (params w) (grads w)
                      (training w) (model_on w) (optim w) (rng_state w)
                      (trace w ++ [EvStep]) (stdout w))
       end.

(** [loss.item()]. *)
Definition item (loss : computed R) : M R := log EvItem;; ret (value loss).

Definition print (l : epoch_line) : M () :=
  λ w, (inr (), World (cuda_is_available w) (params w) (grads w) (training w)
                  (model_on w) (optim w) (rng_state w) (trace w ++ [EvPrint])
                  (stdout w ++ [l])).

(** [x / n] for the integer [n = len(loader)]: Python raises
    [ZeroDivisionError] when [n] is 0. *)
Definition divide (x : R) (n : nat) : M R :=
  match n with
  | 0 => raise ZeroDivisionError
  | S _ => ret (x / INR n)%R
  end.

(** *** The training cell of the validation notebook *)

(** The body of [for images, labels in trainloader]. *)
Definition train_batch (b : batch) (running_loss : R) : M R :=
  b ← batch_cuda b;
  optimizer_zero_grad;;
  log_ps ← model_call false (view_flat <$> images b) (on b);
  loss ← criterion log_ps (labels b);
  backward loss;;
  optimizer_step;;
  l ← item loss;
  ret (running_loss + l)%R.

(** The body of [for images, labels in testloader], under
    [torch.no_grad()]; the accumulator is [(test_loss, accuracy)]. *)
Definition test_batch (b : batch) (acc : R * R) : M (R * R) :=
  b ← batch_cuda b;
  output ← model_call true (view_flat <$> images b) (on b);
  loss ← criterion output (labels b);
  let equals := batch_equals (value output) (labels b) in
  ret (acc.1 + value loss, acc.2 + mean_float equals)%R.

(** The [else] branch of the loop over the training batches, up to the end
    of the [with torch.no_grad()] block: [test_loss = 0.], [accuracy = 0.],
    [model.eval()] and the loop over the test batches.  It returns
    [(test_loss, accuracy)]. *)
Definition validation_pass (testloader : DataLoader) : M (R * R) :=
  set_training false;;
  test_batches ← iterate testloader;
  for_each test_batches test_batch (0, 0)%R.

(** The test accuracy the cell prints,
    [accuracy*100 / len(testloader)]. *)
Definition reported_accuracy (accuracy : R) (testloader : DataLoader) : R :=
  (accuracy * 100 / INR (len testloader))%R.

(** The body of [for e in range(epochs)]; the accumulator is
    [(train_losses, test_losses)]. *)
Definition epoch_body (epochs : nat) (trainloader testloader : DataLoader)
    (e : nat) (acc : list R * list R) : M (list R * list R) :=
  set_training true;;
  train_batches ← iterate trainloader;
  running_loss ← for_each train_batches train_batch 0%R;
  r ← validation_pass testloader;
  train_loss ← divide running_loss (len trainloader);
  test_loss ← divide r.1 (len testloader);
  print (EpochLine (e + 1) epochs train_loss (Some test_loss)
           (Some (reported_accuracy r.2 testloader)));;
  ret (acc.1 ++ [train_loss], acc.2 ++ [test_loss]).

(** The cell: [model.to(device)], then [epochs] epochs. *)
Definition training_cell (epochs : nat) (trainloader testloader : DataLoader)
  : M (list R * list R) :=
  d ← select_device;
  model_to d;;
  for_each (seq 0 epochs) (epoch_body epochs trainloader testloader) ([], []).

(** *** The training loop of the "Training Neural Networks" notebook *)

Definition train_batch_cpu (b : batch) (running_loss : R) : M R :=
  log EvView;;
  optimizer_zero_grad;;
  output ← model_call false (view_flat <$> images b) (on b);
  loss ← criterion output (labels b);
  backward loss;;
  optimizer_step;;
  l ← item loss;
  ret (running_loss + l)%R.

Definition epoch_body_cpu (epochs : nat) (trainloader : DataLoader)
    (e : nat) (_ : ()) : M () :=
  train_batches ← iterate trainloader;
  running_loss ← for_each train_batches train_batch_cpu 0%R;
  train_loss ← divide running_loss (len trainloader);
  print (EpochLine (e + 1) epochs train_loss None None).

Definition training_loop_cpu (epochs : nat) (trainloader : DataLoader) : M () :=
  for_each (seq 0 epochs) (epoch_body_cpu epochs trainloader) ().

End Cells.

Arguments World {P O}.
Arguments Computed {P A}.
Arguments value {P A}.
Arguments grad_fn {P A}.

(** *** The model of the cell *)

(** [class Classifier(nn.Module)], in its version with dropout. *)
Record Classifier := {
  fc1 : Linear;
  fc2 : Linear;
  fc3 : Linear;
  fc4 : Linear;
  dropout : Dropout
}.

Definition Classifier_init (g : rng) : Classifier :=
  let '(l1, g1) := nn_Linear 784 256 g in
  let '(l2, g2) := nn_Linear 256 128 g1 in
  let '(l3, g3) := nn_Linear 128 64 g2 in
  let '(l4, _) := nn_Linear 64 10 g3 in
  {| fc1 := l1; fc2 := l2; fc3 := l3; fc4 := l4; dropout := {| p := 0.2 |} |}.

(** [Classifier.forward] on one flattened example: dropout after each of
    the three hidden layers, none on the output. *)
Definition Classifier_forward (c : Classifier) (mode : bool)
    (keep : nat → nat → bool) (x : list R) : list R :=
  let x := Dropout_forward (dropout c) mode (keep 0) (relu (Linear_forward (fc1 c) x)) in
  let x := Dropout_forward (dropout c) mode (keep 1) (relu (Linear_forward (fc2 c) x)) in
  let x := Dropout_forward (dropout c) mode (keep 2) (relu (Linear_forward (fc3 c) x)) in
  log_softmax (Linear_forward (fc4 c) x).

(** [Classifier.forward] of the first version of the class, without
    dropout. *)
Definition Classifier_forward_plain (c : Classifier) (mode : bool)
    (keep : nat → nat → bool) (x : list R) : list R :=
  let x := relu (Linear_forward (fc1 c) x) in
  let x := relu (Linear_forward (fc2 c) x) in
  let x := relu (Linear_forward (fc3 c) x) in
  log_softmax (Linear_forward (fc4 c) x).

(** *** What the claims compare the cell with *)

(** The events of one training mini-batch, in order. *)
Definition training_steps : list event :=
  [EvZeroGrad; EvForward; EvLoss; EvBackward; EvStep].

(** The events of one epoch of the training cell with [nb] training batches
    and [nt] test batches. *)
Definition epoch_events (nb nt : nat) : list event :=
  [EvModelTrain]
  ++ mjoin (replicate nb ([EvCuda; EvCuda] ++ training_steps ++ [EvItem]))
  ++ [EvModelEval]
  ++ mjoin (replicate nt [EvCuda; EvCuda; EvForward; EvLoss])
  ++ [EvPrint].

(** The events of one epoch of the loop of the training notebook. *)
Definition epoch_events_cpu (nb : nat) : list event :=
  mjoin (replicate nb ([EvView] ++ training_steps ++ [EvItem])) ++ [EvPrint].

Section Expected.

Context {P O : Type} {lib : Library P O}.

(** The outputs of the model with parameters [ps] on the batch [b], when
    the random number generator is in state [s]. *)
Definition outputs_on (ps : P) (mode : bool) (s : nat) (b : batch)
  : list (list R) :=
  batch_forward (bernoulli s) mode (view_flat <$> images b) ps.

(** The correctness of the classification of each example of each batch,
    the forward passes being made one after the other from state [s]. *)
Fixpoint equals_of (ps : P) (mode : bool) (s : nat) (bs : list batch)
  : list (list bool) :=
  match bs with
  | [] => []
  | b :: bs' =>
      batch_equals (outputs_on ps mode s b) (labels b)
      :: equals_of ps mode (S s) bs'
  end.

(** The loss on each batch. *)
Fixpoint losses_of (ps : P) (mode : bool) (s : nat) (bs : list batch)
  : list R :=
  match bs with
  | [] => []
  | b :: bs' =>
      NLLLoss (outputs_on ps mode s b) (labels b)
      :: losses_of ps mode (S s) bs'
  end.

(** The gradient [loss.backward()] computes for the batch [b]. *)
Definition batch_gradient (w : @world P O) (b : batch) : P :=
  autograd
    (λ ps, NLLLoss (outputs_on ps (training w) (rng_state w) b) (labels b))
    (params w).

(** Two worlds that differ at most in the state of the random number
    generator, the mode of the model and the logged events: the
    parameters, the stored gradients, the state of the optimizer and what
    was printed are the same. *)
Definition same_model (w w' : @world P O) : Prop :=
  cuda_is_available w' = cuda_is_available w
  ∧ params w' = params w
  ∧ grads w' = grads w
  ∧ optim w' = optim w
  ∧ model_on w' = model_on w
  ∧ stdout w' = stdout w.

(** What the training steps act on: the parameters, the stored gradient,
    the state of the optimizer and the state of the random number
    generator. *)
Record model_state := ModelState {
  ms_params : P;
  ms_grads : option P;
  ms_optim : O;
  ms_rng : nat
}.

Definition state_of (w : @world P O) : model_state :=
  ModelState (params w) (grads w) (optim w) (rng_state w).

(** The five steps of one training mini-batch as a function on that state:
    the stored gradient is zeroed, the forward pass is made in the given
    mode with the dropout draws of the current state of the generator, the
    gradient of its loss at the current parameters is added to the zeroed
    one, and the optimizer updates the parameters along the sum. *)
Definition batch_update (mode : bool) (b : batch) (st : model_state)
  : model_state :=
  let g := autograd
             (λ ps, NLLLoss (outputs_on ps mode (ms_rng st) b) (labels b))
             (ms_params st) in
  let stored := match grad_zeros <$> ms_grads st with
                | Some g0 => grad_add g0 g
                | None => g
                end in
  let '(o', ps') := optim_update (ms_optim st) (ms_params st) stored in
  ModelState ps' (Some stored) o' (S (ms_rng st)).

(** The generator after [n] more draws. *)
Definition advance (n : nat) (st : model_state) : model_state :=
  ModelState (ms_params st) (ms_grads st) (ms_optim st) (n + ms_rng st).

(** The draws that starting the iteration of a loader costs. *)
Definition shuffles (dl : DataLoader) : nat := if shuffle dl then 1 else 0.

(** The training batches of one epoch, one after the other, in the order
    in which the loader yields them. *)
Definition training_pass (mode : bool) (trainloader : DataLoader)
    (st : model_state) : model_state :=
  foldl (λ st b, batch_update mode b st) (advance (shuffles trainloader) st)
    (loader_batches trainloader (ms_rng st)).

(** One epoch of the training cell: the training batches in training mode,
    then the validation pass, which only draws from the generator. *)
Definition epoch_update (trainloader testloader : DataLoader)
    (st : model_state) : model_state :=
  advance (len testloader + shuffles testloader)
    (training_pass true trainloader st).

(** [n] epochs, one after the other. *)
Fixpoint epochs_update (n : nat) (epoch : model_state → model_state)
    (st : model_state) : model_state :=
  match n with
  | 0 => st
  | S n' => epochs_update n' epoch (epoch st)
  end.

(** The examples the models of the cells accept: an image of 784 pixels
    with a label below 10. *)
Definition well_formed (x : sample) : Prop :=
  length (view_flat x.1) = 784 ∧ x.2 < 10.

(** A loader that yields at least one batch and, however the generator
    shuffles, every example of its data set once, all of them well
    formed. *)
Definition well_formed_loader (dl : DataLoader) : Prop :=
  0 < batch_size dl
  ∧ dataset dl ≠ []
  ∧ Forall well_formed (dataset dl)
  ∧ ∀ s, randperm s (dataset dl) ≡ₚ dataset dl.

End Expected.

(** The sizes of the [n] batches cut from [k] examples. *)
Fixpoint chunk_sizes (n bs k : nat) : list nat :=
  match n with
  | 0 => []
  | S n' => (bs `min` k) :: chunk_sizes n' bs (k - bs)
  end.

(** The fraction of correctly classified examples among all the examples
    of the given batches. *)
Definition fraction_correct (equals : list (list bool)) : R :=
  mean_float (concat equals).

(** The unweighted mean of the accuracies of the batches. *)
Definition mean_of_batch_means (equals : list (list bool)) : R :=
  (foldr Rplus 0 (mean_float <$> equals) / INR (length equals))%R.

(** *** A concrete run of the validation pass *)

(** A classifier that answers class 0 on every image: all weights are zero
    and only the bias of class 0 of the output layer is not. *)
Definition constant_classifier : Classifier :=
  {| fc1 := Linear_zero_weights 784 256 (replicate 256 0%R);
     fc2 := Linear_zero_weights 256 128 (replicate 128 0%R);
     fc3 := Linear_zero_weights 128 64 (replicate 64 0%R);
     fc4 := Linear_zero_weights 64 10 (1%R :: replicate 9 0%R);
     dropout := {| p := 0.2 |} |}.

(** A library instance for the classifier in which the generator never
    drops a unit and never reorders the data, and the optimizer state is
    trivial. *)
Definition still_library : Library Classifier () :=
  {| model_forward := Classifier_forward;
     autograd := λ _ ps, ps;
     grad_add := λ g _, g;
     grad_zeros := λ g, g;
     optim_update := λ o ps _, (o, ps);
     bernoulli := λ _ _ _ _, true;
     randperm := λ _ l, l |}.

Definition blank_image : image := replicate 28 (replicate 28 0%R).

(** A test set of 10000 images: 156 * 64 = 9984 of class 0, then 16 of
    class 1. *)
Definition skewed_testset : list sample :=
  replicate (156 * 64) (blank_image, 0) ++ replicate 16 (blank_image, 1).

Definition skewed_testloader : DataLoader :=
  {| dataset := skewed_testset; batch_size := 64; shuffle := true |}.

(** A small training set, for the loops. *)
Definition small_trainloader : DataLoader :=
  {| dataset := replicate 3 (blank_image, 0); batch_size := 2;
     shuffle := true |}.

(** The world in which a cell starts: the model on the device [d], in
    training mode, no gradient stored, nothing logged or printed. *)
Definition start_world (cuda : bool) (d : device) (c : Classifier)
  : @world Classifier () :=
  World cuda c None true d () 0 [] [].

End Part5.

(** ** Part 6: the cells that save and load the bare state dict *)

Module Part6Cells.
Import Torch FcModel Part6.

(** [torch.save(model.state_dict(), 'checkpoint.pth')]. *)
Definition save_state_dict (model : Network) (fs : filesystem) : filesystem :=
  torch_save (ObjStateDict (Network_state_dict model)) "checkpoint.pth" fs.

End Part6Cells.

(** ** Part 5: the accuracy cells, the inference cell and the autograd cells *)

Module Part5Cells.
Import Torch Part5.

(** *** The model called on an image *)

(** [Linear.forward] as the library runs it: an input that has not
    [in_features] entries raises. *)
Definition Linear_call (l : Linear) (x : list R) : exn + list R :=
  if decide (length x = in_features l) then inr (Linear_forward l x)
  else inl (RuntimeError "mat1 and mat2 shapes cannot be multiplied").

(** [model(images)] on one flattened example, for the class with dropout:
    the layers are called one after the other, and the first one whose
    input has another length than it expects raises. *)
Definition Classifier_call (c : Classifier) (mode : bool)
    (keep : nat → nat → bool) (x : list R) : exn + list R :=
  match Linear_call (fc1 c) x with
  | inl e => inl e
  | inr x1 =>
      match Linear_call (fc2 c)
              (Dropout_forward (dropout c) mode (keep 0) (relu x1)) with
      | inl e => inl e
      | inr x2 =>
          match Linear_call (fc3 c)
                  (Dropout_forward (dropout c) mode (keep 1) (relu x2)) with
          | inl e => inl e
          | inr x3 =>
              match Linear_call (fc4 c)
                      (Dropout_forward (dropout c) mode (keep 2) (relu x3))
              with
              | inl e => inl e
              | inr x4 => inr (log_softmax x4)
              end
          end
      end
  end.

(** The same for the first version of the class, without dropout. *)
Definition Classifier_call_plain (c : Classifier) (mode : bool)
    (keep : nat → nat → bool) (x : list R) : exn + list R :=
  match Linear_call (fc1 c) x with
  | inl e => inl e
  | inr x1 =>
      match Linear_call (fc2 c) (relu x1) with
      | inl e => inl e
      | inr x2 =>
          match Linear_call (fc3 c) (relu x2) with
          | inl e => inl e
          | inr x3 =>
              match Linear_call (fc4 c) (relu x3) with
              | inl e => inl e
              | inr x4 => inr (log_softmax x4)
              end
          end
      end
  end.

(** [model(images)] on the examples of a batch, from example [n] on;
    [call n] is the model on example [n] with its dropout draws. *)
Fixpoint call_rows (call : nat → list R → exn + list R) (n : nat)
    (xs : list (list R)) : exn + list (list R) :=
  match xs with
  | [] => inr []
  | x :: xs' =>
      match call n x with
      | inl e => inl e
      | inr row =>
          match call_rows call (S n) xs' with
          | inl e => inl e
          | inr rows => inr (row :: rows)
          end
      end
  end.

(** A layer with the features of [Linear(i, o)] whose tensors hold as many
    numbers. *)
Definition Linear_sized (i o : nat) (l : Linear) : Prop :=
  in_features l = i ∧ out_features l = o
  ∧ length (data (weight l)) = o * i ∧ length (data (bias l)) = o.

(** A classifier with the layers of [Classifier()], whatever the values of
    its parameters. *)
Definition Classifier_shaped (c : Classifier) : Prop :=
  Linear_sized 784 256 (fc1 c) ∧ Linear_sized 256 128 (fc2 c)
  ∧ Linear_sized 128 64 (fc3 c) ∧ Linear_sized 64 10 (fc4 c).

(** What [criterion(log_ps, labels)] gives: a number; not-a-number, the
    mean over no example; a [ValueError] when there is not one label per
    row; an error when a label is not the position of a class. *)
Inductive loss_outcome :=
| Loss (v : R)
| LossNaN
| LossValueError
| LossTargetOutOfBounds.

(** [criterion(log_ps, labels)] for [criterion = nn.NLLLoss()], with the
    checks the library makes before it takes the mean. *)
Definition NLLLoss_call (log_ps : list (list R)) (targets : list nat)
  : loss_outcome :=
  if decide (length log_ps = length targets) then
    if decide (Forall2 (λ (row : list R) t, t < length row) log_ps targets)
    then match log_ps with
         | [] => LossNaN
         | _ :: _ => Loss (NLLLoss log_ps targets)
         end
    else LossTargetOutOfBounds
  else LossValueError.

(** *** The accuracy of one batch *)

(** The number of [True] entries. *)
Definition count_true (equals : list bool) : nat :=
  length (filter (λ b : bool, b = true) equals).

(** [k] is a position of a largest entry of [row]. *)
Definition largest_at (row : list R) (k : nat) : Prop :=
  ∃ v, row !! k = Some v ∧ ∀ u, u ∈ row → (u <= v)%R.

(** *** The autograd cells: [y = x**2], [z = y.mean()] *)

Definition square (x : list R) : list R := (λ v, v ^ 2)%R <$> x.

Definition mean (y : list R) : R := (foldr Rplus 0 y / INR (length y))%R.

(** [z] as a function of entry [i] of [x], the other entries being fixed. *)
Definition z_along (x : list R) (i : nat) (t : R) : R :=
  mean (square (<[i := t]> x)).


(** *** Counting the calls into the library *)

#[global] Instance event_eq_dec : EqDecision event.
Proof. solve_decision. Defined.


(** *** The inference cell *)

(** What the cell can raise: an exception of the library, or one of the
    iterator or of the indexing. *)
Inductive py_exn :=
| Raised (e : exn)
| StopIteration
| IndexError.

(** [img.view(1, 784)]. *)
Definition view_1_784 (img : image) : exn + list R :=
  if decide (length (view_flat img) = 784) then inr (view_flat img)
  else inl (RuntimeError "shape [1, 784] is invalid for input size").

Section Inference.

Context {P O : Type} {lib : Library P O}.

(** The cell
    [model.eval().cpu()],
    [dataiter = iter(testloader)], [images, labels = dataiter.next()],
    [img = images[0]], [img = img.view(1, 784)],
    [with torch.no_grad(): output = model.forward(img)],
    [ps = torch.exp(output)]; it returns [ps]. *)
Definition inference_cell (testloader : DataLoader) (w : @world P O)
  : (py_exn + list (list R)) * @world P O :=
  match bind (set_training false)
          (λ _, bind (model_to CPU) (λ _, iterate testloader)) w with
  | (inl e, w1) => (inl (Raised e), w1)
  | (inr [], w1) => (inl StopIteration, w1)
  | (inr (b :: _), w1) =>
      match images b with
      | [] => (inl IndexError, w1)
      | img :: _ =>
          match view_1_784 img with
          | inl e => (inl (Raised e), w1)
          | inr x =>
              match model_call true [x] (on b) w1 with
              | (inl e, w2) => (inl (Raised e), w2)
              | (inr output, w2) =>
                  (inr ((λ row : list R, exp <$> row) <$> value output), w2)
              end
          end
      end
  end.

End Inference.

(** *** A model with one parameter *)

(** A library instance whose parameters and gradients are single numbers:
    the model gives class 0 the logit [p] and class 1 the logit 0, a
    difference quotient stands for the derivative, and the optimizer is
    gradient descent with the learning rate 0.003 of the training loop. *)
Definition scalar_library : Library R () :=
  {| model_forward := λ p _ _ _, log_softmax [p; 0%R];
     autograd := λ f p, (f (p + 1) - f p)%R;
     grad_add := Rplus;
     grad_zeros := λ _, 0%R;
     optim_update := λ o p g, (o, (p - 0.003 * g)%R);
     bernoulli := λ _ _ _ _, true;
     randperm := λ _ l, l |}.

End Part5Cells.

(** * Proofs *)

(** ** Parameter names, state dicts and [load_state_dict] *)

Module LoadFacts.
Import Torch FcModel.

Lemma string_app_nil t : "" +:+ t = t.
Proof. reflexivity. Qed.

Lemma string_app_cons a s t : String a s +:+ t = String a (s +:+ t).
Proof. reflexivity. Qed.

Lemma last_char_app s t : t ≠ "" → last_char (s +:+ t) = last_char t.
Proof.
  intros Ht. induction s as [|a s IH]; [done|].
  rewrite string_app_cons.
  simpl. rewrite IH. destruct (s +:+ t) eqn:E; [|done].
  destruct s; [|done]. by destruct t.
Qed.

Lemma string_length_app s t :
  String.length (s +:+ t) = String.length s + String.length t.
Proof.
  induction s as [|a s IH]; [done|].
  rewrite string_app_cons. simpl. by rewrite IH.
Qed.

Lemma string_app_inj_r s1 s2 t : s1 +:+ t = s2 +:+ t → s1 = s2.
Proof.
  revert s2. induction s1 as [|a s1 IH]; intros [|b s2] H; try done.
  - apply (f_equal String.length) in H.
    rewrite !string_length_app in H. simpl in H. lia.
  - apply (f_equal String.length) in H.
    rewrite !string_length_app in H. simpl in H. lia.
  - rewrite !string_app_cons in H.
    injection H as -> H. f_equal. by apply IH.
Qed.

Lemma hidden_prefix_inj k j : hidden_prefix k = hidden_prefix j → k = j.
Proof.
  unfold hidden_prefix. intros H.
  apply (inj _) in H. apply string_app_inj_r in H. by apply (inj pretty) in H.
Qed.

Lemma weight_ne_bias s t : s +:+ "weight" ≠ t +:+ "bias".
Proof.
  intros H. apply (f_equal last_char) in H.
  rewrite !last_char_app in H by done. done.
Qed.

Lemma hidden_ne_output k s t : hidden_prefix k +:+ s ≠ "output." +:+ t.
Proof. unfold hidden_prefix. intros H. discriminate H. Qed.

Lemma key_inj p1 p2 f1 f2 :
  p1 +:+ field_name f1 = p2 +:+ field_name f2 → p1 = p2 ∧ f1 = f2.
Proof.
  destruct f1, f2; simpl; intros H.
  - by apply string_app_inj_r in H.
  - by apply weight_ne_bias in H.
  - symmetry in H. by apply weight_ne_bias in H.
  - by apply string_app_inj_r in H.
Qed.

Lemma sd_lookup_app k a b :
  sd_lookup k (a ++ b)
  = match sd_lookup k a with Some t => Some t | None => sd_lookup k b end.
Proof.
  induction a as [|[k' t] a IH]; [done|]. simpl.
  by destruct (decide (k' = k)).
Qed.

Lemma lookup_Linear p p' f l :
  sd_lookup (p' +:+ field_name f) (Linear_state_dict p l)
  = if decide (p = p') then Some (field_of f l) else None.
Proof.
  unfold Linear_state_dict. simpl.
  destruct (decide (p = p')) as [->|NE].
  - destruct f; simpl.
    + by rewrite decide_True.
    + rewrite decide_False by apply weight_ne_bias. by rewrite decide_True.
  - rewrite decide_False.
    2:{ intros E. change "weight" with (field_name Weight) in E.
        by apply key_inj in E as [? _]. }
    rewrite decide_False; [done|].
    intros E. change "bias" with (field_name Bias) in E.
    by apply key_inj in E as [? _].
Qed.

Lemma lookup_layers j f k ls :
  sd_lookup (hidden_prefix j +:+ field_name f) (layers_state_dict k ls)
  = if decide (k ≤ j)%nat then field_of f <$> ls !! (j - k) else None.
Proof.
  revert k. induction ls as [|l ls IH]; intros k; cbn [layers_state_dict].
  - simpl. by case_decide.
  - rewrite sd_lookup_app, lookup_Linear, IH.
    destruct (decide (hidden_prefix k = hidden_prefix j)) as [E|NE].
    + apply hidden_prefix_inj in E as ->.
      rewrite decide_True by lia. by rewrite Nat.sub_diag.
    + assert (k ≠ j) by congruence.
      repeat case_decide; try lia; [|done].
      replace (j - k) with (S (j - S k)) by lia. done.
Qed.

Lemma lookup_layers_output f k ls :
  sd_lookup ("output." +:+ field_name f) (layers_state_dict k ls) = None.
Proof.
  revert k. induction ls as [|l ls IH]; intros k; cbn [layers_state_dict];
    [done|].
  rewrite sd_lookup_app, lookup_Linear, IH.
  rewrite decide_False; [done|].
  intros E. by apply (hidden_ne_output k "" "").
Qed.

Lemma lookup_Network_hidden j f m :
  sd_lookup (hidden_prefix j +:+ field_name f) (Network_state_dict m)
  = field_of f <$> hidden_layers m !! j.
Proof.
  unfold Network_state_dict.
  rewrite sd_lookup_app, lookup_layers, lookup_Linear.
  rewrite decide_True by lia. rewrite decide_False.
  2:{ intros E. by apply (hidden_ne_output j "" ""). }
  rewrite Nat.sub_0_r. by destruct (hidden_layers m !! j).
Qed.

Lemma lookup_Network_output f m :
  sd_lookup ("output." +:+ field_name f) (Network_state_dict m)
  = Some (field_of f (output m)).
Proof.
  unfold Network_state_dict.
  rewrite sd_lookup_app, lookup_layers_output, lookup_Linear.
  by rewrite decide_True.
Qed.

Lemma elem_of_sd_keys k sd : k ∈ sd_keys sd ↔ is_Some (sd_lookup k sd).
Proof.
  unfold sd_keys. induction sd as [|[k' t] sd IH]; simpl.
  - split; [by intros ?%elem_of_nil|by intros [? ?]].
  - rewrite elem_of_cons, IH. destruct (decide (k' = k)) as [->|NE].
    + split; eauto.
    + split; [by intros [?|?]|by right].
Qed.

(** The keys of a network are those of its layers. *)
Lemma sd_keys_Network_inv key m :
  key ∈ sd_keys (Network_state_dict m) →
  (∃ j f, key = hidden_prefix j +:+ field_name f
          ∧ (j < length (hidden_layers m))%nat)
  ∨ (∃ f, key = "output." +:+ field_name f).
Proof.
  unfold Network_state_dict, sd_keys. rewrite fmap_app, elem_of_app.
  intros [H|H].
  - left. remember 0 as k eqn:Hk.
    assert (∃ j f, key = hidden_prefix (k + j) +:+ field_name f
                   ∧ (j < length (hidden_layers m))%nat) as (j&f&->&?).
    { clear Hk. revert k H.
      induction (hidden_layers m) as [|l ls IH]; intros k H; simpl in H.
      - by apply elem_of_nil in H.
      - apply elem_of_cons in H as [->|H]; [|apply elem_of_cons in H as [->|H]].
        + exists 0, Weight. rewrite Nat.add_0_r. simpl. split; [done|lia].
        + exists 0, Bias. rewrite Nat.add_0_r. simpl. split; [done|lia].
        + apply IH in H as (j&f&->&?). exists (S j), f.
          replace (k + S j) with (S k + j) by lia. simpl. split; [done|lia]. }
    subst k. eauto.
  - right. simpl in H.
    apply elem_of_cons in H as [->|H]; [by exists Weight|].
    apply elem_of_cons in H as [->|H]; [by exists Bias|].
    by apply elem_of_nil in H.
Qed.

(** *** Loading one parameter, one layer, a stack of layers *)

Lemma tensor_eta_size t s : size t = s → Tensor s (data t) = t.
Proof. intros <-. by destruct t. Qed.

Lemma load_param_clean sd key p0 t :
  sd_lookup key sd = Some t → size t = size p0 →
  load_param sd key p0 = (t, ([], [])).
Proof.
  intros Hl Hs. unfold load_param. rewrite Hl, decide_True by done.
  by rewrite tensor_eta_size.
Qed.

Lemma load_param_missing_nil sd key p0 :
  (load_param sd key p0).2.1 = [] → is_Some (sd_lookup key sd).
Proof.
  unfold load_param. destruct (sd_lookup key sd); [eauto|done].
Qed.

Lemma load_param_errors_nil sd key p0 t :
  (load_param sd key p0).2.2 = [] → sd_lookup key sd = Some t →
  size t = size p0.
Proof.
  unfold load_param. intros H Hl. rewrite Hl in H. by case_decide.
Qed.

Lemma load_Linear_clean sd prefix l0 l :
  same_layout l0 l →
  (∀ f, sd_lookup (prefix +:+ field_name f) sd = Some (field_of f l)) →
  load_Linear sd prefix l0 = (l, ([], [])).
Proof.
  intros (Hi&Ho&Hw&Hb) Hl. unfold load_Linear.
  rewrite (load_param_clean _ _ _ (weight l)) by (done || apply (Hl Weight)).
  rewrite (load_param_clean _ _ _ (bias l)) by (done || apply (Hl Bias)).
  rewrite Hi, Ho. by destruct l.
Qed.

Lemma load_Linear_missing_nil sd prefix l0 f :
  (load_Linear sd prefix l0).2.1 = [] →
  is_Some (sd_lookup (prefix +:+ field_name f) sd).
Proof.
  unfold load_Linear.
  destruct (load_param sd (prefix +:+ "weight") (weight l0))
    as [w [mw ew]] eqn:Ew.
  destruct (load_param sd (prefix +:+ "bias") (bias l0))
    as [b [mb eb]] eqn:Eb.
  simpl. intros [-> ->]%app_eq_nil.
  destruct f; simpl.
  - apply (load_param_missing_nil _ _ (weight l0)). by rewrite Ew.
  - apply (load_param_missing_nil _ _ (bias l0)). by rewrite Eb.
Qed.

Lemma load_Linear_errors_nil sd prefix l0 f t :
  (load_Linear sd prefix l0).2.2 = [] →
  sd_lookup (prefix +:+ field_name f) sd = Some t →
  size t = size (field_of f l0).
Proof.
  unfold load_Linear.
  destruct (load_param sd (prefix +:+ "weight") (weight l0))
    as [w [mw ew]] eqn:Ew.
  destruct (load_param sd (prefix +:+ "bias") (bias l0))
    as [b [mb eb]] eqn:Eb.
  simpl. intros [-> ->]%app_eq_nil.
  destruct f; simpl; intros Hl.
  - apply (load_param_errors_nil sd _ _ _ (f_equal (snd ∘ snd) Ew) Hl).
  - apply (load_param_errors_nil sd _ _ _ (f_equal (snd ∘ snd) Eb) Hl).
Qed.

Lemma load_layers_clean sd ls0 ls k :
  Forall2 same_layout ls0 ls →
  (∀ j l f, ls !! j = Some l →
     sd_lookup (hidden_prefix (k + j) +:+ field_name f) sd
     = Some (field_of f l)) →
  load_layers sd k ls0 = (ls, ([], [])).
Proof.
  intros HF. revert k. induction HF as [|l0 l ls0 ls Hl HF IH]; intros k Hk.
  - done.
  - cbn [load_layers]. rewrite (load_Linear_clean _ _ _ l); [|done|].
    + rewrite IH; [done|]. intros j l' f Hj.
      replace (S k + j) with (k + S j) by lia. by apply Hk.
    + intros f. specialize (Hk 0 l f). rewrite Nat.add_0_r in Hk. by apply Hk.
Qed.

Lemma load_layers_missing_nil sd ls0 k j f :
  (load_layers sd k ls0).2.1 = [] → (j < length ls0)%nat →
  is_Some (sd_lookup (hidden_prefix (k + j) +:+ field_name f) sd).
Proof.
  revert k j. induction ls0 as [|l0 ls0 IH]; intros k j; cbn [load_layers].
  - simpl. lia.
  - destruct (load_Linear sd (hidden_prefix k) l0) as [l' [m1 e1]] eqn:E1.
    destruct (load_layers sd (S k) ls0) as [ls' [m2 e2]] eqn:E2.
    simpl. intros [-> ->]%app_eq_nil Hj.
    destruct j as [|j].
    + rewrite Nat.add_0_r.
      apply (load_Linear_missing_nil sd _ l0). by rewrite E1.
    + replace (k + S j) with (S k + j) by lia.
      apply IH; [by rewrite E2|lia].
Qed.

Lemma load_layers_errors_nil sd ls0 k j l0 f t :
  (load_layers sd k ls0).2.2 = [] → ls0 !! j = Some l0 →
  sd_lookup (hidden_prefix (k + j) +:+ field_name f) sd = Some t →
  size t = size (field_of f l0).
Proof.
  revert k j. induction ls0 as [|l ls0 IH]; intros k j; cbn [load_layers].
  - done.
  - destruct (load_Linear sd (hidden_prefix k) l) as [l' [m1 e1]] eqn:E1.
    destruct (load_layers sd (S k) ls0) as [ls' [m2 e2]] eqn:E2.
    simpl. intros [-> ->]%app_eq_nil Hj.
    destruct j as [|j]; simpl in Hj.
    + injection Hj as ->. rewrite Nat.add_0_r.
      apply (load_Linear_errors_nil sd (hidden_prefix k)). by rewrite E1.
    + replace (k + S j) with (S k + j) by lia.
      apply IH; [by rewrite E2|done].
Qed.

(** *** Architectures *)

Lemma last_cons_any (h : nat) hs i j :
  List.last (h :: hs) i = List.last (h :: hs) j.
Proof.
  revert h. induction hs as [|h' hs IH]; intros h; [done|].
  change (List.last (h' :: hs) i = List.last (h' :: hs) j). apply IH.
Qed.

Lemma last_cons_default (h : nat) hs i : List.last (h :: hs) i = List.last hs h.
Proof.
  destruct hs as [|h' hs]; [done|].
  change (List.last (h' :: hs) i = List.last (h' :: hs) h).
  apply last_cons_any.
Qed.

Lemma hidden_stack_shaped i hs g :
  layers_shaped i hs (hidden_stack i hs g).1
  ∧ (hidden_stack i hs g).2.1 = List.last hs i.
Proof.
  revert i g. induction hs as [|h hs IH]; intros i g; [done|].
  rewrite last_cons_default.
  cbn [hidden_stack]. unfold nn_Linear, rand.
  destruct (hidden_stack h hs _) as [ls r] eqn:E. simpl.
  specialize (IH h (λ j, g (h * i + (h + j)))). rewrite E in IH.
  destruct IH as [IH1 IH2]. repeat split; done.
Qed.

Lemma Network_init_architecture i o hs g :
  has_architecture i o hs (Network_init i o hs g).
Proof.
  unfold Network_init, has_architecture.
  pose proof (hidden_stack_shaped i hs g) as [H1 H2].
  destruct (hidden_stack i hs g) as [ls [last g1]]. simpl in *. subst last.
  split; [done|]. repeat split.
Qed.

Lemma Network_init_mode i o hs g :
  training (Network_init i o hs g) = true
  ∧ dropout (Network_init i o hs g) = {| p := 0.5 |}.
Proof.
  unfold Network_init. by destruct (hidden_stack i hs g) as [ls [last g1]].
Qed.

Lemma layers_shaped_length i hs ls :
  layers_shaped i hs ls → length ls = length hs.
Proof.
  revert i ls. induction hs as [|h hs IH]; intros i [|l ls]; simpl; try done.
  intros [_ H]. f_equal. by eapply IH.
Qed.

Lemma layers_shaped_widths i hs ls :
  layers_shaped i hs ls → out_features <$> ls = hs.
Proof.
  revert i ls. induction hs as [|h hs IH]; intros i [|l ls]; simpl; try done.
  intros [(_&<-&_) H]. f_equal. by eapply IH.
Qed.

Lemma layers_shaped_lookup i hs ls j l :
  layers_shaped i hs ls → ls !! j = Some l →
  ∃ h, hs !! j = Some h ∧ size (bias l) = [h].
Proof.
  revert i ls j. induction hs as [|h hs IH]; intros i [|l' ls] j; simpl;
    try done.
  intros [(_&_&_&Hb) H] Hj. destruct j as [|j]; simpl in *.
  - injection Hj as ->. eauto.
  - by eapply IH.
Qed.

Lemma layers_shaped_layout i hs ls0 ls :
  layers_shaped i hs ls0 → layers_shaped i hs ls → Forall2 same_layout ls0 ls.
Proof.
  revert i ls0 ls. induction hs as [|h hs IH]; intros i [|l0 ls0] [|l ls];
    simpl; try done.
  intros [(Hi0&Ho0&Hw0&Hb0) H0] [(Hi&Ho&Hw&Hb) H]. constructor.
  - unfold same_layout. by rewrite Hi0, Ho0, Hw0, Hb0, Hi, Ho, Hw, Hb.
  - by eapply IH.
Qed.

(** *** Loading a stored state dict *)

Lemma load_outcome_ok r : load_outcome r = inr () ↔ r = LoadReport [] [] [].
Proof.
  destruct r as [[|??] [|??] [|??]]; simpl; split; by intros.
Qed.

Lemma load_outcome_raise r :
  r ≠ LoadReport [] [] [] →
  load_outcome r = inl (RuntimeError_load_state_dict r).
Proof. by destruct r as [[|??] [|??] [|??]]. Qed.

(** The report of loading [sd] into [m0], piece by piece. *)
Lemma load_into_report m0 sd :
  (load_into m0 sd).2
  = LoadReport
      ((load_layers sd 0 (hidden_layers m0)).2.1
       ++ (load_Linear sd "output." (output m0)).2.1)
      (filter (λ k, k ∉ sd_keys (Network_state_dict m0)) (sd_keys sd))
      ((load_layers sd 0 (hidden_layers m0)).2.2
       ++ (load_Linear sd "output." (output m0)).2.2).
Proof.
  unfold load_into.
  destruct (load_layers sd 0 (hidden_layers m0)) as [ls [m1 e1]].
  by destruct (load_Linear sd "output." (output m0)) as [out [m2 e2]].
Qed.

Lemma load_state_dict_outcome m0 sd :
  (load_state_dict m0 sd).2 = load_outcome (load_into m0 sd).2.
Proof. unfold load_state_dict. by destruct (load_into m0 sd). Qed.

Lemma load_into_same_architecture i o hs m0 m :
  has_architecture i o hs m0 → has_architecture i o hs m →
  load_into m0 (Network_state_dict m)
  = ({| hidden_layers := hidden_layers m; output := output m;
        dropout := dropout m0; training := training m0 |},
     LoadReport [] [] []).
Proof.
  intros [Hl0 Ho0] [Hl Ho]. unfold load_into.
  rewrite (load_layers_clean _ _ (hidden_layers m)).
  2:{ by eapply layers_shaped_layout. }
  2:{ intros j l f Hj. change (0 + j) with j.
      by rewrite lookup_Network_hidden, Hj. }
  rewrite (load_Linear_clean _ _ _ (output m)).
  2:{ destruct Ho0 as (Hi0&Hf0&Hw0&Hb0), Ho as (Hi&Hf&Hw&Hb).
      unfold same_layout. by rewrite Hi0, Hf0, Hw0, Hb0, Hi, Hf, Hw, Hb. }
  2:{ intros f. apply lookup_Network_output. }
  simpl. do 2 f_equal.
  apply elem_of_nil_inv. intros key [Hnot Hin]%list_elem_of_filter.
  apply Hnot. apply elem_of_sd_keys.
  apply sd_keys_Network_inv in Hin as [(j&f&->&Hj)|(f&->)].
  - rewrite lookup_Network_hidden.
    rewrite (layers_shaped_length _ _ _ Hl) in Hj.
    rewrite <-(layers_shaped_length _ _ _ Hl0) in Hj.
    apply lookup_lt_is_Some in Hj as [l0 ->]. eauto.
  - rewrite lookup_Network_output. eauto.
Qed.

Lemma load_report_widths i0 o0 hs m i o hs' m0 :
  has_architecture i0 o0 hs m → has_architecture i o hs' m0 →
  length hs' = length hs →
  error_msgs (load_into m0 (Network_state_dict m)).2 = [] →
  hs' = hs.
Proof.
  intros [Hl _] [Hl0 _] Hlen. rewrite load_into_report. simpl.
  intros [He _]%app_eq_nil.
  apply (list_eq_same_length _ _ (length hs)); [done..|].
  intros j h' h Hj Hh' Hh.
  pose proof (layers_shaped_length _ _ _ Hl) as Hn.
  pose proof (layers_shaped_length _ _ _ Hl0) as Hn0.
  destruct (lookup_lt_is_Some_2 (hidden_layers m) j) as [l Hjl]; [lia|].
  destruct (lookup_lt_is_Some_2 (hidden_layers m0) j) as [l0 Hjl0]; [lia|].
  destruct (layers_shaped_lookup _ _ _ _ _ Hl Hjl) as (h1&Hh1&Hb).
  destruct (layers_shaped_lookup _ _ _ _ _ Hl0 Hjl0) as (h2&Hh2&Hb0).
  assert (size (bias l) = size (bias l0)) as Hs.
  { apply (load_layers_errors_nil _ _ 0 j l0 Bias (bias l) He Hjl0).
    simpl. change "bias" with (field_name Bias).
    by rewrite lookup_Network_hidden, Hjl. }
  rewrite Hb, Hb0 in Hs. congruence.
Qed.

Lemma load_success_widths i0 o0 hs m i o hs' m0 :
  has_architecture i0 o0 hs m → has_architecture i o hs' m0 →
  (load_state_dict m0 (Network_state_dict m)).2 = inr () →
  hs' = hs.
Proof.
  intros Hm Hm0. rewrite load_state_dict_outcome, load_outcome_ok.
  intros Hr. eapply load_report_widths; [done..| |by rewrite Hr].
  pose proof Hm as [Hl _]. pose proof Hm0 as [Hl0 _].
  pose proof (layers_shaped_length _ _ _ Hl) as Hn.
  pose proof (layers_shaped_length _ _ _ Hl0) as Hn0.
  rewrite load_into_report in Hr. injection Hr as Hmiss Hunexp _.
  apply app_eq_nil in Hmiss as [Hmiss _].
  destruct (Nat.lt_trichotomy (length hs') (length hs)) as [Hlt|[?|Hgt]];
    [exfalso|done|exfalso].
  - (* a stored layer the model does not have *)
    assert (hidden_prefix (length hs') +:+ field_name Weight
            ∈ sd_keys (Network_state_dict m)) as Hin.
    { apply elem_of_sd_keys. rewrite lookup_Network_hidden.
      destruct (lookup_lt_is_Some_2 (hidden_layers m) (length hs'))
        as [l ->]; [lia|]. eauto. }
    assert (hidden_prefix (length hs') +:+ field_name Weight
            ∈ sd_keys (Network_state_dict m0)) as Hin0.
    { destruct (decide (hidden_prefix (length hs') +:+ field_name Weight
                        ∈ sd_keys (Network_state_dict m0))); [done|].
      assert (hidden_prefix (length hs') +:+ field_name Weight ∈ @nil string)
        as ?%elem_of_nil; [|done].
      rewrite <-Hunexp. by apply list_elem_of_filter. }
    apply elem_of_sd_keys in Hin0. rewrite lookup_Network_hidden in Hin0.
    rewrite lookup_ge_None_2 in Hin0 by lia. by destruct Hin0.
  - (* a layer of the model that is not stored *)
    pose proof (load_layers_missing_nil _ _ 0 (length hs) Bias Hmiss) as Hs.
    simpl in Hs. change "bias" with (field_name Bias) in Hs.
    rewrite lookup_Network_hidden in Hs.
    rewrite lookup_ge_None_2 in Hs by lia. destruct Hs; [lia|done].
Qed.

(** *** The values a successful load leaves in the model *)

Lemma load_param_result sd key p0 :
  (load_param sd key p0).2 = ([], []) →
  sd_lookup key sd = Some (load_param sd key p0).1.
Proof.
  unfold load_param. destruct (sd_lookup key sd) as [t|]; [|done].
  case_decide; [|done]. simpl. intros _. by rewrite tensor_eta_size.
Qed.

Lemma load_Linear_result sd prefix l0 f :
  (load_Linear sd prefix l0).2 = ([], []) →
  sd_lookup (prefix +:+ field_name f) sd
  = Some (field_of f (load_Linear sd prefix l0).1).
Proof.
  unfold load_Linear.
  pose proof (load_param_result sd (prefix +:+ "weight") (weight l0)) as Hw.
  pose proof (load_param_result sd (prefix +:+ "bias") (bias l0)) as Hb.
  destruct (load_param sd (prefix +:+ "weight") (weight l0)) as [w [mw ew]].
  destruct (load_param sd (prefix +:+ "bias") (bias l0)) as [b [mb eb]].
  simpl in *. intros [= [-> ->]%app_eq_nil [-> ->]%app_eq_nil].
  destruct f; simpl; auto.
Qed.

Lemma load_layers_length sd k ls0 :
  length (load_layers sd k ls0).1 = length ls0.
Proof.
  revert k. induction ls0 as [|l0 ls0 IH]; intros k; cbn [load_layers];
    [done|].
  specialize (IH (S k)).
  destruct (load_Linear sd (hidden_prefix k) l0) as [l' [m1 e1]].
  destruct (load_layers sd (S k) ls0) as [ls' [m2 e2]].
  simpl in *. by rewrite IH.
Qed.

Lemma load_layers_result sd k ls0 j l' f :
  (load_layers sd k ls0).2 = ([], []) →
  (load_layers sd k ls0).1 !! j = Some l' →
  sd_lookup (hidden_prefix (k + j) +:+ field_name f) sd
  = Some (field_of f l').
Proof.
  revert k j. induction ls0 as [|l0 ls0 IH]; intros k j; cbn [load_layers];
    [done|].
  pose proof (load_Linear_result sd (hidden_prefix k) l0 f) as H1.
  specialize (IH (S k)).
  destruct (load_Linear sd (hidden_prefix k) l0) as [l1 [m1 e1]].
  destruct (load_layers sd (S k) ls0) as [ls' [m2 e2]].
  simpl in *. intros [= [-> ->]%app_eq_nil [-> ->]%app_eq_nil] Hj.
  destruct j as [|j]; simpl in Hj.
  - injection Hj as <-. rewrite Nat.add_0_r. by apply H1.
  - replace (k + S j) with (S k + j) by lia. by apply IH.
Qed.

Lemma sd_keys_Network key m :
  key ∈ sd_keys (Network_state_dict m) ↔
  (∃ j f, key = hidden_prefix j +:+ field_name f
          ∧ (j < length (hidden_layers m))%nat)
  ∨ (∃ f, key = "output." +:+ field_name f).
Proof.
  split; [apply sd_keys_Network_inv|].
  intros [(j&f&->&Hj)|(f&->)]; apply elem_of_sd_keys.
  - rewrite lookup_Network_hidden.
    apply lookup_lt_is_Some in Hj as [l ->]. eauto.
  - rewrite lookup_Network_output. eauto.
Qed.

Lemma load_into_model m0 sd :
  hidden_layers (load_into m0 sd).1 = (load_layers sd 0 (hidden_layers m0)).1
  ∧ output (load_into m0 sd).1 = (load_Linear sd "output." (output m0)).1
  ∧ dropout (load_into m0 sd).1 = dropout m0
  ∧ training (load_into m0 sd).1 = training m0.
Proof.
  unfold load_into.
  destruct (load_layers sd 0 (hidden_layers m0)) as [ls [m1 e1]].
  by destruct (load_Linear sd "output." (output m0)) as [out [m2 e2]].
Qed.

(** After a load without report every parameter of the model holds the
    stored value, and nothing else is stored. *)
Lemma load_into_values m0 sd key :
  (load_into m0 sd).2 = LoadReport [] [] [] →
  sd_lookup key (Network_state_dict (load_into m0 sd).1) = sd_lookup key sd.
Proof.
  rewrite load_into_report.
  intros [= [Hm1 Hm2]%app_eq_nil Hunexp [He1 He2]%app_eq_nil].
  destruct (load_into_model m0 sd) as (Hls&Hout&_&_).
  assert ((load_layers sd 0 (hidden_layers m0)).2 = ([], [])) as Hclean1.
  { destruct (load_layers sd 0 (hidden_layers m0)) as [? [? ?]].
    simpl in *. by subst. }
  assert ((load_Linear sd "output." (output m0)).2 = ([], [])) as Hclean2.
  { destruct (load_Linear sd "output." (output m0)) as [? [? ?]].
    simpl in *. by subst. }
  destruct (decide (key ∈ sd_keys (Network_state_dict (load_into m0 sd).1)))
    as [Hin|Hnot].
  - apply sd_keys_Network in Hin as [(j&f&->&Hj)|(f&->)].
    + rewrite lookup_Network_hidden.
      apply lookup_lt_is_Some in Hj as [l' Hl']. rewrite Hl'. simpl.
      rewrite Hls in Hl'. symmetry.
      by apply (load_layers_result sd 0 (hidden_layers m0) j l' f).
    + rewrite lookup_Network_output, Hout. symmetry.
      by apply load_Linear_result.
  - assert (key ∉ sd_keys sd) as Hnot'.
    { intros Hin. apply Hnot.
      assert (key ∈ sd_keys (Network_state_dict m0)) as Hown.
      { destruct (decide (key ∈ sd_keys (Network_state_dict m0))); [done|].
        assert (key ∈ @nil string) as ?%elem_of_nil; [|done].
        rewrite <-Hunexp. by apply list_elem_of_filter. }
      apply sd_keys_Network. apply sd_keys_Network in Hown.
      by rewrite Hls, load_layers_length. }
    rewrite elem_of_sd_keys in Hnot, Hnot'.
    destruct (sd_lookup key sd); [by destruct Hnot'|].
    destruct (sd_lookup key _); [by destruct Hnot|done].
Qed.

(** *** The random initial values do not survive a load *)

Lemma load_param_same_size sd key p0 p0' :
  size p0 = size p0' → (load_param sd key p0).2 = ([], []) →
  load_param sd key p0' = load_param sd key p0.
Proof.
  unfold load_param. intros Hs. rewrite Hs.
  destruct (sd_lookup key sd); [|done]. by case_decide.
Qed.

Lemma load_Linear_same_layout sd prefix l0 l0' :
  same_layout l0 l0' → (load_Linear sd prefix l0).2 = ([], []) →
  load_Linear sd prefix l0' = load_Linear sd prefix l0.
Proof.
  intros (Hi&Ho&Hw&Hb). unfold load_Linear.
  pose proof (load_param_same_size sd (prefix +:+ "weight") _ _ Hw) as H1.
  pose proof (load_param_same_size sd (prefix +:+ "bias") _ _ Hb) as H2.
  destruct (load_param sd (prefix +:+ "weight") (weight l0)) as [w [mw ew]].
  destruct (load_param sd (prefix +:+ "bias") (bias l0)) as [b [mb eb]].
  simpl in *. intros [= [-> ->]%app_eq_nil [-> ->]%app_eq_nil].
  rewrite H1, H2 by done. by rewrite Hi, Ho.
Qed.

Lemma load_layers_same_layout sd k ls0 ls0' :
  Forall2 same_layout ls0 ls0' → (load_layers sd k ls0).2 = ([], []) →
  load_layers sd k ls0' = load_layers sd k ls0.
Proof.
  intros HF. revert k. induction HF as [|l0 l0' ls0 ls0' Hl HF IH]; intros k;
    [done|].
  cbn [load_layers].
  pose proof (load_Linear_same_layout sd (hidden_prefix k) _ _ Hl) as H1.
  specialize (IH (S k)).
  destruct (load_Linear sd (hidden_prefix k) l0) as [l1 [m1 e1]].
  destruct (load_layers sd (S k) ls0) as [ls' [m2 e2]].
  simpl in *. intros [= [-> ->]%app_eq_nil [-> ->]%app_eq_nil].
  by rewrite H1, IH.
Qed.

Lemma sd_keys_layers k ls ls' :
  length ls = length ls' →
  sd_keys (layers_state_dict k ls) = sd_keys (layers_state_dict k ls').
Proof.
  unfold sd_keys. revert k ls'.
  induction ls as [|l ls IH]; intros k [|l' ls'] Hlen; simpl in *; try done.
  do 2 f_equal. apply IH. lia.
Qed.

Lemma load_into_same_layout i o hs m0 m0' sd :
  has_architecture i o hs m0 → has_architecture i o hs m0' →
  dropout m0 = dropout m0' → training m0 = training m0' →
  (load_into m0 sd).2 = LoadReport [] [] [] →
  load_into m0' sd = load_into m0 sd.
Proof.
  intros [Hl Ho] [Hl' Ho'] Hd Ht. rewrite load_into_report.
  intros [= [Hm1 Hm2]%app_eq_nil Hunexp [He1 He2]%app_eq_nil].
  unfold load_into.
  rewrite (load_layers_same_layout sd 0 (hidden_layers m0) (hidden_layers m0')).
  2:{ by eapply layers_shaped_layout. }
  2:{ destruct (load_layers sd 0 (hidden_layers m0)) as [? [? ?]].
      simpl in *. by subst. }
  rewrite (load_Linear_same_layout sd "output." (output m0) (output m0')).
  2:{ destruct Ho as (Hi0&Hf0&Hw0&Hb0), Ho' as (Hi&Hf&Hw&Hb).
      unfold same_layout. by rewrite Hi0, Hf0, Hw0, Hb0, Hi, Hf, Hw, Hb. }
  2:{ destruct (load_Linear sd "output." (output m0)) as [? [? ?]].
      simpl in *. by subst. }
  assert (sd_keys (Network_state_dict m0') = sd_keys (Network_state_dict m0))
    as ->.
  { unfold Network_state_dict, sd_keys. rewrite !fmap_app. f_equal.
    apply sd_keys_layers.
    by rewrite (layers_shaped_length _ _ _ Hl), (layers_shaped_length _ _ _ Hl'). }
  by rewrite Hd, Ht.
Qed.

(** *** Forward passes *)

Lemma dot_zero n x : dot (replicate n 0%R) x = 0%R.
Proof.
  unfold dot. revert x. induction n as [|n IH]; intros [|v x]; try done.
  cbn [replicate zip_with foldr]. rewrite IH. lra.
Qed.

Lemma rows_zero o i : rows o i (replicate (o * i) 0%R) = replicate o (replicate i 0%R).
Proof.
  induction o as [|o IH]; [done|].
  cbn [rows Nat.mul replicate]. rewrite replicate_add.
  rewrite take_app_length' by (by rewrite length_replicate).
  rewrite drop_app_length' by (by rewrite length_replicate).
  by rewrite IH.
Qed.

Lemma zip_plus_zero (b : list R) :
  zip_with Rplus (replicate (length b) 0%R) b = b.
Proof.
  induction b as [|v b IH]; [done|].
  cbn [length replicate zip_with]. rewrite IH. f_equal. lra.
Qed.

Lemma Linear_forward_zero_weights i o b x :
  length b = o → Linear_forward (Linear_zero_weights i o b) x = b.
Proof.
  intros <-. unfold Linear_forward, Linear_zero_weights. simpl.
  rewrite rows_zero, fmap_replicate, dot_zero. apply zip_plus_zero.
Qed.

Lemma hidden_forward_eval d1 d2 keep1 keep2 k ls x :
  hidden_forward d1 false keep1 k ls x = hidden_forward d2 false keep2 k ls x.
Proof.
  revert k x. induction ls as [|l ls IH]; intros k x; [done|].
  cbn [hidden_forward]. unfold Dropout_forward. apply IH.
Qed.

Lemma forward_eval m keep keep' x :
  forward (eval m) keep x = forward (eval m) keep' x.
Proof.
  unfold forward, eval. simpl. do 2 f_equal. apply hidden_forward_eval.
Qed.

End LoadFacts.

(** ** Saving and loading checkpoints *)

Module Part6Facts.
Import Torch FcModel Part6 LoadFacts.

(** *** Checkpoints *)

Lemma checkpoint_lookup m :
  checkpoint m !! "input_size" = Some (VInt 784)
  ∧ checkpoint m !! "output_size" = Some (VInt 10)
  ∧ checkpoint m !! "hidden_layers" = Some (VIntList (widths m))
  ∧ checkpoint m !! "state_dict" = Some (VStateDict (Network_state_dict m)).
Proof. unfold checkpoint, widths. repeat split; by simplify_map_eq. Qed.

Lemma checkpoint_dom m :
  dom (checkpoint m)
  = ({[ "input_size"; "output_size"; "hidden_layers"; "state_dict" ]}
     : gset string).
Proof. unfold checkpoint. rewrite !dom_insert_L, dom_singleton_L. set_solver. Qed.

Lemma load_checkpoint_items path fs obj i o hs sd g :
  torch_load path fs = inr obj →
  getitem obj "input_size" = inr (VInt i) →
  getitem obj "output_size" = inr (VInt o) →
  getitem obj "hidden_layers" = inr (VIntList hs) →
  getitem obj "state_dict" = inr (VStateDict sd) →
  load_checkpoint path fs g
  = match load_state_dict (Network_init i o hs g) sd with
    | (m', inr _) => inr m'
    | (_, inl e) => inl e
    end.
Proof.
  intros E0 E1 E2 E3 E4. unfold load_checkpoint.
  rewrite E0. simpl. rewrite E1. simpl. rewrite E2. simpl. rewrite E3. simpl.
  by rewrite E4.
Qed.

Lemma load_checkpoint_inv path fs g m :
  load_checkpoint path fs g = inr m →
  ∃ obj i o hs sd,
    torch_load path fs = inr obj
    ∧ getitem obj "input_size" = inr (VInt i)
    ∧ getitem obj "output_size" = inr (VInt o)
    ∧ getitem obj "hidden_layers" = inr (VIntList hs)
    ∧ getitem obj "state_dict" = inr (VStateDict sd)
    ∧ load_state_dict (Network_init i o hs g) sd = (m, inr ()).
Proof.
  unfold load_checkpoint.
  destruct (torch_load path fs) as [e|obj] eqn:E0; [done|]. simpl.
  destruct (getitem obj "input_size") as [e|[i| | |]] eqn:E1; try done. simpl.
  destruct (getitem obj "output_size") as [e|[o| | |]] eqn:E2; try done. simpl.
  destruct (getitem obj "hidden_layers") as [e|[|hs | |]] eqn:E3; try done.
  simpl.
  destruct (getitem obj "state_dict") as [e|[| | |sd]] eqn:E4; try done. simpl.
  destruct (load_state_dict (Network_init i o hs g) sd) as [m' [e|[]]] eqn:E;
    [done|].
  intros [= ->]. by exists obj, i, o, hs, sd.
Qed.

Lemma load_saved_checkpoint m fs g :
  load_checkpoint "checkpoint.pth" (save_checkpoint m fs) g
  = match load_state_dict (Network_init 784 10 (widths m) g)
            (Network_state_dict m) with
    | (m', inr _) => inr m'
    | (_, inl e) => inl e
    end.
Proof.
  destruct (checkpoint_lookup m) as (E1&E2&E3&E4).
  apply (load_checkpoint_items _ _ (ObjDict (checkpoint m))).
  - unfold torch_load, save_checkpoint, torch_save. by rewrite lookup_insert_eq.
  - simpl. by rewrite E1.
  - simpl. by rewrite E2.
  - simpl. by rewrite E3.
  - simpl. by rewrite E4.
Qed.

Lemma load_state_dict_same_architecture i o hs m g :
  has_architecture i o hs m →
  load_state_dict (Network_init i o hs g) (Network_state_dict m)
  = ({| hidden_layers := hidden_layers m; output := output m;
        dropout := {| p := 0.5 |}; training := true |}, inr ()).
Proof.
  intros Hm. unfold load_state_dict.
  rewrite (load_into_same_architecture i o hs) by
    (done || apply Network_init_architecture).
  destruct (Network_init_mode i o hs g) as [-> ->]. done.
Qed.

(** A checkpoint saved from a model [784 -> hs -> 10] loads back into the
    layers of that model, in training mode and with the dropout rate of the
    constructor. *)
Lemma saved_checkpoint_loads hs m (fs : filesystem) g :
  has_architecture 784 10 hs m →
  load_checkpoint "checkpoint.pth" (save_checkpoint m fs) g
  = inr {| hidden_layers := hidden_layers m; output := output m;
           dropout := {| p := 0.5 |}; training := true |}.
Proof.
  intros Hm. pose proof Hm as [Hl _].
  rewrite load_saved_checkpoint. unfold widths.
  rewrite (layers_shaped_widths _ _ _ Hl).
  by rewrite (load_state_dict_same_architecture 784 10 hs m g Hm).
Qed.

(** The logits of [dropout_demo] differ by the kept or dropped hidden unit. *)
Lemma dropout_demo_forward keep x :
  ∃ c, forward dropout_demo keep x
       = (λ v, v - c)%R
         <$> ((if keep 0%nat 0%nat then 2 else 0)%R :: replicate 9 0%R).
Proof.
  unfold forward, dropout_demo. cbn [hidden_layers output dropout training].
  cbn [hidden_forward].
  rewrite (Linear_forward_zero_weights 784 1 [1%R]) by done.
  unfold log_softmax. eexists. f_equal.
  unfold relu, Dropout_forward, Linear_forward, dot. simpl.
  assert (Rmax 0 1 = 1%R) as -> by (unfold Rmax; destruct (Rle_dec 0 1); lra).
  destruct (keep 0 0); repeat (f_equal; try lra).
Qed.

Lemma dropout_demo_draws x :
  forward dropout_demo (λ _ _, true) x ≠ forward dropout_demo (λ _ _, false) x.
Proof.
  destruct (dropout_demo_forward (λ _ _, true) x) as [c1 ->].
  destruct (dropout_demo_forward (λ _ _, false) x) as [c2 ->].
  simpl. intros [= H0 H1]. lra.
Qed.

Lemma dropout_demo_architecture : has_architecture 784 10 [1] dropout_demo.
Proof. vm_compute. by repeat split. Qed.

(** The parameter names and sizes of [Network(784, 10, [3, 2, 2])], in the
    order of the state dict the notebook prints. *)
Example state_dict_keys :
  sd_keys (Network_state_dict (Network_init 784 10 [3; 2; 2] zero_rng))
  = ["hidden_layers.0.weight"; "hidden_layers.0.bias";
     "hidden_layers.1.weight"; "hidden_layers.1.bias";
     "hidden_layers.2.weight"; "hidden_layers.2.bias";
     "output.weight"; "output.bias"].
Proof. by vm_compute. Qed.

Example state_dict_sizes :
  size <$> (Network_state_dict (Network_init 784 10 [3; 2; 2] zero_rng)).*2
  = [[3; 784]; [3]; [2; 3]; [2]; [2; 2]; [2]; [10; 2]; [10]].
Proof. by vm_compute. Qed.

(** *** What the report of a load lists *)

Lemma layers_shaped_sizes i hs ls j l :
  layers_shaped i hs ls → ls !! j = Some l →
  ∃ h, hs !! j = Some h
       ∧ size (weight l) = [h; List.last (take j hs) i]
       ∧ size (bias l) = [h].
Proof.
  revert i ls j. induction hs as [|h hs IH]; intros i [|l' ls] j; simpl;
    try done.
  intros [(_&_&Hw&Hb) H] Hj. destruct j as [|j]; simpl in Hj.
  - injection Hj as ->. exists h. by rewrite take_0.
  - destruct (IH _ _ _ H Hj) as (h'&Hh'&Hw'&Hb'). exists h'.
    split_and!; [done| |done].
    rewrite firstn_cons, last_cons_default. done.
Qed.

Lemma sd_keys_layers_names k ls :
  sd_keys (layers_state_dict k ls) = layer_names k (length ls).
Proof.
  unfold sd_keys, layer_names. revert k.
  induction ls as [|l ls IH]; intros k; [done|].
  cbn [layers_state_dict length seq]. rewrite fmap_app, IH. done.
Qed.

Lemma layer_names_nil k n : layer_names k n = [] ↔ n = 0.
Proof. unfold layer_names. by destruct n. Qed.

Lemma load_param_missing sd key p0 :
  (load_param sd key p0).2.1
  = match sd_lookup key sd with Some _ => [] | None => [key] end.
Proof.
  unfold load_param. destruct (sd_lookup key sd); [|done]. by case_decide.
Qed.

Lemma load_Linear_missing sd prefix l0 :
  (load_Linear sd prefix l0).2.1
  = match sd_lookup (prefix +:+ "weight") sd with
    | Some _ => []
    | None => [prefix +:+ "weight"]
    end
    ++ match sd_lookup (prefix +:+ "bias") sd with
       | Some _ => []
       | None => [prefix +:+ "bias"]
       end.
Proof.
  unfold load_Linear.
  rewrite <-(load_param_missing sd _ (weight l0)).
  rewrite <-(load_param_missing sd _ (bias l0)).
  destruct (load_param sd (prefix +:+ "weight") (weight l0)) as [w [mw ew]].
  by destruct (load_param sd (prefix +:+ "bias") (bias l0)) as [b [mb eb]].
Qed.

(** Of a stack of layers loaded from the state dict of [m], the missing
    names are those of the layers [m] does not have. *)
Lemma load_layers_missing m k ls0 :
  (load_layers (Network_state_dict m) k ls0).2.1
  = layer_names (k `max` length (hidden_layers m))
      (length ls0 - (length (hidden_layers m) - k)).
Proof.
  revert k. induction ls0 as [|l0 ls0 IH]; intros k.
  - unfold layer_names. done.
  - cbn [load_layers].
    pose proof (load_Linear_missing (Network_state_dict m) (hidden_prefix k)
                  l0) as H1.
    specialize (IH (S k)).
    destruct (load_Linear _ (hidden_prefix k) l0) as [l' [m1 e1]].
    destruct (load_layers _ (S k) ls0) as [ls' [m2 e2]].
    cbn [fst snd] in *. rewrite H1, IH. clear H1 IH.
    change "weight" with (field_name Weight).
    change "bias" with (field_name Bias).
    rewrite !lookup_Network_hidden.
    destruct (decide (k < length (hidden_layers m))) as [Hk|Hk].
    + apply lookup_lt_is_Some in Hk as Hl. destruct Hl as [l ->]. simpl.
      f_equal; [lia|]. simpl. lia.
    + rewrite lookup_ge_None_2 by lia. simpl.
      replace (k `max` length (hidden_layers m)) with k by lia.
      replace (S k `max` length (hidden_layers m)) with (S k) by lia.
      replace (length (hidden_layers m) - k) with 0 by lia.
      replace (length (hidden_layers m) - S k) with 0 by lia.
      rewrite !Nat.sub_0_r. done.
Qed.

(** Of the names stored for a stack of layers, the unexpected ones are
    those of the layers the model does not have. *)
Lemma unexpected_layers m0 k ls :
  filter (λ key, key ∉ sd_keys (Network_state_dict m0))
    (sd_keys (layers_state_dict k ls))
  = layer_names (k `max` length (hidden_layers m0))
      (length ls - (length (hidden_layers m0) - k)).
Proof.
  revert k. induction ls as [|l ls IH]; intros k; [done|].
  cbn [layers_state_dict]. unfold sd_keys in *. rewrite fmap_app, filter_app.
  rewrite IH. clear IH. unfold Linear_state_dict. simpl fmap.
  assert (∀ f, hidden_prefix k +:+ field_name f
               ∈ (Network_state_dict m0).*1
               ↔ k < length (hidden_layers m0)) as Hown.
  { intros f. rewrite (sd_keys_Network _ m0). split.
    - intros [(j&f'&Hk&Hj)|(f'&Hk)].
      + apply key_inj in Hk as [Hk%hidden_prefix_inj _]. by subst.
      + by apply hidden_ne_output in Hk.
    - intros Hk. left. by exists k, f. }
  destruct (decide (k < length (hidden_layers m0))) as [Hk|Hk].
  - rewrite filter_cons_False by (intros H; apply H; by apply (Hown Weight)).
    rewrite filter_cons_False by (intros H; apply H; by apply (Hown Bias)).
    rewrite filter_nil. simpl. f_equal; [lia|]. simpl. lia.
  - rewrite filter_cons_True by (by intros ?%(Hown Weight)).
    rewrite filter_cons_True by (by intros ?%(Hown Bias)).
    rewrite filter_nil.
    replace (k `max` length (hidden_layers m0)) with k by lia.
    replace (S k `max` length (hidden_layers m0)) with (S k) by lia.
    replace (length (hidden_layers m0) - k) with 0 by lia.
    replace (length (hidden_layers m0) - S k) with 0 by lia.
    rewrite !Nat.sub_0_r. done.
Qed.

(** The names the report of [load_state_dict] lists. *)
Lemma load_into_names m0 m :
  missing_keys (load_into m0 (Network_state_dict m)).2
  = layer_names (length (hidden_layers m))
      (length (hidden_layers m0) - length (hidden_layers m))
  ∧ unexpected_keys (load_into m0 (Network_state_dict m)).2
    = layer_names (length (hidden_layers m0))
        (length (hidden_layers m) - length (hidden_layers m0)).
Proof.
  rewrite load_into_report. cbn [missing_keys unexpected_keys]. split.
  - rewrite load_layers_missing, load_Linear_missing.
    change "weight" with (field_name Weight).
    change "bias" with (field_name Bias).
    rewrite !lookup_Network_output, app_nil_r. f_equal; lia.
  - assert (sd_keys (Network_state_dict m)
            = sd_keys (layers_state_dict 0 (hidden_layers m))
              ++ sd_keys (Linear_state_dict "output." (output m))) as ->.
    { unfold Network_state_dict, sd_keys. by rewrite fmap_app. }
    rewrite filter_app, unexpected_layers.
    change (sd_keys (Linear_state_dict "output." (output m)))
      with ["output." +:+ field_name Weight; "output." +:+ field_name Bias].
    rewrite filter_cons_False.
    2:{ intros H. apply H. apply sd_keys_Network. right. by exists Weight. }
    rewrite filter_cons_False.
    2:{ intros H. apply H. apply sd_keys_Network. right. by exists Bias. }
    rewrite filter_nil, app_nil_r. f_equal; lia.
Qed.

Lemma load_param_errors sd key p0 :
  (load_param sd key p0).2.2 = []
  ↔ ∀ t, sd_lookup key sd = Some t → size t = size p0.
Proof.
  unfold load_param. destruct (sd_lookup key sd) as [t|]; [|done].
  destruct (decide (size t = size p0)) as [Hs|Hs]; simpl; split; try done.
  - by intros _ t' [= <-].
  - intros Ht. by specialize (Ht t eq_refl).
Qed.

Lemma load_Linear_errors sd prefix l0 :
  (load_Linear sd prefix l0).2.2 = []
  ↔ ∀ f t, sd_lookup (prefix +:+ field_name f) sd = Some t →
           size t = size (field_of f l0).
Proof.
  split.
  - intros H f t. by apply load_Linear_errors_nil.
  - intros H. unfold load_Linear.
    pose proof (proj2 (load_param_errors sd _ (weight l0)) (H Weight)) as Hw.
    pose proof (proj2 (load_param_errors sd _ (bias l0)) (H Bias)) as Hb.
    simpl in Hw, Hb.
    destruct (load_param sd (prefix +:+ "weight") (weight l0)) as [w [mw ew]].
    destruct (load_param sd (prefix +:+ "bias") (bias l0)) as [b [mb eb]].
    simpl in *. by subst.
Qed.

Lemma load_layers_errors sd k ls0 :
  (load_layers sd k ls0).2.2 = []
  ↔ ∀ j l0 f t, ls0 !! j = Some l0 →
      sd_lookup (hidden_prefix (k + j) +:+ field_name f) sd = Some t →
      size t = size (field_of f l0).
Proof.
  split.
  - intros H j l0 f t. by apply load_layers_errors_nil.
  - revert k. induction ls0 as [|l0 ls0 IH]; intros k H; [done|].
    cbn [load_layers].
    assert ((load_Linear sd (hidden_prefix k) l0).2.2 = []) as H1.
    { apply load_Linear_errors. intros f t. specialize (H 0 l0 f t).
      rewrite Nat.add_0_r in H. by apply H. }
    assert ((load_layers sd (S k) ls0).2.2 = []) as H2.
    { apply IH. intros j l f t Hj. replace (S k + j) with (k + S j) by lia.
      by apply H. }
    destruct (load_Linear sd (hidden_prefix k) l0) as [l' [m1 e1]].
    destruct (load_layers sd (S k) ls0) as [ls' [m2 e2]].
    simpl in *. by subst.
Qed.

Lemma last_take_S (hs : list nat) j h d :
  hs !! j = Some h → List.last (take (S j) hs) d = h.
Proof.
  revert j d. induction hs as [|x hs IH]; intros j d Hj; [done|].
  destruct j as [|j].
  - by injection Hj as ->.
  - change (hs !! j = Some h) in Hj.
    destruct hs as [|y hs]; [done|].
    change (List.last (take (S j) (y :: hs)) d = h). by apply IH.
Qed.

(** No size mismatch is reported exactly when the two architectures agree
    on the sizes of the parameters both have. *)
Lemma load_into_errors i0 o0 hs m i o hs' m0 :
  has_architecture i0 o0 hs m → has_architecture i o hs' m0 →
  error_msgs (load_into m0 (Network_state_dict m)).2 = []
  ↔ sizes_agree i0 o0 hs i o hs'.
Proof.
  intros [Hl Ho] [Hl0 Ho0]. rewrite load_into_report.
  cbn [error_msgs].
  pose proof (layers_shaped_length _ _ _ Hl) as Hn.
  pose proof (layers_shaped_length _ _ _ Hl0) as Hn0.
  destruct Ho as (_&_&Hw&Hb), Ho0 as (_&_&Hw0&Hb0).
  split.
  - intros [Hh Hout]%app_eq_nil. unfold sizes_agree.
    pose proof (proj1 (load_layers_errors _ _ _) Hh) as Hh'.
    pose proof (proj1 (load_Linear_errors _ _ _) Hout) as Hout'.
    clear Hh Hout. rename Hh' into Hh. rename Hout' into Hout.
    pose proof (Hout Weight _ (lookup_Network_output Weight m)) as Hsw.
    pose proof (Hout Bias _ (lookup_Network_output Bias m)) as Hsb.
    simpl in Hsw, Hsb. rewrite Hw, Hw0 in Hsw. rewrite Hb, Hb0 in Hsb.
    split_and!; [|congruence..|].
    + intros j h h' Hj Hj'.
      destruct (lookup_lt_is_Some_2 (hidden_layers m) j) as [l Hjl].
      { rewrite Hn. by eapply lookup_lt_Some. }
      destruct (lookup_lt_is_Some_2 (hidden_layers m0) j) as [l0 Hjl0].
      { rewrite Hn0. by eapply lookup_lt_Some. }
      destruct (layers_shaped_sizes _ _ _ _ _ Hl Hjl) as (h1&Hh1&_&Hb1).
      destruct (layers_shaped_sizes _ _ _ _ _ Hl0 Hjl0) as (h2&Hh2&_&Hb2).
      specialize (Hh j l0 Bias (bias l) Hjl0). change (0 + j) with j in Hh.
      rewrite lookup_Network_hidden, Hjl in Hh. specialize (Hh eq_refl).
      simpl in Hh. rewrite Hb1, Hb2 in Hh. congruence.
    + intros Hne Hne'.
      destruct (hidden_layers m) as [|l ls] eqn:El;
        [by destruct hs|].
      destruct (hidden_layers m0) as [|l0 ls0] eqn:El0;
        [by destruct hs'|].
      specialize (Hh 0 l0 Weight (weight l) eq_refl).
      change (0 + 0) with 0 in Hh.
      rewrite lookup_Network_hidden, El in Hh. specialize (Hh eq_refl).
      destruct hs as [|h hs]; [done|]. destruct hs' as [|h' hs']; [done|].
      destruct Hl as [(_&_&Hw1&_) _], Hl0 as [(_&_&Hw2&_) _].
      simpl in Hh. rewrite Hw1, Hw2 in Hh. congruence.
  - intros (Hcommon&Hlast&Hoo&Hii).
    assert ((load_layers (Network_state_dict m) 0 (hidden_layers m0)).2.2 = []
            ∧ (load_Linear (Network_state_dict m) "output." (output m0)).2.2
              = []) as [-> ->]; [|done].
    split; [apply (proj2 (load_layers_errors _ _ _))
           |apply (proj2 (load_Linear_errors _ _ _))].
    + intros j l0 f t Hjl0. change (0 + j) with j.
      rewrite lookup_Network_hidden.
      destruct (hidden_layers m !! j) as [l|] eqn:Hjl; [|done].
      intros [= <-].
      destruct (layers_shaped_sizes _ _ _ _ _ Hl Hjl) as (h1&Hh1&Hw1&Hb1).
      destruct (layers_shaped_sizes _ _ _ _ _ Hl0 Hjl0) as (h2&Hh2&Hw2&Hb2).
      pose proof (Hcommon _ _ _ Hh1 Hh2) as ->.
      destruct f; simpl; [|congruence].
      rewrite Hw1, Hw2. f_equal. f_equal.
      destruct j as [|j].
      * rewrite !take_0. simpl. apply Hii.
        -- intros ->. done.
        -- intros ->. done.
      * assert (j < length hs) as Hj by (apply lookup_lt_Some in Hh1; lia).
        assert (j < length hs') as Hj' by (apply lookup_lt_Some in Hh2; lia).
        apply lookup_lt_is_Some_2 in Hj as [x Hx].
        apply lookup_lt_is_Some_2 in Hj' as [x' Hx'].
        rewrite (last_take_S _ _ _ _ Hx), (last_take_S _ _ _ _ Hx').
        by eapply Hcommon.
    + intros f t. rewrite lookup_Network_output. intros [= <-].
      destruct f; simpl; congruence.
Qed.

Lemma sizes_agree_same_length i0 o0 hs i o hs' :
  sizes_agree i0 o0 hs i o hs' → length hs' = length hs → hs' = hs.
Proof.
  intros (Hcommon&_) Hlen.
  apply (list_eq_same_length _ _ (length hs)); [done..|].
  intros j h' h Hj Hh' Hh. symmetry. by eapply Hcommon.
Qed.

(** Loading into a model built with other widths raises, with a size
    mismatch when the two lists of widths are equally long. *)
Lemma load_other_widths_raises i0 o0 hs m i o hs' g :
  has_architecture i0 o0 hs m → hs' ≠ hs →
  ∃ r, (load_state_dict (Network_init i o hs' g) (Network_state_dict m)).2
       = inl (RuntimeError_load_state_dict r)
    ∧ (length hs' = length hs → error_msgs r ≠ []).
Proof.
  intros Hm Hne.
  pose proof (Network_init_architecture i o hs' g) as Hm0.
  rewrite load_state_dict_outcome.
  exists (load_into (Network_init i o hs' g) (Network_state_dict m)).2.
  split.
  - apply load_outcome_raise. intros Hr. apply Hne.
    apply (load_success_widths i0 o0 hs m i o hs' _ Hm Hm0).
    rewrite load_state_dict_outcome. by apply load_outcome_ok.
  - intros Hlen He. apply Hne.
    by apply (load_report_widths i0 o0 hs m i o hs'
                (Network_init i o hs' g)).
Qed.

(** The cell of the notebook that loads the state dict of the trained model
    [784 -> 512, 256, 128 -> 10] into a model with the hidden widths
    [400, 200, 100] raises with size mismatches, as the notebook records. *)
Lemma try_this_raises m g :
  has_architecture 784 10 [512; 256; 128] m →
  ∃ r, (try_this (Network_state_dict m) g).2
       = inl (RuntimeError_load_state_dict r)
    ∧ error_msgs r ≠ [].
Proof.
  intros Hm.
  destruct (load_other_widths_raises 784 10 [512; 256; 128] m
              784 10 [400; 200; 100] g Hm) as (r&Hr&He).
  { intros [=]. }
  exists r. split; [exact Hr|]. by apply He.
Qed.

(** ** The claims about saving and loading *)

(** C1 (amended): a state dict saved from a model with hidden widths [hs],
    loaded into a model constructed with other widths [hs'], always raises
    the [load_state_dict] error, whose report is the one described here, and
    never succeeds silently.  The report lists as missing exactly the
    parameter names of the hidden layers the model has beyond those stored
    (some, when [hs'] is longer), as unexpected exactly the names of the
    hidden layers stored beyond those of the model (some, when [hs] is
    longer), and a size mismatch unless the two architectures agree on the
    width of every hidden layer both have, on the width that feeds the
    output layer, on the output size and, when both have a hidden layer, on
    the input size; so it always lists a size mismatch when the two lists
    of widths are different and equally long.  The same error is raised
    inside [load_checkpoint], and loading succeeds only when the widths are
    equal. *)
Theorem load_state_dict_other_widths i0 o0 hs m i o hs' g :
  has_architecture i0 o0 hs m →
  let model := Network_init i o hs' g in
  let outcome := (load_state_dict model (Network_state_dict m)).2 in
  let r := (load_into model (Network_state_dict m)).2 in
  (hs' ≠ hs → outcome = inl (RuntimeError_load_state_dict r))
  ∧ missing_keys r = layer_names (length hs) (length hs' - length hs)
  ∧ (length hs < length hs' → missing_keys r ≠ [])
  ∧ unexpected_keys r = layer_names (length hs') (length hs - length hs')
  ∧ (length hs' < length hs → unexpected_keys r ≠ [])
  ∧ (error_msgs r = [] ↔ sizes_agree i0 o0 hs i o hs')
  ∧ (hs' ≠ hs → length hs' = length hs → error_msgs r ≠ [])
  ∧ (hs' ≠ hs →
     ∀ path (fs : filesystem) d,
       fs !! path = Some (ObjDict d) →
       d !! "input_size" = Some (VInt i) →
       d !! "output_size" = Some (VInt o) →
       d !! "hidden_layers" = Some (VIntList hs') →
       d !! "state_dict" = Some (VStateDict (Network_state_dict m)) →
       load_checkpoint path fs g = inl (RuntimeError_load_state_dict r))
  ∧ (outcome = inr () → hs' = hs).
Proof.
  intros Hm model outcome r.
  pose proof (Network_init_architecture i o hs' g) as Hm0.
  fold model in Hm0.
  pose proof Hm as [Hl _]. pose proof Hm0 as [Hl0 _].
  pose proof (layers_shaped_length _ _ _ Hl) as Hn.
  pose proof (layers_shaped_length _ _ _ Hl0) as Hn0.
  destruct (load_into_names model m) as [Hmiss Hunexp].
  fold r in Hmiss, Hunexp. rewrite Hn, Hn0 in Hmiss, Hunexp.
  assert (hs' ≠ hs → outcome = inl (RuntimeError_load_state_dict r))
    as Hraise.
  { intros Hne. unfold outcome. rewrite load_state_dict_outcome.
    apply load_outcome_raise. intros Hr. apply Hne.
    apply (load_success_widths i0 o0 hs m i o hs' _ Hm Hm0).
    rewrite load_state_dict_outcome. by apply load_outcome_ok. }
  split; [exact Hraise|]. split; [exact Hmiss|]. split.
  { intros Hlt. rewrite Hmiss. intros E%layer_names_nil. lia. }
  split; [exact Hunexp|]. split.
  { intros Hlt. rewrite Hunexp. intros E%layer_names_nil. lia. }
  split; [by apply load_into_errors|]. split.
  { intros Hne Hlen He. apply Hne.
    by apply (load_report_widths i0 o0 hs m i o hs' model). }
  split.
  - intros Hne path fs d E0 E1 E2 E3 E4.
    rewrite (load_checkpoint_items path fs (ObjDict d) i o hs'
               (Network_state_dict m)).
    + specialize (Hraise Hne). unfold outcome in Hraise. fold model.
      destruct (load_state_dict _ _) as [m' [e|[]]]; simpl in Hraise;
        congruence.
    + unfold torch_load. by rewrite E0.
    + simpl. by rewrite E1.
    + simpl. by rewrite E2.
    + simpl. by rewrite E3.
    + simpl. by rewrite E4.
  - by apply (load_success_widths i0 o0 hs m i o hs' _ Hm).
Qed.

Lemma load_state_dict_other_widths_witness :
  let m := Network_init 784 10 [2] zero_rng in
  let model := Network_init 784 10 [3; 2] zero_rng in
  let r := (load_into model (Network_state_dict m)).2 in
  has_architecture 784 10 [2] m
  ∧ (load_state_dict model (Network_state_dict m)).2
    = inl (RuntimeError_load_state_dict r)
  ∧ missing_keys r = ["hidden_layers.1.weight"; "hidden_layers.1.bias"]
  ∧ unexpected_keys r = []
  ∧ error_msgs r ≠ [].
Proof.
  intros m model r.
  assert (has_architecture 784 10 [2] m) as Hm
    by (vm_compute; by repeat split).
  split; [exact Hm|].
  destruct (load_state_dict_other_widths 784 10 [2] m 784 10 [3; 2]
              zero_rng Hm) as (Hraise&Hmiss&_&Hunexp&_&Herr&_).
  split; [by apply Hraise|]. split; [exact Hmiss|].
  split; [exact Hunexp|].
  intros He. apply (proj1 Herr) in He. destruct He as (Hcommon&_).
  by specialize (Hcommon 0 2 3 eq_refl eq_refl).
Defined.

(** The claim C1 as it is stated fails for a model with one more hidden
    layer of the width of the last stored one: the widths differ, every
    stored tensor fits, and the error raised only names the parameters that
    are missing; it is not a size mismatch. *)
Lemma load_state_dict_longer_widths_counterexample :
  has_architecture 784 10 [2] (Network_init 784 10 [2] zero_rng)
  ∧ [2; 2] ≠ [2]
  ∧ (load_state_dict (Network_init 784 10 [2; 2] zero_rng)
       (Network_state_dict (Network_init 784 10 [2] zero_rng))).2
    = inl (RuntimeError_load_state_dict
             (LoadReport ["hidden_layers.1.weight"; "hidden_layers.1.bias"]
                [] []))
  ∧ ¬ ∃ e,
        (load_state_dict (Network_init 784 10 [2; 2] zero_rng)
           (Network_state_dict (Network_init 784 10 [2] zero_rng))).2 = inl e
        ∧ is_size_mismatch e.
Proof.
  assert ((load_state_dict (Network_init 784 10 [2; 2] zero_rng)
             (Network_state_dict (Network_init 784 10 [2] zero_rng))).2
          = inl (RuntimeError_load_state_dict
                   (LoadReport
                      ["hidden_layers.1.weight"; "hidden_layers.1.bias"]
                      [] []))) as E by (by vm_compute).
  split; [vm_compute; by repeat split|].
  split; [done|]. split; [exact E|].
  rewrite E. intros (e&[= <-]&He). by apply He.
Qed.

(** C2: a checkpoint saved from a model [784 -> hs -> 10] and loaded back
    by [load_checkpoint] gives a model with the same parameter values and
    the same predictions; it is the saved model put in training mode, when
    that one has the dropout rate of the constructor. *)
Theorem checkpoint_round_trip hs m (fs : filesystem) g :
  has_architecture 784 10 hs m →
  ∃ m', load_checkpoint "checkpoint.pth" (save_checkpoint m fs) g = inr m'
    ∧ Network_state_dict m' = Network_state_dict m
    ∧ (∀ keep keep' x, predict m' keep x = predict m keep' x)
    ∧ (dropout m = {| p := 0.5 |} → m' = train m).
Proof.
  intros Hm. rewrite (saved_checkpoint_loads hs m fs g Hm).
  eexists. split; [reflexivity|]. split; [done|]. split.
  - intros keep keep' x. unfold predict, forward, eval. simpl.
    do 3 f_equal. apply hidden_forward_eval.
  - intros Hd. unfold train. by rewrite Hd.
Qed.

Lemma checkpoint_round_trip_witness :
  has_architecture 784 10 [1] dropout_demo
  ∧ ∃ m', load_checkpoint "checkpoint.pth" (save_checkpoint dropout_demo ∅)
            zero_rng = inr m'
      ∧ Network_state_dict m' = Network_state_dict dropout_demo.
Proof.
  assert (has_architecture 784 10 [1] dropout_demo) as Hm
    by (vm_compute; by repeat split).
  split; [exact Hm|].
  destruct (checkpoint_round_trip [1] dropout_demo ∅ zero_rng Hm)
    as (m'&E&Hsd&_).
  by exists m'.
Defined.

(** C3: [load_checkpoint] builds a fresh, randomly initialised model from
    the three dimensions stored in the checkpoint and loads the stored
    parameter mapping into it; after a successful load every parameter holds
    the stored value and nothing of the random initial values is left; the
    checkpoint the notebook builds has exactly the four entries. *)
Theorem load_checkpoint_reconstructs path (fs : filesystem) d i o hs sd g :
  fs !! path = Some (ObjDict d) →
  d !! "input_size" = Some (VInt i) →
  d !! "output_size" = Some (VInt o) →
  d !! "hidden_layers" = Some (VIntList hs) →
  d !! "state_dict" = Some (VStateDict sd) →
  load_checkpoint path fs g
  = match load_state_dict (Network_init i o hs g) sd with
    | (m', inr _) => inr m'
    | (_, inl e) => inl e
    end
  ∧ (∀ m', load_checkpoint path fs g = inr m' →
       (∀ key, sd_lookup key (Network_state_dict m') = sd_lookup key sd)
       ∧ (∀ g', load_checkpoint path fs g' = inr m'))
  ∧ (∀ model,
       dom (checkpoint model)
       = ({[ "input_size"; "output_size"; "hidden_layers"; "state_dict" ]}
          : gset string)).
Proof.
  intros E0 E1 E2 E3 E4.
  assert (∀ g', load_checkpoint path fs g'
    = match load_state_dict (Network_init i o hs g') sd with
      | (m', inr _) => inr m'
      | (_, inl e) => inl e
      end) as Hload.
  { intros g'. apply (load_checkpoint_items path fs (ObjDict d)).
    - unfold torch_load. by rewrite E0.
    - simpl. by rewrite E1.
    - simpl. by rewrite E2.
    - simpl. by rewrite E3.
    - simpl. by rewrite E4. }
  split; [apply Hload|]. split; [|apply checkpoint_dom].
  intros m'. rewrite !Hload. unfold load_state_dict.
  destruct (load_into (Network_init i o hs g) sd) as [m1 r] eqn:E.
  destruct (load_outcome r) as [e|[]] eqn:Er; [done|].
  intros [= ->]. apply load_outcome_ok in Er as ->.
  split.
  - intros key. change m' with (m', LoadReport [] [] []).1. rewrite <-E.
    apply load_into_values. by rewrite E.
  - intros g'. rewrite Hload. unfold load_state_dict.
    rewrite (load_into_same_layout i o hs (Network_init i o hs g)
               (Network_init i o hs g') sd).
    + by rewrite E.
    + apply Network_init_architecture.
    + apply Network_init_architecture.
    + destruct (Network_init_mode i o hs g) as [_ ->].
      by destruct (Network_init_mode i o hs g') as [_ ->].
    + destruct (Network_init_mode i o hs g) as [-> _].
      by destruct (Network_init_mode i o hs g') as [-> _].
    + by rewrite E.
Qed.

Lemma load_checkpoint_reconstructs_witness :
  ∃ m', load_checkpoint "checkpoint.pth" (save_checkpoint dropout_demo ∅)
          zero_rng = inr m'
    ∧ ∀ key, sd_lookup key (Network_state_dict m')
             = sd_lookup key (Network_state_dict dropout_demo).
Proof.
  destruct (load_checkpoint_reconstructs "checkpoint.pth"
              (save_checkpoint dropout_demo ∅) (checkpoint dropout_demo)
              784 10 [1] (Network_state_dict dropout_demo) zero_rng)
    as (Hload&Hvalues&_); [by vm_compute..|].
  destruct (load_checkpoint "checkpoint.pth" (save_checkpoint dropout_demo ∅)
              zero_rng) as [e|m'] eqn:E.
  - exfalso. revert Hload. by vm_compute.
  - exists m'. split; [done|]. by apply Hvalues.
Defined.

(** C6: the model [load_checkpoint] returns is in training mode with a
    dropout rate of 0.5; there is a checkpoint whose loaded model gives
    different outputs on every input for two different dropout draws; in
    evaluation mode the output does not depend on the draws. *)
Theorem loaded_model_is_in_training_mode :
  (∀ path (fs : filesystem) g m,
     load_checkpoint path fs g = inr m →
     training m = true ∧ dropout m = {| p := 0.5 |})
  ∧ (∀ (fs : filesystem) g x,
       load_checkpoint "checkpoint.pth" (save_checkpoint dropout_demo fs) g
       = inr dropout_demo
       ∧ forward dropout_demo (λ _ _, true) x
         ≠ forward dropout_demo (λ _ _, false) x)
  ∧ (∀ m keep keep' x, forward (eval m) keep x = forward (eval m) keep' x).
Proof.
  split; [|split].
  - intros path fs g m (obj&i&o&hs&sd&_&_&_&_&_&E)%load_checkpoint_inv.
    unfold load_state_dict in E.
    destruct (load_into_model (Network_init i o hs g) sd) as (_&_&Hd&Ht).
    destruct (load_into (Network_init i o hs g) sd) as [m1 r].
    injection E as -> _. simpl in *.
    destruct (Network_init_mode i o hs g) as [E1 E2]. by rewrite Ht, Hd.
  - intros fs g x. split; [|apply dropout_demo_draws].
    by rewrite (saved_checkpoint_loads [1] dropout_demo fs g
                  dropout_demo_architecture).
  - apply forward_eval.
Qed.

Lemma loaded_model_is_in_training_mode_witness :
  load_checkpoint "checkpoint.pth" (save_checkpoint dropout_demo ∅) zero_rng
  = inr dropout_demo
  ∧ training dropout_demo = true ∧ dropout dropout_demo = {| p := 0.5 |}.
Proof.
  destruct loaded_model_is_in_training_mode as (Hmode&Hdemo&_).
  destruct (Hdemo ∅ zero_rng []) as [E _].
  split; [exact E|]. exact (Hmode _ _ _ _ E).
Defined.

End Part6Facts.

(** ** The training cells *)

Module Part5Facts.
Import Torch Part5 LoadFacts.

(** *** Arithmetic of means *)

Lemma sum_replicate n (c : R) : foldr Rplus 0%R (replicate n c) = (INR n * c)%R.
Proof.
  induction n as [|n IH]; [simpl; lra|].
  cbn [replicate foldr]. rewrite IH, S_INR. lra.
Qed.

Lemma mean_float_replicate_true n :
  0 < n → mean_float (replicate n true) = 1%R.
Proof.
  intros Hn. unfold mean_float. rewrite fmap_replicate, length_replicate.
  rewrite sum_replicate. field. apply not_0_INR. lia.
Qed.

Lemma mean_float_replicate_false n : mean_float (replicate n false) = 0%R.
Proof.
  unfold mean_float. rewrite fmap_replicate, sum_replicate. unfold Rdiv.
  by rewrite Rmult_0_r, Rmult_0_l.
Qed.

(** *** Batches *)

Lemma chunks_sizes {A} n bs (l : list A) :
  length <$> chunks n bs l = chunk_sizes n bs (length l).
Proof.
  revert l. induction n as [|n IH]; intros l; [done|].
  cbn [chunks chunk_sizes fmap list_fmap].
  change (list_fmap _ _ length ?x) with (length <$> x).
  by rewrite IH, length_take, length_drop.
Qed.

Lemma chunks_replicate {A} n m bs (x : A) (l : list A) :
  chunks (n + m) bs (replicate (n * bs) x ++ l)
  = replicate n (replicate bs x) ++ chunks m bs l.
Proof.
  induction n as [|n IH]; [done|].
  cbn [Nat.add Nat.mul chunks replicate].
  rewrite replicate_add, <-app_assoc.
  rewrite take_app_length' by (by rewrite length_replicate).
  rewrite drop_app_length' by (by rewrite length_replicate).
  by rewrite IH.
Qed.

(** *** The constant classifier *)

Lemma relu_zero n : relu (replicate n 0%R) = replicate n 0%R.
Proof.
  unfold relu. rewrite fmap_replicate. f_equal.
  unfold Rmax. destruct (Rle_dec 0 0); lra.
Qed.

Lemma constant_classifier_forward keep x :
  Classifier_forward constant_classifier false keep x
  = log_softmax (1%R :: replicate 9 0%R).
Proof.
  unfold Classifier_forward, constant_classifier, Dropout_forward. cbn [fc1 fc2 fc3 fc4].
  rewrite (Linear_forward_zero_weights 784 256) by (by rewrite length_replicate).
  rewrite relu_zero.
  rewrite (Linear_forward_zero_weights 256 128) by (by rewrite length_replicate).
  rewrite relu_zero.
  rewrite (Linear_forward_zero_weights 128 64) by (by rewrite length_replicate).
  rewrite relu_zero.
  by rewrite (Linear_forward_zero_weights 64 10) by done.
Qed.

Lemma constant_classifier_argmax :
  argmax (log_softmax (1%R :: replicate 9 0%R)) = 0.
Proof.
  unfold log_softmax. generalize (ln (foldr Rplus 0%R (exp <$> 1%R :: replicate 9 0%R))).
  intros c. simpl. unfold argmax, argmax_from.
  repeat (destruct (Rlt_dec _ _) as [H|_]; [exfalso; lra|]). done.
Qed.

Lemma sum_app (a b : list R) :
  foldr Rplus 0%R (a ++ b) = (foldr Rplus 0%R a + foldr Rplus 0%R b)%R.
Proof. induction a as [|v a IH]; simpl; [lra|]. rewrite IH. lra. Qed.

Lemma concat_replicate_replicate {A} n m (x : A) :
  concat (replicate n (replicate m x)) = replicate (n * m) x.
Proof.
  induction n as [|n IH]; [done|].
  cbn [replicate concat Nat.mul]. by rewrite IH, replicate_add.
Qed.

Lemma mean_float_true_false a b :
  mean_float (replicate a true ++ replicate b false)
  = (INR a / INR (a + b))%R.
Proof.
  unfold mean_float.
  rewrite fmap_app, !fmap_replicate, sum_app, !sum_replicate.
  rewrite length_app, !length_replicate. unfold Rdiv. f_equal. lra.
Qed.

Lemma imap_const {A B} (y : B) (xs : list A) :
  imap (λ _ _, y) xs = replicate (length xs) y.
Proof.
  induction xs as [|x xs IH]; [done|]. rewrite imap_cons. simpl. f_equal.
  exact IH.
Qed.

Lemma zip_with_replicate {A B C} (f : A → B → C) n x y :
  zip_with f (replicate n x) (replicate n y) = replicate n (f x y).
Proof. induction n as [|n IH]; [done|]. simpl. by rewrite IH. Qed.

Lemma collate_replicate n x t :
  collate (replicate n (x, t)) = Batch (replicate n x) (replicate n t) CPU.
Proof. unfold collate. by rewrite !fmap_replicate. Qed.

(** The constant classifier is right exactly on the examples of class 0. *)
Lemma constant_classifier_equals s n x t :
  batch_equals
    (outputs_on (lib := still_library) constant_classifier false s
       (Batch (replicate n x) (replicate n t) CPU))
    (replicate n t)
  = replicate n (bool_decide (0 = t)).
Proof.
  unfold outputs_on, batch_forward, batch_equals. simpl.
  erewrite imap_ext.
  2:{ intros j y _. apply constant_classifier_forward. }
  rewrite imap_const, length_fmap, length_replicate, fmap_replicate.
  rewrite constant_classifier_argmax.
  apply (zip_with_replicate (λ c t : nat, bool_decide (c = t))).
Qed.

Lemma skewed_batches s :
  loader_batches (lib := still_library) skewed_testloader s
  = replicate 156 (Batch (replicate 64 blank_image) (replicate 64 0) CPU)
    ++ [Batch (replicate 16 blank_image) (replicate 16 1) CPU].
Proof.
  unfold loader_batches, len, skewed_testloader.
  cbn [dataset batch_size shuffle randperm still_library].
  unfold skewed_testset.
  rewrite length_app, !length_replicate.
  replace ((156 * 64 + 16 + 64 - 1) / 64) with (156 + 1) by (by vm_compute).
  rewrite chunks_replicate. cbn [chunks].
  rewrite fmap_app, fmap_replicate, collate_replicate.
  cbn [fmap list_fmap]. rewrite take_ge by (rewrite length_replicate; lia).
  by rewrite collate_replicate.
Qed.

Lemma skewed_equals s :
  equals_of (lib := still_library) constant_classifier false s
    (loader_batches (lib := still_library) skewed_testloader 0)
  = replicate 156 (replicate 64 true) ++ [replicate 16 false].
Proof.
  rewrite skewed_batches.
  pose proof (λ s, constant_classifier_equals s 64 blank_image 0) as H0.
  pose proof (λ s, constant_classifier_equals s 16 blank_image 1) as H1.
  change (replicate 64 0) with
    (labels (Batch (replicate 64 blank_image) (replicate 64 0) CPU)) in H0 at 2.
  change (replicate 16 1) with
    (labels (Batch (replicate 16 blank_image) (replicate 16 1) CPU)) in H1 at 2.
  change (bool_decide (0 = 0)) with true in H0.
  change (bool_decide (0 = 1)) with false in H1.
  revert H0 H1.
  generalize (Batch (replicate 64 blank_image) (replicate 64 0) CPU) as B0.
  generalize (Batch (replicate 16 blank_image) (replicate 16 1) CPU) as B1.
  intros B1 B0 H0 H1.
  generalize 156 as k. intros k. revert s.
  induction k as [|k IH]; intros s; cbn [replicate app equals_of].
  - by rewrite H1.
  - by rewrite IH, H0.
Qed.

Lemma skewed_mean_of_batch_means :
  mean_of_batch_means (replicate 156 (replicate 64 true) ++ [replicate 16 false])
  = (156 / 157)%R.
Proof.
  unfold mean_of_batch_means.
  rewrite fmap_app, fmap_replicate, sum_app, sum_replicate.
  rewrite mean_float_replicate_true by lia.
  cbn [fmap list_fmap foldr]. rewrite mean_float_replicate_false.
  rewrite length_app, length_replicate. cbn [length Nat.add].
  rewrite !INR_IZR_INZ.
  replace (Z.of_nat 156) with 156%Z by (by vm_compute).
  replace (Z.of_nat 157) with 157%Z by (by vm_compute).
  lra.
Qed.

Lemma skewed_fraction_correct :
  fraction_correct (replicate 156 (replicate 64 true) ++ [replicate 16 false])
  = (9984 / 10000)%R.
Proof.
  unfold fraction_correct.
  rewrite concat_app, concat_replicate_replicate. cbn [concat].
  rewrite app_nil_r, mean_float_true_false.
  rewrite !INR_IZR_INZ.
  replace (Z.of_nat (156 * 64)) with 9984%Z by (by vm_compute).
  replace (Z.of_nat (156 * 64 + 16)) with 10000%Z by (by vm_compute).
  done.
Qed.

Section CellProofs.
Context {P O : Type} {lib : Library P O}.
Implicit Types w : @world P O.

(** One training mini-batch, when CUDA is there and the model is on it. *)
Lemma train_batch_ok b rl w :
  cuda_is_available w = true → model_on w = CUDA →
  ∃ w', train_batch b rl w
        = (inr (rl + NLLLoss (outputs_on (params w) (training w)
                                (rng_state w) b) (labels b))%R, w')
    ∧ cuda_is_available w' = true ∧ model_on w' = CUDA
    ∧ training w' = training w
    ∧ rng_state w' = S (rng_state w)
    ∧ stdout w' = stdout w
    ∧ trace w' = trace w ++ [EvCuda; EvCuda] ++ training_steps ++ [EvItem].
Proof.
  intros Hc Hd.
  unfold train_batch, bind, batch_cuda. rewrite Hc.
  unfold bind, log, ret, optimizer_zero_grad, model_call. simpl.
  rewrite Hd. simpl.
  unfold optimizer_step, bind. simpl.
  destruct (optim_update _ _ _) as [o' ps'] eqn:E. simpl.
  eexists. split; [reflexivity|]. simpl.
  repeat split; try done. by rewrite <-!app_assoc.
Qed.

Lemma for_each_train_ok bs rl w :
  cuda_is_available w = true → model_on w = CUDA →
  ∃ rl' w', for_each bs train_batch rl w = (inr rl', w')
    ∧ cuda_is_available w' = true ∧ model_on w' = CUDA
    ∧ training w' = training w
    ∧ rng_state w' = length bs + rng_state w
    ∧ stdout w' = stdout w
    ∧ trace w' = trace w
        ++ mjoin (replicate (length bs)
                    ([EvCuda; EvCuda] ++ training_steps ++ [EvItem])).
Proof.
  revert rl w. induction bs as [|b bs IH]; intros rl w Hc Hd.
  - exists rl, w. simpl. rewrite app_nil_r. by repeat split.
  - destruct (train_batch_ok b rl w Hc Hd) as (w1&E1&Hc1&Hd1&Ht1&Hr1&Hs1&Htr1).
    destruct (IH (rl + NLLLoss (outputs_on (params w) (training w)
                                   (rng_state w) b) (labels b))%R w1 Hc1 Hd1)
      as (rl'&w'&E&Hc'&Hd'&Ht'&Hr'&Hs'&Htr').
    exists rl', w'. cbn [for_each]. unfold bind at 1. rewrite E1, E.
    repeat split; try congruence.
    + rewrite Hr', Hr1. simpl. lia.
    + rewrite Htr', Htr1. cbn [replicate mjoin length]. by rewrite <-!app_assoc.
Qed.

Lemma test_batch_ok b acc w :
  cuda_is_available w = true → model_on w = CUDA →
  ∃ w', test_batch b acc w
        = (inr (acc.1 + NLLLoss (outputs_on (params w) (training w)
                                   (rng_state w) b) (labels b),
                acc.2 + mean_float
                          (batch_equals (outputs_on (params w) (training w)
                                           (rng_state w) b) (labels b)))%R,
           w')
    ∧ same_model w w'
    ∧ training w' = training w
    ∧ rng_state w' = S (rng_state w)
    ∧ trace w' = trace w ++ [EvCuda; EvCuda; EvForward; EvLoss].
Proof.
  intros Hc Hd.
  unfold test_batch, bind, batch_cuda. rewrite Hc.
  unfold bind, log, ret, model_call. simpl. rewrite Hd. simpl.
  eexists. split; [reflexivity|]. unfold same_model. simpl.
  repeat split; try done. by rewrite <-!app_assoc.
Qed.

Lemma same_model_trans w1 w2 w3 :
  same_model w1 w2 → same_model w2 w3 → same_model w1 w3.
Proof.
  unfold same_model. intros (?&?&?&?&?&?) (?&?&?&?&?&?).
  repeat split; congruence.
Qed.

Lemma for_each_test_ok bs acc w :
  cuda_is_available w = true → model_on w = CUDA →
  ∃ w', for_each bs test_batch acc w
        = (inr (acc.1 + foldr Rplus 0 (losses_of (params w) (training w)
                                          (rng_state w) bs),
                acc.2 + foldr Rplus 0
                          (mean_float <$> equals_of (params w) (training w)
                                            (rng_state w) bs))%R,
           w')
    ∧ same_model w w'
    ∧ training w' = training w
    ∧ rng_state w' = length bs + rng_state w
    ∧ trace w' = trace w
        ++ mjoin (replicate (length bs) [EvCuda; EvCuda; EvForward; EvLoss]).
Proof.
  revert acc w. induction bs as [|b bs IH]; intros acc w Hc Hd.
  - exists w. simpl. rewrite app_nil_r, !Rplus_0_r.
    unfold ret, same_model. by destruct acc.
  - destruct (test_batch_ok b acc w Hc Hd) as (w1&E1&Hs1&Ht1&Hr1&Htr1).
    pose proof Hs1 as (Hc1&Hp1&_&_&Hd1&_).
    match type of E1 with _ = (inr ?a, _) =>
      destruct (IH a w1) as (w'&E&Hs'&Ht'&Hr'&Htr'); [congruence..|]
    end.
    exists w'. cbn [for_each]. unfold bind at 1. rewrite E1, E.
    rewrite Hp1, Ht1, Hr1. simpl.
    split. { f_equal; f_equal; f_equal; simpl; apply Rplus_assoc. }
    split; [by eapply same_model_trans|].
    split; [congruence|]. split; [lia|].
    rewrite Htr', Htr1. by rewrite <-!app_assoc.
Qed.

Lemma length_chunks {A} n bs (l : list A) : length (chunks n bs l) = n.
Proof. revert l. induction n as [|n IH]; intros l; simpl; [done|]. by rewrite IH. Qed.

Lemma length_loader_batches dl s : length (loader_batches dl s) = len dl.
Proof. unfold loader_batches. by rewrite length_fmap, length_chunks. Qed.

(** The world after the iteration of a loader has started. *)
Lemma iterate_ok dl w :
  ∃ w', iterate dl w = (inr (loader_batches dl (rng_state w)), w')
    ∧ same_model w w' ∧ training w' = training w
    ∧ rng_state w' = (if shuffle dl then 1 else 0) + rng_state w
    ∧ trace w' = trace w.
Proof.
  unfold iterate. destruct (shuffle dl); eexists; (split; [reflexivity|]);
    unfold same_model; simpl; by repeat split.
Qed.

Lemma set_training_ok b w :
  ∃ w', set_training b w = (inr (), w')
    ∧ same_model w w' ∧ training w' = b
    ∧ rng_state w' = rng_state w
    ∧ trace w' = trace w ++ [if b then EvModelTrain else EvModelEval].
Proof.
  unfold set_training. eexists. split; [reflexivity|].
  unfold same_model. simpl. by repeat split.
Qed.

(** The validation pass: what it returns and what it leaves alone. *)
Lemma validation_pass_ok vl w :
  cuda_is_available w = true → model_on w = CUDA →
  let s := (if shuffle vl then 1 else 0) + rng_state w in
  let bs := loader_batches vl (rng_state w) in
  ∃ w', validation_pass vl w
        = (inr (0 + foldr Rplus 0 (losses_of (params w) false s bs),
                0 + foldr Rplus 0
                      (mean_float <$> equals_of (params w) false s bs))%R,
           w')
    ∧ same_model w w'
    ∧ training w' = false
    ∧ rng_state w' = len vl + s
    ∧ trace w' = trace w ++ [EvModelEval]
        ++ mjoin (replicate (len vl) [EvCuda; EvCuda; EvForward; EvLoss]).
Proof.
  intros Hc Hd s bs. unfold validation_pass.
  destruct (set_training_ok false w) as (w1&E1&Hs1&Ht1&Hr1&Htr1).
  destruct (iterate_ok vl w1) as (w2&E2&Hs2&Ht2&Hr2&Htr2).
  pose proof (same_model_trans _ _ _ Hs1 Hs2) as Hs12.
  pose proof Hs12 as (Hc2&Hp2&_&_&Hd2&_).
  destruct (for_each_test_ok (loader_batches vl (rng_state w1)) (0, 0)%R w2)
    as (w'&E&Hs'&Ht'&Hr'&Htr'); [congruence..|].
  exists w'. unfold bind. rewrite E1, E2, E.
  rewrite Hp2, Ht2, Ht1, Hr2, Hr1, length_loader_batches in *.
  split; [done|]. split; [by eapply same_model_trans|].
  split; [congruence|]. split; [lia|].
  rewrite Htr', Htr2, Htr1. by rewrite <-app_assoc.
Qed.

Lemma print_ok l w :
  ∃ w', print l w = (inr (), w')
    ∧ cuda_is_available w' = cuda_is_available w
    ∧ params w' = params w ∧ grads w' = grads w ∧ optim w' = optim w
    ∧ model_on w' = model_on w ∧ training w' = training w
    ∧ rng_state w' = rng_state w
    ∧ stdout w' = stdout w ++ [l]
    ∧ trace w' = trace w ++ [EvPrint].
Proof. unfold print. eexists. split; [reflexivity|]. simpl. by repeat split. Qed.

Lemma divide_ok x n w :
  0 < n → divide x n w = (inr (x / INR n)%R, w).
Proof. by destruct n; [lia|]. Qed.

(** One epoch of the training cell. *)
Lemma epoch_body_ok epochs tl vl e acc w :
  cuda_is_available w = true → model_on w = CUDA →
  0 < len tl → 0 < len vl →
  ∃ r w', epoch_body epochs tl vl e acc w = (inr r, w')
    ∧ cuda_is_available w' = true ∧ model_on w' = CUDA
    ∧ trace w' = trace w ++ epoch_events (len tl) (len vl).
Proof.
  intros Hc Hd Htl Hvl. unfold epoch_body.
  destruct (set_training_ok true w) as (w1&E1&(Hc1&_&_&_&Hd1&_)&_&_&Htr1).
  destruct (iterate_ok tl w1) as (w2&E2&(Hc2&_&_&_&Hd2&_)&_&_&Htr2).
  destruct (for_each_train_ok (loader_batches tl (rng_state w1)) 0%R w2)
    as (rl&w3&E3&Hc3&Hd3&_&_&_&Htr3); [congruence..|].
  destruct (validation_pass_ok vl w3 Hc3 Hd3)
    as (w4&E4&(Hc4&_&_&_&Hd4&_)&_&_&Htr4).
  match type of E4 with _ = (inr ?r, _) => set (r4 := r) in * end.
  destruct (print_ok
              (EpochLine (e + 1) epochs (rl / INR (len tl))%R
                 (Some (r4.1 / INR (len vl))%R)
                 (Some (reported_accuracy r4.2 vl))) w4)
    as (w5&E5&Hc5&_&_&_&Hd5&_&_&_&Htr5).
  eexists _, w5. unfold bind. rewrite E1, E2, E3, E4. fold r4.
  rewrite !divide_ok by done.
  rewrite E5. unfold ret. split; [reflexivity|].
  split; [congruence|]. split; [congruence|].
  rewrite Htr5, Htr4, Htr3, Htr2, Htr1, length_loader_batches.
  unfold epoch_events. by rewrite <-!app_assoc.
Qed.

Lemma for_each_epochs_ok epochs tl vl es acc w :
  cuda_is_available w = true → model_on w = CUDA →
  0 < len tl → 0 < len vl →
  ∃ r w', for_each es (epoch_body epochs tl vl) acc w = (inr r, w')
    ∧ cuda_is_available w' = true ∧ model_on w' = CUDA
    ∧ trace w' = trace w
        ++ mjoin (replicate (length es) (epoch_events (len tl) (len vl))).
Proof.
  intros Hc Hd Htl Hvl. revert acc w Hc Hd.
  induction es as [|e es IH]; intros acc w Hc Hd.
  - exists acc, w. simpl. by rewrite app_nil_r.
  - destruct (epoch_body_ok epochs tl vl e acc w Hc Hd Htl Hvl)
      as (r1&w1&E1&Hc1&Hd1&Htr1).
    destruct (IH r1 w1 Hc1 Hd1) as (r&w'&E&Hc'&Hd'&Htr').
    exists r, w'. cbn [for_each]. unfold bind at 1. rewrite E1, E.
    repeat split; try done.
    rewrite Htr', Htr1. cbn [replicate mjoin length]. by rewrite <-!app_assoc.
Qed.

Lemma training_cell_ok epochs tl vl w :
  cuda_is_available w = true →
  0 < len tl → 0 < len vl →
  ∃ r w', training_cell epochs tl vl w = (inr r, w')
    ∧ trace w' = trace w
        ++ mjoin (replicate epochs (epoch_events (len tl) (len vl))).
Proof.
  intros Hc Htl Hvl. unfold training_cell, bind at 1, select_device.
  rewrite Hc. unfold bind at 1, model_to.
  edestruct (for_each_epochs_ok epochs tl vl (seq 0 epochs) ([], []))
    as (r&w'&E&_&_&Htr); [| | | |exists r, w'; split; [exact E|]];
    [done..|].
  rewrite Htr, length_seq. done.
Qed.


(** *** The loop of the training notebook *)

Lemma train_batch_cpu_ok b rl w :
  model_on w = CPU → on b = CPU →
  ∃ w', train_batch_cpu b rl w
        = (inr (rl + NLLLoss (outputs_on (params w) (training w)
                                (rng_state w) b) (labels b))%R, w')
    ∧ model_on w' = CPU
    ∧ trace w' = trace w ++ [EvView] ++ training_steps ++ [EvItem].
Proof.
  intros Hd Hb.
  unfold train_batch_cpu, bind, log, ret, optimizer_zero_grad, model_call.
  simpl. rewrite Hd, Hb. simpl.
  unfold optimizer_step, bind. simpl.
  destruct (optim_update _ _ _) as [o' ps'] eqn:E. simpl.
  eexists. split; [reflexivity|]. simpl.
  split; [done|]. by rewrite <-!app_assoc.
Qed.

Lemma for_each_train_cpu_ok bs rl w :
  model_on w = CPU → Forall (λ b, on b = CPU) bs →
  ∃ rl' w', for_each bs train_batch_cpu rl w = (inr rl', w')
    ∧ model_on w' = CPU
    ∧ trace w' = trace w
        ++ mjoin (replicate (length bs)
                    ([EvView] ++ training_steps ++ [EvItem])).
Proof.
  intros Hd Hbs. revert rl w Hd.
  induction Hbs as [|b bs Hb Hbs IH]; intros rl w Hd.
  - exists rl, w. simpl. by rewrite app_nil_r.
  - destruct (train_batch_cpu_ok b rl w Hd Hb) as (w1&E1&Hd1&Htr1).
    match type of E1 with _ = (inr ?a, _) =>
      destruct (IH a w1 Hd1) as (rl'&w'&E&Hd'&Htr')
    end.
    exists rl', w'. cbn [for_each]. unfold bind at 1. rewrite E1, E.
    repeat split; try done.
    rewrite Htr', Htr1. cbn [replicate mjoin length]. by rewrite <-!app_assoc.
Qed.

Lemma loader_batches_on_cpu dl s : Forall (λ b, on b = CPU) (loader_batches dl s).
Proof. unfold loader_batches. apply Forall_fmap, Forall_true. done. Qed.

Lemma epoch_body_cpu_ok epochs tl e w :
  model_on w = CPU → 0 < len tl →
  ∃ w', epoch_body_cpu epochs tl e () w = (inr (), w')
    ∧ model_on w' = CPU
    ∧ trace w' = trace w ++ epoch_events_cpu (len tl).
Proof.
  intros Hd Htl. unfold epoch_body_cpu.
  destruct (iterate_ok tl w) as (w2&E2&(_&_&_&_&Hd2&_)&_&_&Htr2).
  destruct (for_each_train_cpu_ok (loader_batches tl (rng_state w)) 0%R w2)
    as (rl&w3&E3&Hd3&Htr3); [congruence|apply loader_batches_on_cpu|].
  destruct (print_ok
              (EpochLine (e + 1) epochs (rl / INR (len tl))%R None None) w3)
    as (w5&E5&_&_&_&_&Hd5&_&_&_&Htr5).
  exists w5. unfold bind. rewrite E2, E3, divide_ok, E5 by done.
  split; [done|]. split; [congruence|].
  rewrite Htr5, Htr3, Htr2, length_loader_batches.
  unfold epoch_events_cpu. by rewrite <-!app_assoc.
Qed.

Lemma for_each_epochs_cpu_ok epochs tl es w :
  model_on w = CPU → 0 < len tl →
  ∃ w', for_each es (epoch_body_cpu epochs tl) () w = (inr (), w')
    ∧ model_on w' = CPU
    ∧ trace w' = trace w
        ++ mjoin (replicate (length es) (epoch_events_cpu (len tl))).
Proof.
  intros Hd Htl. revert w Hd. induction es as [|e es IH]; intros w Hd.
  - exists w. simpl. by rewrite app_nil_r.
  - destruct (epoch_body_cpu_ok epochs tl e w Hd Htl) as (w1&E1&Hd1&Htr1).
    destruct (IH w1 Hd1) as (w'&E&Hd'&Htr').
    exists w'. cbn [for_each]. unfold bind at 1. rewrite E1, E.
    repeat split; try done.
    rewrite Htr', Htr1. cbn [replicate mjoin length].
    by rewrite <-!app_assoc.
Qed.

Lemma training_loop_cpu_ok epochs tl w :
  model_on w = CPU → 0 < len tl →
  ∃ w', training_loop_cpu epochs tl w = (inr (), w')
    ∧ trace w' = trace w
        ++ mjoin (replicate epochs (epoch_events_cpu (len tl))).
Proof.
  intros Hd Htl. unfold training_loop_cpu.
  destruct (for_each_epochs_cpu_ok epochs tl (seq 0 epochs) w Hd Htl)
    as (w'&E&_&Htr).
  exists w'. split; [done|]. by rewrite Htr, length_seq.
Qed.

(** *** Without CUDA *)

Lemma len_pos dl :
  dataset dl ≠ [] → 0 < batch_size dl → 0 < len dl.
Proof.
  intros Hds Hbs. unfold len.
  assert (0 < length (dataset dl)) by (destruct (dataset dl); simpl; [done|lia]).
  apply Nat.div_str_pos. lia.
Qed.

Lemma training_cell_without_cuda epochs tl vl w :
  cuda_is_available w = false →
  0 < epochs → dataset tl ≠ [] → 0 < batch_size tl →
  ∃ w', training_cell epochs tl vl w = (inl CudaUnavailable, w')
    ∧ model_on w' = CPU
    ∧ params w' = params w
    ∧ trace w' = trace w ++ [EvModelTrain].
Proof.
  intros Hc He Hds Hbs.
  unfold training_cell, bind at 1, select_device. rewrite Hc.
  unfold bind at 1, model_to.
  destruct epochs as [|n]; [lia|]. cbn [seq for_each].
  unfold bind at 1, epoch_body, bind at 1, set_training.
  unfold bind at 1, iterate.
  pose proof (length_loader_batches tl (rng_state w)) as Hl.
  pose proof (len_pos tl Hds Hbs) as Hp. simpl.
  destruct (loader_batches tl (rng_state w)) as [|b bs] eqn:Eb;
    [simpl in Hl; lia|].
  unfold bind at 1. cbn [for_each]. unfold bind at 1, train_batch, bind at 1.
  unfold batch_cuda.
  destruct (shuffle tl); simpl; rewrite Hc; eexists; (split; [reflexivity|]);
    done.
Qed.


(** *** What the steps of the cell leave alone *)

Local Ltac solve_frame :=
  unfold same_model; simpl; repeat split; (done || congruence).

Lemma same_model_refl w : same_model w w.
Proof. solve_frame. Qed.

Lemma model_call_frame no_grad xs d w :
  same_model w (model_call no_grad xs d w).2.
Proof.
  unfold model_call. destruct (same_device d (model_on w)); solve_frame.
Qed.

Lemma criterion_frame out targets w :
  same_model w (criterion out targets w).2.
Proof. solve_frame. Qed.

Lemma batch_cuda_frame b w : same_model w (batch_cuda b w).2.
Proof.
  unfold batch_cuda. destruct (cuda_is_available w) eqn:E; solve_frame.
Qed.

Lemma backward_frame loss w :
  let w' := (backward loss w).2 in
  cuda_is_available w' = cuda_is_available w
  ∧ params w' = params w ∧ optim w' = optim w ∧ model_on w' = model_on w
  ∧ training w' = training w ∧ rng_state w' = rng_state w
  ∧ stdout w' = stdout w.
Proof. unfold backward. destruct (grad_fn loss); solve_frame. Qed.

Lemma optimizer_zero_grad_frame w :
  let w' := (optimizer_zero_grad w).2 in
  params w' = params w ∧ optim w' = optim w.
Proof. solve_frame. Qed.

Lemma test_batch_frame b acc w : same_model w (test_batch b acc w).2.
Proof.
  unfold test_batch, bind, batch_cuda.
  destruct (cuda_is_available w) eqn:Hc; [|solve_frame].
  unfold bind, log, ret, model_call. simpl.
  destruct (model_on w) eqn:Hd; solve_frame.
Qed.

Lemma for_each_frame {A S} (xs : list A) (body : A → S → M S) acc w :
  (∀ x a w, same_model w (body x a w).2) →
  same_model w (for_each xs body acc w).2.
Proof.
  intros Hb. revert acc w. induction xs as [|x xs IH]; intros acc w.
  - apply same_model_refl.
  - cbn [for_each]. unfold bind at 1.
    specialize (Hb x acc w). destruct (body x acc w) as [[e|a] w1]; [done|].
    eapply same_model_trans; [exact Hb|apply IH].
Qed.

Lemma validation_pass_frame vl w : same_model w (validation_pass vl w).2.
Proof.
  unfold validation_pass.
  destruct (set_training_ok false w) as (w1&E1&Hs1&_).
  destruct (iterate_ok vl w1) as (w2&E2&Hs2&_).
  unfold bind. rewrite E1, E2.
  eapply same_model_trans; [exact Hs1|].
  eapply same_model_trans; [exact Hs2|].
  apply for_each_frame. intros. apply test_batch_frame.
Qed.

(** The parameters after a training mini-batch: those the update rule of the
    optimizer returns for the stored gradients, or the old ones when the
    batch raised before the step. *)
Lemma train_batch_params b rl w :
  params (train_batch b rl w).2
  = if cuda_is_available w && same_device CUDA (model_on w)
    then (optim_update (optim w) (params w)
            (match grad_zeros <$> grads w with
             | Some g0 => grad_add g0 (batch_gradient w b)
             | None => batch_gradient w b
             end)).2
    else params w.
Proof.
  unfold train_batch, bind, batch_cuda.
  destruct (cuda_is_available w) eqn:Hc; [|done].
  unfold bind, log, ret, optimizer_zero_grad, model_call. simpl.
  destruct (model_on w) eqn:Hd; [done|]. simpl.
  unfold optimizer_step, bind, batch_gradient, outputs_on. simpl.
  by destruct (optim_update _ _ _) as [o' ps'].
Qed.

(** The figure the cell prints as test accuracy is a hundred times the
    unweighted mean of the accuracies of the test batches. *)
Lemma validation_reports_mean vl w :
  cuda_is_available w = true → model_on w = CUDA →
  let s := (if shuffle vl then 1 else 0) + rng_state w in
  let bs := loader_batches vl (rng_state w) in
  ∃ r w', validation_pass vl w = (inr r, w')
    ∧ reported_accuracy r.2 vl
      = (100 * mean_of_batch_means (equals_of (params w) false s bs))%R.
Proof.
  intros Hc Hd s bs.
  destruct (validation_pass_ok vl w Hc Hd) as (w'&E&_).
  eexists _, w'. split; [exact E|]. simpl.
  unfold reported_accuracy, mean_of_batch_means.
  assert (length (equals_of (params w) false s bs) = len vl) as ->.
  { subst bs. rewrite <-(length_loader_batches vl (rng_state w)).
    generalize (loader_batches vl (rng_state w)) as l. intros l.
    generalize s as s'. induction l as [|b l IH]; intros s'; simpl; [done|].
    by rewrite IH. }
  subst s bs. unfold Rdiv. ring.
Qed.

(** *** The state after the training steps *)

Lemma state_of_advance n w w' :
  params w' = params w → grads w' = grads w → optim w' = optim w →
  rng_state w' = n + rng_state w →
  state_of w' = advance n (state_of w).
Proof. unfold state_of, advance. simpl. by intros -> -> -> ->. Qed.

Lemma well_formed_loader_len dl : well_formed_loader dl → 0 < len dl.
Proof. intros (Hbs&Hds&_). by apply len_pos. Qed.

Lemma train_batch_state b rl w :
  cuda_is_available w = true → model_on w = CUDA →
  state_of (train_batch b rl w).2 = batch_update (training w) b (state_of w).
Proof.
  intros Hc Hd. unfold train_batch, bind, batch_cuda. rewrite Hc.
  unfold bind, log, ret, optimizer_zero_grad, model_call. simpl.
  rewrite Hd. simpl.
  unfold optimizer_step, bind, batch_update, state_of, outputs_on. simpl.
  by destruct (optim_update _ _ _) as [o' ps'].
Qed.

Lemma for_each_train_state bs rl w :
  cuda_is_available w = true → model_on w = CUDA →
  state_of (for_each bs train_batch rl w).2
  = foldl (λ st b, batch_update (training w) b st) (state_of w) bs.
Proof.
  revert rl w. induction bs as [|b bs IH]; intros rl w Hc Hd; [done|].
  destruct (train_batch_ok b rl w Hc Hd) as (w1&E1&Hc1&Hd1&Ht1&_).
  pose proof (train_batch_state b rl w Hc Hd) as Hs. rewrite E1 in Hs.
  cbn [for_each foldl]. unfold bind at 1. rewrite E1.
  rewrite IH by done. by rewrite Ht1, <-Hs.
Qed.

Lemma epoch_body_state epochs tl vl e acc w :
  cuda_is_available w = true → model_on w = CUDA →
  0 < len tl → 0 < len vl →
  state_of (epoch_body epochs tl vl e acc w).2
  = epoch_update tl vl (state_of w).
Proof.
  intros Hc Hd Htl Hvl. unfold epoch_body.
  destruct (set_training_ok true w)
    as (w1&E1&(Hc1&Hp1&Hg1&Ho1&Hd1&_)&Ht1&Hr1&_).
  destruct (iterate_ok tl w1) as (w2&E2&(Hc2&Hp2&Hg2&Ho2&Hd2&_)&Ht2&Hr2&_).
  destruct (for_each_train_ok (loader_batches tl (rng_state w1)) 0%R w2)
    as (rl&w3&E3&Hc3&Hd3&_); [congruence..|].
  pose proof (for_each_train_state (loader_batches tl (rng_state w1)) 0%R w2)
    as Hs3. rewrite E3 in Hs3. cbn [snd] in Hs3.
  destruct (validation_pass_ok vl w3 Hc3 Hd3)
    as (w4&E4&(Hc4&Hp4&Hg4&Ho4&Hd4&_)&_&Hr4&_).
  match type of E4 with _ = (inr ?r, _) => set (r4 := r) in * end.
  destruct (print_ok
              (EpochLine (e + 1) epochs (rl / INR (len tl))%R
                 (Some (r4.1 / INR (len vl))%R)
                 (Some (reported_accuracy r4.2 vl))) w4)
    as (w5&E5&_&Hp5&Hg5&Ho5&_&_&Hr5&_).
  unfold bind. rewrite E1, E2, E3, E4. fold r4.
  rewrite !divide_ok by done. rewrite E5. unfold ret. cbn [snd].
  unfold epoch_update, training_pass.
  rewrite (state_of_advance (len vl + shuffles vl) w3 w5);
    [|congruence..|unfold shuffles; lia].
  f_equal. rewrite Hs3 by congruence.
  rewrite Ht2, Ht1, Hr1. f_equal.
  apply state_of_advance; [congruence..|unfold shuffles; lia].
Qed.

Lemma for_each_epochs_state epochs tl vl es acc w :
  cuda_is_available w = true → model_on w = CUDA →
  0 < len tl → 0 < len vl →
  state_of (for_each es (epoch_body epochs tl vl) acc w).2
  = epochs_update (length es) (epoch_update tl vl) (state_of w).
Proof.
  intros Hc Hd Htl Hvl. revert acc w Hc Hd.
  induction es as [|e es IH]; intros acc w Hc Hd; [done|].
  destruct (epoch_body_ok epochs tl vl e acc w Hc Hd Htl Hvl)
    as (r1&w1&E1&Hc1&Hd1&_).
  pose proof (epoch_body_state epochs tl vl e acc w Hc Hd Htl Hvl) as Hs.
  rewrite E1 in Hs. cbn [for_each length epochs_update].
  unfold bind at 1. rewrite E1. by rewrite IH, <-Hs.
Qed.

Lemma training_cell_state epochs tl vl w :
  cuda_is_available w = true → 0 < len tl → 0 < len vl →
  state_of (training_cell epochs tl vl w).2
  = epochs_update epochs (epoch_update tl vl) (state_of w).
Proof.
  intros Hc Htl Hvl. unfold training_cell, bind at 1, select_device.
  rewrite Hc. unfold bind at 1, model_to.
  rewrite for_each_epochs_state by done. by rewrite length_seq.
Qed.

Lemma train_batch_cpu_state b rl w :
  model_on w = CPU → on b = CPU →
  state_of (train_batch_cpu b rl w).2
  = batch_update (training w) b (state_of w)
  ∧ training (train_batch_cpu b rl w).2 = training w.
Proof.
  intros Hd Hb.
  unfold train_batch_cpu, bind, log, ret, optimizer_zero_grad, model_call.
  simpl. rewrite Hd, Hb. simpl.
  unfold optimizer_step, bind, batch_update, state_of, outputs_on. simpl.
  by destruct (optim_update _ _ _) as [o' ps'].
Qed.

Lemma for_each_train_cpu_state bs rl w :
  model_on w = CPU → Forall (λ b, on b = CPU) bs →
  state_of (for_each bs train_batch_cpu rl w).2
  = foldl (λ st b, batch_update (training w) b st) (state_of w) bs
  ∧ training (for_each bs train_batch_cpu rl w).2 = training w.
Proof.
  intros Hd Hbs. revert rl w Hd.
  induction Hbs as [|b bs Hb Hbs IH]; intros rl w Hd; [done|].
  destruct (train_batch_cpu_ok b rl w Hd Hb) as (w1&E1&Hd1&_).
  destruct (train_batch_cpu_state b rl w Hd Hb) as [Hs Ht].
  rewrite E1 in Hs, Ht. cbn [snd] in Hs, Ht.
  cbn [for_each foldl]. unfold bind. rewrite E1.
  destruct (IH (rl + NLLLoss (outputs_on (params w) (training w)
                                (rng_state w) b) (labels b))%R w1 Hd1)
    as [IH1 IH2].
  split; [by rewrite IH1, Ht, <-Hs|by rewrite IH2].
Qed.

Lemma epoch_body_cpu_state epochs tl e w :
  model_on w = CPU → 0 < len tl →
  state_of (epoch_body_cpu epochs tl e () w).2
  = training_pass (training w) tl (state_of w)
  ∧ training (epoch_body_cpu epochs tl e () w).2 = training w.
Proof.
  intros Hd Htl. unfold epoch_body_cpu.
  destruct (iterate_ok tl w) as (w2&E2&(_&Hp2&Hg2&Ho2&Hd2&_)&Ht2&Hr2&_).
  destruct (for_each_train_cpu_ok (loader_batches tl (rng_state w)) 0%R w2)
    as (rl&w3&E3&Hd3&_); [congruence|apply loader_batches_on_cpu|].
  destruct (for_each_train_cpu_state (loader_batches tl (rng_state w)) 0%R w2)
    as [Hs3 Ht3]; [congruence|apply loader_batches_on_cpu|].
  rewrite E3 in Hs3, Ht3. cbn [snd] in Hs3, Ht3.
  destruct (print_ok
              (EpochLine (e + 1) epochs (rl / INR (len tl))%R None None) w3)
    as (w5&E5&_&Hp5&Hg5&Ho5&_&Ht5&Hr5&_).
  unfold bind. rewrite E2, E3, divide_ok, E5 by done. cbn [snd].
  split; [|congruence].
  unfold training_pass.
  assert (state_of w5 = state_of w3) as ->.
  { unfold state_of. by rewrite Hp5, Hg5, Ho5, Hr5. }
  rewrite Hs3, Ht2. f_equal.
  apply state_of_advance; [congruence..|unfold shuffles; lia].
Qed.

Lemma for_each_epochs_cpu_state epochs tl es w :
  model_on w = CPU → 0 < len tl →
  state_of (for_each es (epoch_body_cpu epochs tl) () w).2
  = epochs_update (length es) (training_pass (training w) tl) (state_of w).
Proof.
  intros Hd Htl. revert w Hd. induction es as [|e es IH]; intros w Hd; [done|].
  destruct (epoch_body_cpu_ok epochs tl e w Hd Htl) as (w1&E1&Hd1&_).
  destruct (epoch_body_cpu_state epochs tl e w Hd Htl) as [Hs Ht].
  rewrite E1 in Hs, Ht. cbn [snd] in Hs, Ht.
  cbn [for_each length epochs_update]. unfold bind at 1. rewrite E1.
  by rewrite IH, Ht, <-Hs.
Qed.

(** ** The claims about the training cells *)

(** C4: on loaders that yield at least one batch of well-formed examples,
    with CUDA, the training cell of the validation notebook runs to its end
    and logs, for each of the [epochs] epochs, [model.train()], then for
    each of the [len(trainloader)] mini-batches the two moves to the device
    followed by exactly zero_grad, forward, loss, backward, step (and
    [loss.item()]), then the validation pass and the print; the loop of the
    training notebook, with the model on the CPU, logs for each epoch and
    each mini-batch the flattening followed by the same five steps.  The
    steps have their effect: the parameters, the stored gradient, the state
    of the optimizer and the state of the generator at the end are those
    obtained by applying, epoch after epoch and batch after batch in the
    order of the loader, the update of one mini-batch (gradient zeroed,
    gradient of the loss of the forward pass added, one step of the
    optimizer along it); the validation pass only draws from the
    generator. *)
Theorem training_loops_steps epochs tl vl w :
  (cuda_is_available w = true →
   well_formed_loader tl → well_formed_loader vl →
   ∃ r w', training_cell epochs tl vl w = (inr r, w')
     ∧ trace w' = trace w
         ++ mjoin (replicate epochs (epoch_events (len tl) (len vl)))
     ∧ state_of w'
       = epochs_update epochs (epoch_update tl vl) (state_of w))
  ∧ (model_on w = CPU → well_formed_loader tl →
     ∃ w', training_loop_cpu epochs tl w = (inr (), w')
       ∧ trace w' = trace w
           ++ mjoin (replicate epochs (epoch_events_cpu (len tl)))
       ∧ state_of w'
         = epochs_update epochs (training_pass (training w) tl)
             (state_of w)).
Proof.
  split.
  - intros Hc Htl%well_formed_loader_len Hvl%well_formed_loader_len.
    destruct (training_cell_ok epochs tl vl w Hc Htl Hvl) as (r&w'&E&Htr).
    pose proof (training_cell_state epochs tl vl w Hc Htl Hvl) as Hs.
    rewrite E in Hs. by exists r, w'.
  - intros Hd Htl%well_formed_loader_len.
    destruct (training_loop_cpu_ok epochs tl w Hd Htl) as (w'&E&Htr).
    pose proof (for_each_epochs_cpu_state epochs tl (seq 0 epochs) w Hd Htl)
      as Hs.
    unfold training_loop_cpu in E. rewrite E, length_seq in Hs.
    by exists w'.
Qed.

(** C5: parameters are drawn from the random number generator when a layer
    is constructed; the forward pass, the loss and the backward pass leave
    them (and the state of the optimizer) unchanged, the backward pass
    changing only the stored gradients and the log; a whole validation pass
    leaves parameters and gradients unchanged; a training mini-batch changes
    the parameters to what the update rule of the optimizer returns, and
    only if it reaches the step; the checkpoint holds the state dict of the
    model, whose entries are the tensors of its layers. *)
Theorem parameters_change_only_in_optimizer_step :
  (∀ i o g,
     data (weight (nn_Linear i o g).1) = g <$> seq 0 (o * i)
     ∧ data (bias (nn_Linear i o g).1) = (λ j, g (o * i + j)) <$> seq 0 o)
  ∧ (∀ no_grad xs d w, same_model w (model_call no_grad xs d w).2)
  ∧ (∀ out targets w, same_model w (criterion out targets w).2)
  ∧ (∀ loss w,
       let w' := (backward loss w).2 in
       cuda_is_available w' = cuda_is_available w
       ∧ params w' = params w ∧ optim w' = optim w
       ∧ model_on w' = model_on w ∧ training w' = training w
       ∧ rng_state w' = rng_state w ∧ stdout w' = stdout w)
  ∧ (∀ vl w, same_model w (validation_pass vl w).2)
  ∧ (∀ b rl w,
       params (train_batch b rl w).2
       = if cuda_is_available w && same_device CUDA (model_on w)
         then (optim_update (optim w) (params w)
                 (match grad_zeros <$> grads w with
                  | Some g0 => grad_add g0 (batch_gradient w b)
                  | None => batch_gradient w b
                  end)).2
         else params w)
  ∧ (∀ m (fs : gmap string Part6.pyobj),
       Part6.torch_load "checkpoint.pth" (Part6.save_checkpoint m fs)
       = inr (Part6.ObjDict (Part6.checkpoint m))
       ∧ Part6.checkpoint m !! "state_dict"
         = Some (Part6.VStateDict (FcModel.Network_state_dict m))
       ∧ (∀ j f,
            sd_lookup (FcModel.hidden_prefix j +:+ field_name f)
              (FcModel.Network_state_dict m)
            = field_of f <$> FcModel.hidden_layers m !! j)
       ∧ (∀ f,
            sd_lookup ("output." +:+ field_name f)
              (FcModel.Network_state_dict m)
            = Some (field_of f (FcModel.output m)))).
Proof.
  split; [done|].
  split; [apply model_call_frame|].
  split; [apply criterion_frame|].
  split; [apply backward_frame|].
  split; [apply validation_pass_frame|].
  split; [apply train_batch_params|].
  intros m fs. split; [|split; [|split]].
  - unfold Part6.torch_load, Part6.save_checkpoint, Part6.torch_save.
    by rewrite lookup_insert_eq.
  - apply Part6Facts.checkpoint_lookup.
  - intros j f. apply lookup_Network_hidden.
  - intros f. apply lookup_Network_output.
Qed.

(** C9: where CUDA is not available the device selection falls back to the
    CPU, and yet the training cell raises on its first mini-batch, at the
    unconditional [images.cuda()]: the model sits on the CPU, no parameter
    has changed and nothing but [model.train()] has been logged. *)
Theorem training_cell_raises_without_cuda epochs tl vl w :
  cuda_is_available w = false →
  0 < epochs → dataset tl ≠ [] → 0 < batch_size tl →
  (select_device w).1 = inr CPU
  ∧ ∃ w', training_cell epochs tl vl w = (inl CudaUnavailable, w')
      ∧ model_on w' = CPU
      ∧ params w' = params w
      ∧ trace w' = trace w ++ [EvModelTrain].
Proof.
  intros Hc He Hds Hbs. split.
  - unfold select_device. by rewrite Hc.
  - by apply training_cell_without_cuda.
Qed.

End CellProofs.

(** Batches of one size: the mean of their accuracies is the fraction of
    correct examples. *)
Lemma mean_of_equal_batches n (E : list (list bool)) :
  0 < n → Forall (λ e, length e = n) E →
  mean_of_batch_means E = fraction_correct E.
Proof.
  intros Hn HE. unfold mean_of_batch_means, fraction_correct.
  assert (foldr Rplus 0%R (mean_float <$> E)
          = (foldr Rplus 0%R
               ((λ b : bool, if b then 1 else 0)%R <$> concat E) / INR n)%R
          ∧ length (concat E) = length E * n) as [Hsum Hlen].
  { induction HE as [|e E He HE IH]; [simpl; split; [lra|done]|].
    destruct IH as [IH1 IH2].
    cbn [fmap list_fmap foldr concat length].
    change (list_fmap _ _ mean_float E) with (mean_float <$> E).
    rewrite IH1, fmap_app, sum_app, length_app, IH2, He.
    split; [|lia]. unfold mean_float. rewrite He. lra. }
  destruct E as [|e0 E0]; [done|].
  rewrite Hsum. unfold mean_float. rewrite Hlen, mult_INR. field.
  split; apply not_0_INR; simpl; lia.
Qed.

(** The validation pass of the constant classifier on the skewed test set. *)
Lemma skewed_validation :
  let w := start_world true CUDA constant_classifier in
  let E := equals_of (lib := still_library) constant_classifier false 1
             (loader_batches (lib := still_library) skewed_testloader 0) in
  ∃ r w',
    validation_pass (lib := still_library) skewed_testloader w = (inr r, w')
    ∧ reported_accuracy r.2 skewed_testloader = (100 * (156 / 157))%R
    ∧ (100 * fraction_correct E)%R = (100 * (9984 / 10000))%R.
Proof.
  intros w E.
  destruct (validation_reports_mean (lib := still_library)
              skewed_testloader w eq_refl eq_refl) as (r&w'&Er&Hr).
  exists r, w'. split; [exact Er|].
  unfold w, start_world in Hr. cbn [shuffle skewed_testloader rng_state params
    Nat.add] in Hr.
  subst E. rewrite skewed_equals in Hr. rewrite skewed_equals.
  rewrite Hr, skewed_mean_of_batch_means, skewed_fraction_correct.
  split; reflexivity.
Qed.

Local Set Warnings "-abstract-large-number".

(** ** The claim about the reported accuracy *)

(** C8: the test accuracy the cell prints is a hundred times the unweighted
    mean of the accuracies of the test batches; 10000 images in batches of 64
    make 157 batches, the last one of 16 images; for such a test set the
    printed figure can differ from the percentage of correctly classified
    images (here 156/157 against 9984/10000), while batches of one size
    always give the same figure. *)
Theorem reported_accuracy_is_mean_of_batch_means :
  (∀ {P O : Type} {lib : Library P O} vl (w : @world P O),
     cuda_is_available w = true → model_on w = CUDA →
     let s := (if shuffle vl then 1 else 0) + rng_state w in
     let bs := loader_batches vl (rng_state w) in
     ∃ r w', validation_pass vl w = (inr r, w')
       ∧ reported_accuracy r.2 vl
         = (100 * mean_of_batch_means (equals_of (params w) false s bs))%R)
  ∧ (∀ {P O : Type} {lib : Library P O} vl s,
       length (dataset vl) = 10000 → batch_size vl = 64 →
       length (randperm s (dataset vl)) = length (dataset vl) →
       len vl = 157
       ∧ (λ b, length (labels b)) <$> loader_batches vl s
         = replicate 156 64 ++ [16])
  ∧ (let w := start_world true CUDA constant_classifier in
     let E := equals_of (lib := still_library) constant_classifier false 1
                (loader_batches (lib := still_library) skewed_testloader 0) in
     length (dataset skewed_testloader) = 10000
     ∧ batch_size skewed_testloader = 64
     ∧ ∃ r w',
         validation_pass (lib := still_library) skewed_testloader w
         = (inr r, w')
         ∧ reported_accuracy r.2 skewed_testloader = (100 * (156 / 157))%R
         ∧ (100 * fraction_correct E)%R = (100 * (9984 / 10000))%R
         ∧ reported_accuracy r.2 skewed_testloader
           ≠ (100 * fraction_correct E)%R)
  ∧ (∀ n (E : list (list bool)),
       0 < n → Forall (λ e, length e = n) E →
       mean_of_batch_means E = fraction_correct E).
Proof.
  split; [intros; by apply validation_reports_mean|].
  split; [|split; [|apply mean_of_equal_batches]].
  - intros P O lib vl s Hds Hbs Hperm.
    assert (len vl = 157) as Hlen.
    { unfold len. rewrite Hds, Hbs. by vm_compute. }
    split; [done|].
    unfold loader_batches.
    assert (∀ cs : list (list sample),
              (λ b, length (labels b)) <$> (collate <$> cs) = length <$> cs)
      as ->.
    { induction cs as [|c cs IH]; [done|].
      cbn [fmap list_fmap]. f_equal; [|exact IH].
      unfold collate. simpl. by rewrite length_fmap. }
    rewrite chunks_sizes, Hlen, Hbs.
    assert (length (if shuffle vl then randperm s (dataset vl)
                    else dataset vl) = 10000) as ->.
    { destruct (shuffle vl); congruence. }
    by vm_compute.
  - intros w E. split; [by vm_compute|]. split; [done|].
    destruct skewed_validation as (r&w'&Er&Hr&HE).
    exists r, w'. fold w. fold E in HE.
    split; [exact Er|]. split; [exact Hr|]. split; [exact HE|].
    rewrite Hr, HE. clear. lra.
Qed.

Lemma reported_accuracy_is_mean_of_batch_means_witness :
  cuda_is_available (start_world true CUDA constant_classifier) = true
  ∧ model_on (start_world true CUDA constant_classifier) = CUDA
  ∧ ∃ r w',
      validation_pass (lib := still_library) skewed_testloader
        (start_world true CUDA constant_classifier) = (inr r, w')
      ∧ reported_accuracy r.2 skewed_testloader
        = (100 * mean_of_batch_means
                   (equals_of (lib := still_library) constant_classifier
                      false 1
                      (loader_batches (lib := still_library)
                         skewed_testloader 0)))%R.
Proof.
  split; [reflexivity|]. split; [reflexivity|].
  destruct reported_accuracy_is_mean_of_batch_means as (H&_).
  exact (H _ _ still_library skewed_testloader
           (start_world true CUDA constant_classifier) eq_refl eq_refl).
Defined.

Lemma training_loops_steps_witness :
  let w := start_world true CUDA constant_classifier in
  let w0 := start_world false CPU constant_classifier in
  let tl := small_trainloader in
  (∃ r w',
     training_cell (lib := still_library) 2 tl tl w = (inr r, w')
     ∧ trace w' = trace w ++ mjoin (replicate 2 (epoch_events 2 2))
     ∧ state_of w'
       = epochs_update 2 (epoch_update (lib := still_library) tl tl)
           (state_of w))
  ∧ (∃ w',
       training_loop_cpu (lib := still_library) 2 tl w0 = (inr (), w')
       ∧ trace w' = trace w0 ++ mjoin (replicate 2 (epoch_events_cpu 2))
       ∧ state_of w'
         = epochs_update 2
             (training_pass (lib := still_library) (training w0) tl)
             (state_of w0)).
Proof.
  intros w w0 tl.
  assert (well_formed_loader (lib := still_library) tl) as Htl.
  { split; [simpl; lia|]. split; [discriminate|]. split.
    - repeat constructor; simpl; lia.
    - intros s. reflexivity. }
  split.
  - destruct (training_loops_steps (lib := still_library) 2 tl tl w)
      as [H _].
    apply H; [reflexivity|exact Htl..].
  - destruct (training_loops_steps (lib := still_library) 2 tl tl w0)
      as [_ H].
    apply H; [reflexivity|exact Htl].
Defined.

Lemma training_cell_raises_without_cuda_witness :
  cuda_is_available (start_world false CPU constant_classifier) = false
  ∧ 0 < 30 ∧ dataset small_trainloader ≠ [] ∧ 0 < batch_size small_trainloader
  ∧ ∃ w',
      training_cell (lib := still_library) 30 small_trainloader
        small_trainloader (start_world false CPU constant_classifier)
      = (inl CudaUnavailable, w')
      ∧ params w' = constant_classifier.
Proof.
  assert (0 < 30) as H1 by lia.
  assert (dataset small_trainloader ≠ []) as H2 by (by vm_compute).
  assert (0 < batch_size small_trainloader) as H3 by (simpl; lia).
  split; [reflexivity|]. split; [exact H1|]. split; [exact H2|].
  split; [exact H3|].
  destruct (training_cell_raises_without_cuda (lib := still_library) 30
              small_trainloader small_trainloader
              (start_world false CPU constant_classifier) eq_refl H1 H2 H3)
    as (_&w'&E&_&Hp&_).
  exists w'. split; [exact E|exact Hp].
Defined.

End Part5Facts.

(** ** The state dict cells and loads that raise *)

Module Part6CellsFacts.
Import Torch FcModel Part6 Part6Cells LoadFacts Part6Facts.

(** *** Loading never reshapes a model *)

Lemma load_param_size sd key p0 : size (load_param sd key p0).1 = size p0.
Proof.
  unfold load_param. destruct (sd_lookup key sd) as [t|]; [|done].
  by case_decide.
Qed.

Lemma load_Linear_layout sd prefix l0 :
  same_layout l0 (load_Linear sd prefix l0).1.
Proof.
  unfold load_Linear.
  pose proof (load_param_size sd (prefix +:+ "weight") (weight l0)) as Hw.
  pose proof (load_param_size sd (prefix +:+ "bias") (bias l0)) as Hb.
  destruct (load_param sd (prefix +:+ "weight") (weight l0)) as [w [mw ew]].
  destruct (load_param sd (prefix +:+ "bias") (bias l0)) as [b [mb eb]].
  simpl in *. by repeat split.
Qed.

Lemma load_layers_layout sd k ls0 :
  Forall2 same_layout ls0 (load_layers sd k ls0).1.
Proof.
  revert k. induction ls0 as [|l0 ls0 IH]; intros k; cbn [load_layers].
  - constructor.
  - pose proof (load_Linear_layout sd (hidden_prefix k) l0) as Hl.
    specialize (IH (S k)).
    destruct (load_Linear sd (hidden_prefix k) l0) as [l' [m1 e1]].
    destruct (load_layers sd (S k) ls0) as [ls' [m2 e2]].
    by constructor.
Qed.

Lemma layers_shaped_same_layout i hs ls ls' :
  Forall2 same_layout ls ls' → layers_shaped i hs ls → layers_shaped i hs ls'.
Proof.
  intros HF. revert i hs.
  induction HF as [|l l' ls ls' (Hi&Ho&Hw&Hb) HF IH]; intros i [|h hs];
    simpl; try done.
  intros [(Hi0&Ho0&Hw0&Hb0) H]. split; [|by apply IH].
  unfold Linear_shaped. by rewrite <-Hi, <-Ho, <-Hw, <-Hb.
Qed.

Lemma layers_sizes_same_layout k ls ls' :
  Forall2 same_layout ls ls' →
  size <$> (layers_state_dict k ls).*2 = size <$> (layers_state_dict k ls').*2.
Proof.
  intros HF. revert k.
  induction HF as [|l l' ls ls' (Hi&Ho&Hw&Hb) HF IH]; intros k; [done|].
  cbn [layers_state_dict]. unfold Linear_state_dict.
  rewrite !fmap_app, (IH (S k)). simpl. by rewrite Hw, Hb.
Qed.


Lemma load_state_dict_model m sd :
  (load_state_dict m sd).1 = (load_into m sd).1.
Proof. unfold load_state_dict. by destruct (load_into m sd). Qed.

Lemma same_layout_refl l : same_layout l l.
Proof. by repeat split. Qed.

Lemma same_layout_widths ls ls' :
  Forall2 same_layout ls ls' → out_features <$> ls = out_features <$> ls'.
Proof.
  induction 1 as [|l l' ls ls' (Hi&Ho&Hw&Hb) HF IH]; [done|].
  rewrite !fmap_cons. by rewrite Ho, IH.
Qed.

(** X3: [load_state_dict] never reshapes the model, whether it succeeds or
    raises: the names and the sizes of the parameters, the hidden widths,
    the mode and the dropout rate are those of the model before the call,
    whatever state dict is loaded; so the architecture is kept. *)
Theorem load_state_dict_keeps_shapes m sd :
  let m' := (load_state_dict m sd).1 in
  sd_keys (Network_state_dict m') = sd_keys (Network_state_dict m)
  ∧ size <$> (Network_state_dict m').*2 = size <$> (Network_state_dict m).*2
  ∧ widths m' = widths m
  ∧ training m' = training m
  ∧ dropout m' = dropout m
  ∧ ∀ i o hs, has_architecture i o hs m → has_architecture i o hs m'.
Proof.
  cbv zeta. rewrite load_state_dict_model.
  destruct (load_into_model m sd) as (Hh&Ho&Hd&Ht).
  pose proof (load_layers_layout sd 0 (hidden_layers m)) as HF.
  pose proof (load_Linear_layout sd "output." (output m)) as HL.
  rewrite <-Hh in HF. rewrite <-Ho in HL.
  split_and!; try done.
  - unfold Network_state_dict, sd_keys. rewrite !fmap_app. f_equal.
    apply sd_keys_layers. symmetry. by eapply Forall2_length.
  - unfold Network_state_dict. rewrite !fmap_app.
    rewrite (layers_sizes_same_layout 0 _ _ HF).
    destruct HL as (_&_&Hw&Hb). simpl. by rewrite Hw, Hb.
  - unfold widths. symmetry. by apply same_layout_widths.
  - intros i o hs [Hl (Hi'&Ho'&Hw'&Hb')]. split.
    + by eapply layers_shaped_same_layout.
    + destruct HL as (Hi&Hf&Hw&Hb). unfold Linear_shaped.
      by rewrite <-Hi, <-Hf, <-Hw, <-Hb.
Qed.

(** *** The cells that save and load the state dict *)

Lemma load_into_self m :
  load_into m (Network_state_dict m) = (m, LoadReport [] [] []).
Proof.
  unfold load_into.
  rewrite (load_layers_clean _ _ (hidden_layers m)).
  2:{ apply Forall2_same_length_lookup. split; [done|].
      intros j l l' Hl Hl'. rewrite Hl in Hl'. injection Hl' as <-.
      apply same_layout_refl. }
  2:{ intros j l f Hj. change (0 + j) with j.
      by rewrite lookup_Network_hidden, Hj. }
  rewrite (load_Linear_clean _ _ _ (output m)).
  2:{ apply same_layout_refl. }
  2:{ intros f. apply lookup_Network_output. }
  cbv zeta.
  assert (filter (λ k, k ∉ sd_keys (Network_state_dict m))
            (sd_keys (Network_state_dict m)) = []) as ->.
  { apply elem_of_nil_inv. by intros key [Hnot Hin]%list_elem_of_filter. }
  by destruct m.
Qed.

(** X1: the cells [torch.save(model.state_dict(), 'checkpoint.pth')],
    [state_dict = torch.load('checkpoint.pth')] and
    [model.load_state_dict(state_dict)]: what is read back is the state
    dict that was saved, whatever the file system held before, and loading
    it into the model it came from reports no missing key, no unexpected
    key and no size mismatch and leaves every parameter, the mode and the
    dropout rate as they were. *)
Theorem state_dict_loads_into_its_model m (fs : filesystem) :
  torch_load "checkpoint.pth" (save_state_dict m fs)
  = inr (ObjStateDict (Network_state_dict m))
  ∧ load_into m (Network_state_dict m) = (m, LoadReport [] [] [])
  ∧ load_state_dict m (Network_state_dict m) = (m, inr ()).
Proof.
  split_and!.
  - unfold torch_load, save_state_dict, torch_save.
    by rewrite lookup_insert_eq.
  - apply load_into_self.
  - unfold load_state_dict. by rewrite load_into_self.
Qed.

Lemma input_size_not_a_parameter m :
  sd_lookup "input_size" (Network_state_dict m) = None.
Proof.
  destruct (sd_lookup "input_size" (Network_state_dict m)) as [t|] eqn:E;
    [exfalso|done].
  assert ("input_size" ∈ sd_keys (Network_state_dict m)) as Hin.
  { apply elem_of_sd_keys. by rewrite E. }
  apply sd_keys_Network_inv in Hin as [(j&f&Hk&_)|(f&Hk)]; discriminate Hk.
Qed.

(** X2: how [load_checkpoint] fails on what is not a checkpoint.  A path at
    which nothing was saved raises [FileNotFoundError].  The file written by
    the first cell, [torch.save(model.state_dict(), 'checkpoint.pth')],
    holds the bare state dict, which has no entry ['input_size']:
    [load_checkpoint] raises [KeyError] on it, before any model is built. *)
Theorem load_checkpoint_needs_a_checkpoint (fs : filesystem) g :
  (∀ path, fs !! path = None →
     load_checkpoint path fs g = inl (FileNotFoundError path))
  ∧ (∀ m, load_checkpoint "checkpoint.pth" (save_state_dict m fs) g
          = inl (KeyError "input_size")).
Proof.
  split.
  - intros path Hp. unfold load_checkpoint, torch_load. by rewrite Hp.
  - intros m. unfold load_checkpoint, torch_load, save_state_dict, torch_save.
    rewrite lookup_insert_eq. cbn [Part6.bind getitem].
    by rewrite input_size_not_a_parameter.
Qed.


(** *** The names of the parameters *)

Lemma sd_keys_layers_inv k ls key :
  key ∈ sd_keys (layers_state_dict k ls) →
  ∃ j f, key = hidden_prefix j +:+ field_name f ∧ (k ≤ j)%nat.
Proof.
  unfold sd_keys. revert k. induction ls as [|l ls IH]; intros k H; simpl in H.
  - by apply elem_of_nil in H.
  - apply elem_of_cons in H as [->|H]; [|apply elem_of_cons in H as [->|H]].
    + by exists k, Weight.
    + by exists k, Bias.
    + apply IH in H as (j&f&->&?). exists j, f. split; [done|lia].
Qed.

Lemma NoDup_sd_keys_layers k ls : NoDup (sd_keys (layers_state_dict k ls)).
Proof.
  revert k. induction ls as [|l ls IH]; intros k.
  - constructor.
  - cbn [layers_state_dict]. unfold sd_keys, Linear_state_dict.
    rewrite fmap_app. simpl. constructor; [|constructor; [|apply IH]].
    + intros [H|H]%elem_of_cons.
      * by apply weight_ne_bias in H.
      * apply sd_keys_layers_inv in H as (j&f&H&Hj).
        change "weight" with (field_name Weight) in H.
        apply key_inj in H as [H%hidden_prefix_inj _]. lia.
    + intros H. apply sd_keys_layers_inv in H as (j&f&H&Hj).
      change "bias" with (field_name Bias) in H.
      apply key_inj in H as [H%hidden_prefix_inj _]. lia.
Qed.

Lemma sd_lookup_NoDup sd k t :
  NoDup (sd_keys sd) → (k, t) ∈ sd → sd_lookup k sd = Some t.
Proof.
  unfold sd_keys. induction sd as [|[k' t'] sd IH]; simpl.
  - by intros _ ?%elem_of_nil.
  - intros [Hk' HN]%NoDup_cons [[= <- <-]|Hin]%elem_of_cons.
    + by rewrite decide_True.
    + rewrite decide_False; [by apply IH|].
      intros ->. apply Hk'. apply list_elem_of_fmap. by exists (k, t).
Qed.

Lemma length_layers_state_dict k ls :
  length (layers_state_dict k ls) = 2 * length ls.
Proof.
  revert k. induction ls as [|l ls IH]; intros k; [done|].
  cbn [layers_state_dict]. rewrite length_app, IH. simpl. lia.
Qed.

(** X6: in [model.state_dict()] no two parameters share a name; there are
    two entries, a weight and a bias, for each hidden layer and for the
    output layer; and looking a listed name up gives the tensor listed with
    it. *)
Theorem state_dict_names_are_distinct m :
  NoDup (sd_keys (Network_state_dict m))
  ∧ length (Network_state_dict m) = 2 * (length (hidden_layers m) + 1)
  ∧ ∀ k t, (k, t) ∈ Network_state_dict m →
           sd_lookup k (Network_state_dict m) = Some t.
Proof.
  assert (NoDup (sd_keys (Network_state_dict m))) as HN.
  { unfold Network_state_dict, sd_keys. rewrite fmap_app.
    apply NoDup_app. split_and!.
    - apply NoDup_sd_keys_layers.
    - intros key (j&f&->&_)%sd_keys_layers_inv Hin. simpl in Hin.
      apply elem_of_cons in Hin as [Hin|Hin];
        [|apply elem_of_cons in Hin as [Hin|Hin]].
      + by apply hidden_ne_output in Hin.
      + by apply hidden_ne_output in Hin.
      + by apply elem_of_nil in Hin.
    - simpl. constructor; [|constructor; [|constructor]].
      + intros [H|H]%elem_of_cons; [done|by apply elem_of_nil in H].
      + by intros ?%elem_of_nil. }
  split_and!; [done| |].
  - unfold Network_state_dict.
    rewrite length_app, length_layers_state_dict. simpl. lia.
  - intros k t. by apply sd_lookup_NoDup.
Qed.


(** *** A load that raises *)

Lemma load_param_found sd key p0 :
  is_Some (sd_lookup key sd) → (load_param sd key p0).2.1 = [].
Proof.
  unfold load_param. intros [t ->]. by case_decide.
Qed.

Lemma load_Linear_found sd prefix l0 :
  (∀ f, is_Some (sd_lookup (prefix +:+ field_name f) sd)) →
  (load_Linear sd prefix l0).2.1 = [].
Proof.
  intros H. unfold load_Linear.
  pose proof (load_param_found sd _ (weight l0) (H Weight)) as Hw.
  pose proof (load_param_found sd _ (bias l0) (H Bias)) as Hb.
  simpl in Hw, Hb.
  destruct (load_param sd (prefix +:+ "weight") (weight l0)) as [w [mw ew]].
  destruct (load_param sd (prefix +:+ "bias") (bias l0)) as [b [mb eb]].
  simpl in *. by subst.
Qed.

Lemma load_layers_found sd k ls0 :
  (∀ j f, (j < length ls0)%nat →
     is_Some (sd_lookup (hidden_prefix (k + j) +:+ field_name f) sd)) →
  (load_layers sd k ls0).2.1 = [].
Proof.
  revert k. induction ls0 as [|l0 ls0 IH]; intros k H; [done|].
  cbn [load_layers].
  assert ((load_Linear sd (hidden_prefix k) l0).2.1 = []) as H1.
  { apply load_Linear_found. intros f. specialize (H 0 f).
    rewrite Nat.add_0_r in H. apply H. simpl. lia. }
  assert ((load_layers sd (S k) ls0).2.1 = []) as H2.
  { apply IH. intros j f Hj. replace (S k + j) with (k + S j) by lia.
    apply H. simpl. lia. }
  destruct (load_Linear sd (hidden_prefix k) l0) as [l' [m1 e1]].
  destruct (load_layers sd (S k) ls0) as [ls' [m2 e2]].
  simpl in *. by subst.
Qed.

(** A state dict stored from a model with as many hidden layers as the
    model it is loaded into has exactly the keys of that model. *)
Lemma load_into_same_depth_keys m0 m :
  length (hidden_layers m0) = length (hidden_layers m) →
  missing_keys (load_into m0 (Network_state_dict m)).2 = []
  ∧ unexpected_keys (load_into m0 (Network_state_dict m)).2 = [].
Proof.
  intros Hlen. rewrite load_into_report. simpl. split.
  - rewrite load_layers_found, load_Linear_found; [done| |].
    + intros f. rewrite lookup_Network_output. eauto.
    + intros j f Hj. change (0 + j) with j. rewrite lookup_Network_hidden.
      rewrite Hlen in Hj. apply lookup_lt_is_Some in Hj as [l ->]. eauto.
  - assert (sd_keys (Network_state_dict m0) = sd_keys (Network_state_dict m))
      as ->.
    { unfold Network_state_dict, sd_keys. rewrite !fmap_app. f_equal.
      by apply sd_keys_layers. }
    apply elem_of_nil_inv. by intros key [Hnot Hin]%list_elem_of_filter.
Qed.

Lemma load_param_other_size sd key p0 :
  (∀ t, sd_lookup key sd = Some t → size t ≠ size p0) →
  (load_param sd key p0).1 = p0.
Proof.
  unfold load_param. intros H. destruct (sd_lookup key sd) as [t|]; [|done].
  by rewrite decide_False by by apply H.
Qed.

Lemma load_Linear_other_size sd prefix l0 :
  (∀ f t, sd_lookup (prefix +:+ field_name f) sd = Some t →
          size t ≠ size (field_of f l0)) →
  (load_Linear sd prefix l0).1 = l0.
Proof.
  intros H. unfold load_Linear.
  pose proof (load_param_other_size sd _ (weight l0) (H Weight)) as Hw.
  pose proof (load_param_other_size sd _ (bias l0) (H Bias)) as Hb.
  simpl in Hw, Hb.
  destruct (load_param sd (prefix +:+ "weight") (weight l0)) as [w [mw ew]].
  destruct (load_param sd (prefix +:+ "bias") (bias l0)) as [b [mb eb]].
  simpl in *. subst. by destruct l0.
Qed.

Lemma load_layers_other_size sd k ls0 :
  (∀ j l0 f t, ls0 !! j = Some l0 →
     sd_lookup (hidden_prefix (k + j) +:+ field_name f) sd = Some t →
     size t ≠ size (field_of f l0)) →
  (load_layers sd k ls0).1 = ls0.
Proof.
  revert k. induction ls0 as [|l0 ls0 IH]; intros k H; [done|].
  cbn [load_layers].
  assert ((load_Linear sd (hidden_prefix k) l0).1 = l0) as H1.
  { apply load_Linear_other_size. intros f t. specialize (H 0 l0 f t).
    rewrite Nat.add_0_r in H. by apply H. }
  assert ((load_layers sd (S k) ls0).1 = ls0) as H2.
  { apply IH. intros j l f t Hj. replace (S k + j) with (k + S j) by lia.
    by apply H. }
  destruct (load_Linear sd (hidden_prefix k) l0) as [l' [m1 e1]].
  destruct (load_layers sd (S k) ls0) as [ls' [m2 e2]].
  simpl in *. by subst.
Qed.

Lemma Forall2_last {A} (R : A → A → Prop) l l' d d' :
  Forall2 R l l' → R d d' → R (List.last l d) (List.last l' d').
Proof.
  intros HF. revert d d'. induction HF as [|x y l l' Hxy HF IH]; intros d d' Hd.
  - done.
  - destruct HF as [|x' y' l l' Hxy' HF]; [done|].
    change (R (List.last (x' :: l) d) (List.last (y' :: l') d')).
    apply IH. done.
Qed.


Lemma load_Linear_fields sd prefix l0 :
  weight (load_Linear sd prefix l0).1
  = (load_param sd (prefix +:+ "weight") (weight l0)).1
  ∧ bias (load_Linear sd prefix l0).1
    = (load_param sd (prefix +:+ "bias") (bias l0)).1.
Proof.
  unfold load_Linear.
  destruct (load_param sd (prefix +:+ "weight") (weight l0)) as [w [mw ew]].
  by destruct (load_param sd (prefix +:+ "bias") (bias l0)) as [b [mb eb]].
Qed.

Lemma load_outcome_errors rep :
  error_msgs rep ≠ [] →
  load_outcome rep = inl (RuntimeError_load_state_dict rep).
Proof. intros H. apply load_outcome_raise. by intros ->. Qed.

(** X4: a load that raises is not undone.  When a state dict stored from a
    model [i -> hs -> o] is loaded into a model [i -> hs' -> o] with as
    many hidden layers, all of other widths (as in the cell that loads the
    state dict of [Network(784, 10, [512, 256, 128])] into
    [Network(784, 10, [400, 200, 100])]), the call raises with size
    mismatches only, every hidden layer and the output weight of the model
    keep their values, but the output bias, whose size is the same in both
    models, has been overwritten with the stored one. *)
Theorem failed_load_is_partial i o hs hs' m m0 :
  has_architecture i o hs m → has_architecture i o hs' m0 →
  hs ≠ [] → Forall2 (λ h h', h ≠ h') hs hs' →
  let r := load_state_dict m0 (Network_state_dict m) in
  (∃ rep, r.2 = inl (RuntimeError_load_state_dict rep)
          ∧ missing_keys rep = [] ∧ unexpected_keys rep = []
          ∧ error_msgs rep ≠ [])
  ∧ hidden_layers r.1 = hidden_layers m0
  ∧ weight (output r.1) = weight (output m0)
  ∧ bias (output r.1) = bias (output m).
Proof.
  intros Hm Hm0 Hne HF. pose proof Hm as [Hl Ho]. pose proof Hm0 as [Hl0 Ho0].
  cbv zeta. rewrite load_state_dict_model, load_state_dict_outcome.
  destruct (load_into_model m0 (Network_state_dict m)) as (Hh&Hout&_&_).
  pose proof (layers_shaped_length _ _ _ Hl) as Hn.
  pose proof (layers_shaped_length _ _ _ Hl0) as Hn0.
  pose proof (Forall2_length _ _ _ HF) as Hlen.
  split_and!.
  - exists (load_into m0 (Network_state_dict m)).2.
    destruct (load_into_same_depth_keys m0 m) as [Hmiss Hunexp]; [lia|].
    assert (error_msgs (load_into m0 (Network_state_dict m)).2 ≠ []) as He.
    { intros He. apply (load_report_widths _ _ _ _ _ _ _ _ Hm Hm0) in He;
        [|done]. subst hs'.
      destruct hs as [|h hs]; [done|].
      by apply Forall2_cons in HF as [Hh' _]. }
    split_and!; try done. by apply load_outcome_errors.
  - rewrite Hh. apply load_layers_other_size. intros j l0 f t Hj.
    change (0 + j) with j. rewrite lookup_Network_hidden.
    destruct (hidden_layers m !! j) as [l|] eqn:Hjl; [|done].
    intros [= <-].
    destruct (layers_shaped_sizes _ _ _ _ _ Hl Hjl) as (h&Hh1&Hw&Hb).
    destruct (layers_shaped_sizes _ _ _ _ _ Hl0 Hj) as (h'&Hh1'&Hw'&Hb').
    pose proof (Forall2_lookup_lr _ _ _ _ _ _ HF Hh1 Hh1') as Hhh.
    destruct f; simpl; [rewrite Hw, Hw'|rewrite Hb, Hb']; congruence.
  - rewrite Hout. rewrite (proj1 (load_Linear_fields _ _ _)).
    apply load_param_other_size. intros t.
    change "weight" with (field_name Weight).
    rewrite lookup_Network_output. intros [= <-]. simpl.
    destruct Ho as (_&_&->&_), Ho0 as (_&_&->&_).
    destruct HF as [|h h' hs hs' Hh' HF]; [done|].
    rewrite !last_cons_default.
    pose proof (Forall2_last _ _ _ _ _ HF Hh'). congruence.
  - rewrite Hout. rewrite (proj2 (load_Linear_fields _ _ _)).
    rewrite (load_param_clean _ _ _ (bias (output m))); [done| |].
    + change "bias" with (field_name Bias). by rewrite lookup_Network_output.
    + destruct Ho as (_&_&_&->), Ho0 as (_&_&_&->). done.
Qed.

Lemma failed_load_is_partial_witness :
  let m := Network_init 3 2 [2] zero_rng in
  let m0 := Network_init 3 2 [3] (λ _, 1%R) in
  let r := load_state_dict m0 (Network_state_dict m) in
  (∃ rep, r.2 = inl (RuntimeError_load_state_dict rep)
          ∧ missing_keys rep = [] ∧ unexpected_keys rep = []
          ∧ error_msgs rep ≠ [])
  ∧ hidden_layers r.1 = hidden_layers m0
  ∧ weight (output r.1) = weight (output m0)
  ∧ bias (output r.1) = bias (output m).
Proof.
  apply (failed_load_is_partial 3 2 [2] [3]).
  - vm_compute. repeat split.
  - vm_compute. repeat split.
  - discriminate.
  - repeat constructor. lia.
Defined.

Lemma load_other_sizes_errors i o i0 o0 hs m m0 :
  has_architecture i o hs m → has_architecture i0 o0 hs m0 →
  i ≠ i0 ∨ o ≠ o0 →
  error_msgs (load_into m0 (Network_state_dict m)).2 ≠ [].
Proof.
  intros [Hl Ho] [Hl0 Ho0] Hio.
  rewrite load_into_report. simpl. intros [He1 He2]%app_eq_nil.
  assert (o = o0) as Hoo.
  { pose proof (load_Linear_errors_nil _ _ _ Bias (bias (output m)) He2)
      as Hs. simpl in Hs. change "bias" with (field_name Bias) in Hs.
    rewrite lookup_Network_output in Hs. specialize (Hs eq_refl).
    destruct Ho as (_&_&_&Hb), Ho0 as (_&_&_&Hb0).
    rewrite Hb, Hb0 in Hs. congruence. }
  assert (i = i0) as Hii; [|lia].
  destruct hs as [|h hs].
  - pose proof (load_Linear_errors_nil _ _ _ Weight (weight (output m)) He2)
      as Hs. simpl in Hs. change "weight" with (field_name Weight) in Hs.
    rewrite lookup_Network_output in Hs. specialize (Hs eq_refl).
    destruct Ho as (_&_&Hw&_), Ho0 as (_&_&Hw0&_).
    rewrite Hw, Hw0 in Hs. simpl in Hs. congruence.
  - destruct (hidden_layers m) as [|l ls] eqn:El; [done|].
    destruct (hidden_layers m0) as [|l0 ls0] eqn:El0; [done|].
    pose proof (load_layers_errors_nil _ _ 0 0 l0 Weight (weight l) He1
                  eq_refl) as Hs.
    simpl in Hs. change "weight" with (field_name Weight) in Hs.
    rewrite lookup_Network_hidden, El in Hs. specialize (Hs eq_refl).
    destruct Hl as [(_&_&Hw&_) _], Hl0 as [(_&_&Hw0&_) _].
    rewrite Hw, Hw0 in Hs. congruence.
Qed.

(** X5: the checkpoint cell writes the literals 784 and 10 as input and
    output size, whatever the model.  For a model [i -> hs -> o] with
    another input or output size, [load_checkpoint] therefore rebuilds
    [Network(784, 10, hs)], finds every stored key, and raises on the size
    mismatches: such a model does not survive the round trip. *)
Theorem checkpoint_sizes_are_literals i o hs m (fs : filesystem) g :
  has_architecture i o hs m → i ≠ 784 ∨ o ≠ 10 →
  ∃ rep,
    load_checkpoint "checkpoint.pth" (save_checkpoint m fs) g
    = inl (RuntimeError_load_state_dict rep)
    ∧ missing_keys rep = [] ∧ unexpected_keys rep = []
    ∧ error_msgs rep ≠ [].
Proof.
  intros Hm Hio. pose proof Hm as [Hl Ho].
  rewrite load_saved_checkpoint. unfold widths.
  rewrite (layers_shaped_widths _ _ _ Hl).
  pose proof (Network_init_architecture 784 10 hs g) as Hm0.
  pose proof Hm0 as [Hl0 Ho0].
  pose proof (layers_shaped_length _ _ _ Hl) as Hn.
  pose proof (layers_shaped_length _ _ _ Hl0) as Hn0.
  destruct (load_into_same_depth_keys (Network_init 784 10 hs g) m)
    as [Hmiss Hunexp]; [lia|].
  pose proof (load_other_sizes_errors _ _ _ _ _ _ _ Hm Hm0 Hio) as He.
  unfold load_state_dict.
  destruct (load_into (Network_init 784 10 hs g) (Network_state_dict m))
    as [m' rep].
  cbn [fst snd] in *. rewrite (load_outcome_errors _ He). eauto.
Qed.

Lemma checkpoint_sizes_are_literals_witness :
  ∃ rep,
    load_checkpoint "checkpoint.pth"
      (save_checkpoint (Network_init 3 10 [2] zero_rng) ∅) zero_rng
    = inl (RuntimeError_load_state_dict rep)
    ∧ missing_keys rep = [] ∧ unexpected_keys rep = []
    ∧ error_msgs rep ≠ [].
Proof.
  apply (checkpoint_sizes_are_literals 3 10 [2]).
  - vm_compute. repeat split.
  - left. lia.
Defined.

End Part6CellsFacts.

(** ** Probabilities, accuracy, batches and the bookkeeping of the cells *)

Module Part5CellsFacts.
Import Torch Part5 Part5Cells LoadFacts Part5Facts.

(** *** Sums *)

Lemma sum_nonneg (l : list R) :
  Forall (λ v, 0 <= v)%R l → (0 <= foldr Rplus 0 l)%R.
Proof.
  induction 1 as [|v l Hv _ IH]; simpl; lra.
Qed.

Lemma sum_exp_pos (x : list R) :
  x ≠ [] → (0 < foldr Rplus 0 (exp <$> x))%R.
Proof.
  destruct x as [|v x]; [done|]. intros _. csimpl.
  pose proof (exp_pos v).
  assert (0 <= foldr Rplus 0 (exp <$> x))%R; [|lra].
  apply sum_nonneg, Forall_fmap, Forall_true. intros u. simpl.
  pose proof (exp_pos u). lra.
Qed.

Lemma sum_exp_ge (x : list R) v :
  v ∈ x → (exp v <= foldr Rplus 0 (exp <$> x))%R.
Proof.
  induction x as [|u x IH]; [by intros ?%elem_of_nil|].
  intros [->|Hin]%elem_of_cons; csimpl.
  - assert (0 <= foldr Rplus 0 (exp <$> x))%R; [|lra].
    apply sum_nonneg, Forall_fmap, Forall_true. intros w. simpl.
    pose proof (exp_pos w). lra.
  - pose proof (exp_pos u). specialize (IH Hin). lra.
Qed.

(** *** [log_softmax] gives the logarithms of a probability distribution *)

Lemma exp_log_softmax (x : list R) :
  x ≠ [] →
  exp <$> log_softmax x
  = (λ v, v * / foldr Rplus 0 (exp <$> x))%R <$> (exp <$> x).
Proof.
  intros Hx. unfold log_softmax. rewrite <-!list_fmap_compose.
  apply list_fmap_ext. intros _ v _. simpl.
  unfold Rminus. rewrite exp_plus, exp_Ropp, exp_ln; [done|].
  by apply sum_exp_pos.
Qed.

Lemma exp_log_softmax_bounds (x : list R) :
  Forall (λ v, 0 < v <= 1)%R (exp <$> log_softmax x).
Proof.
  destruct (decide (x = [])) as [->|Hx]; [constructor|].
  rewrite exp_log_softmax by done.
  pose proof (sum_exp_pos x Hx) as HS.
  pose proof (Rinv_0_lt_compat _ HS) as HI.
  assert (foldr Rplus 0%R (exp <$> x) ≠ 0%R) as HN by (intros HN; lra).
  pose proof (Rinv_r _ HN) as HR.
  apply Forall_fmap, Forall_fmap, Forall_forall. intros v Hv.
  pose proof (exp_pos v). pose proof (sum_exp_ge x v Hv).
  set (S := foldr Rplus 0%R (exp <$> x)) in *. cbv beta. unfold compose.
  split; nra.
Qed.

Lemma log_softmax_nonpos (x : list R) :
  Forall (λ v, v <= 0)%R (log_softmax x).
Proof.
  pose proof (exp_log_softmax_bounds x) as H.
  rewrite Forall_fmap in H. eapply Forall_impl; [exact H|].
  intros v [_ Hv]. simpl in Hv.
  destruct (Rle_dec v 0) as [|Hn]; [done|].
  assert (0 < v)%R as Hlt by lra.
  apply exp_increasing in Hlt. rewrite exp_0 in Hlt. lra.
Qed.

Lemma length_log_softmax (x : list R) : length (log_softmax x) = length x.
Proof. unfold log_softmax. by rewrite length_fmap. Qed.

(** *** The shape of the output of a layer *)

Lemma length_rows n cols d : length (rows n cols d) = n.
Proof.
  revert d. induction n as [|n IH]; intros d; simpl; [done|]. by rewrite IH.
Qed.

Lemma length_Linear_forward l x :
  length (Linear_forward l x)
  = out_features l `min` length (data (bias l)).
Proof.
  unfold Linear_forward. by rewrite length_zip_with, length_fmap, length_rows.
Qed.

Lemma length_relu x : length (relu x) = length x.
Proof. unfold relu. by rewrite length_fmap. Qed.

Lemma length_Dropout_forward d mode keep x :
  length (Dropout_forward d mode keep x) = length x.
Proof.
  unfold Dropout_forward. destruct mode; [|done]. by rewrite length_imap.
Qed.

Lemma nn_Linear_sized i o g : Linear_sized i o (nn_Linear i o g).1.
Proof.
  unfold nn_Linear, rand, Linear_sized.
  cbn [fst in_features out_features weight bias data].
  by rewrite !length_fmap, !length_seq.
Qed.

Lemma Linear_zero_weights_sized i o b :
  length b = o → Linear_sized i o (Linear_zero_weights i o b).
Proof.
  intros Hb. unfold Linear_zero_weights, Linear_sized.
  cbn [in_features out_features weight bias data].
  by rewrite length_replicate.
Qed.

Lemma Classifier_init_shaped g : Classifier_shaped (Classifier_init g).
Proof.
  unfold Classifier_init, Classifier_shaped.
  pose proof (nn_Linear_sized 784 256 g) as H1.
  destruct (nn_Linear 784 256 g) as [l1 g1].
  pose proof (nn_Linear_sized 256 128 g1) as H2.
  destruct (nn_Linear 256 128 g1) as [l2 g2].
  pose proof (nn_Linear_sized 128 64 g2) as H3.
  destruct (nn_Linear 128 64 g2) as [l3 g3].
  pose proof (nn_Linear_sized 64 10 g3) as H4.
  destruct (nn_Linear 64 10 g3) as [l4 g4].
  done.
Qed.

(** A layer called on an input of its size gives [Linear_forward], with
    [out_features] entries. *)
Lemma Linear_call_sized i o l x :
  Linear_sized i o l → length x = i →
  Linear_call l x = inr (Linear_forward l x)
  ∧ length (Linear_forward l x) = o.
Proof.
  intros (Hi&Ho&_&Hb) Hx. unfold Linear_call.
  rewrite decide_True by congruence. split; [done|].
  rewrite length_Linear_forward, Ho, Hb. lia.
Qed.

Lemma Linear_call_raises i o l x :
  Linear_sized i o l → length x ≠ i → ∃ e, Linear_call l x = inl e.
Proof.
  intros (Hi&_) Hx. unfold Linear_call.
  rewrite decide_False by congruence. by eexists.
Qed.

Lemma Classifier_call_shaped c mode keep x :
  Classifier_shaped c → length x = 784 →
  Classifier_call c mode keep x = inr (Classifier_forward c mode keep x)
  ∧ Classifier_call_plain c mode keep x
    = inr (Classifier_forward_plain c mode keep x)
  ∧ length (Classifier_forward c mode keep x) = 10
  ∧ length (Classifier_forward_plain c mode keep x) = 10.
Proof.
  intros (H1&H2&H3&H4) Hx.
  unfold Classifier_call, Classifier_call_plain, Classifier_forward,
    Classifier_forward_plain. cbv zeta.
  destruct (Linear_call_sized _ _ _ x H1 Hx) as [-> L1].
  set (x1 := Linear_forward (fc1 c) x) in *.
  assert (length (Dropout_forward (dropout c) mode (keep 0) (relu x1)) = 256)
    as D1 by (by rewrite length_Dropout_forward, length_relu).
  assert (length (relu x1) = 256) as P1 by (by rewrite length_relu).
  destruct (Linear_call_sized _ _ _ _ H2 D1) as [-> L2].
  destruct (Linear_call_sized _ _ _ _ H2 P1) as [-> L2'].
  set (x2 := Linear_forward (fc2 c) _) in L2 |- *.
  set (x2' := Linear_forward (fc2 c) (relu x1)) in *.
  assert (length (Dropout_forward (dropout c) mode (keep 1) (relu x2)) = 128)
    as D2 by (by rewrite length_Dropout_forward, length_relu).
  assert (length (relu x2') = 128) as P2 by (by rewrite length_relu).
  destruct (Linear_call_sized _ _ _ _ H3 D2) as [-> L3].
  destruct (Linear_call_sized _ _ _ _ H3 P2) as [-> L3'].
  set (x3 := Linear_forward (fc3 c) _) in L3 |- *.
  set (x3' := Linear_forward (fc3 c) (relu x2')) in *.
  assert (length (Dropout_forward (dropout c) mode (keep 2) (relu x3)) = 64)
    as D3 by (by rewrite length_Dropout_forward, length_relu).
  assert (length (relu x3') = 64) as P3 by (by rewrite length_relu).
  destruct (Linear_call_sized _ _ _ _ H4 D3) as [-> L4].
  destruct (Linear_call_sized _ _ _ _ H4 P3) as [-> L4'].
  by rewrite !length_log_softmax.
Qed.

Lemma Classifier_call_raises c mode keep x :
  Classifier_shaped c → length x ≠ 784 →
  (∃ e, Classifier_call c mode keep x = inl e)
  ∧ (∃ e, Classifier_call_plain c mode keep x = inl e).
Proof.
  intros (H1&_) Hx. unfold Classifier_call, Classifier_call_plain.
  destruct (Linear_call_raises _ _ _ x H1 Hx) as [e ->].
  split; by exists e.
Qed.

Lemma exp_log_softmax_unit (x : list R) :
  Forall (λ v, 0 <= v <= 1)%R (exp <$> log_softmax x).
Proof.
  eapply Forall_impl; [apply exp_log_softmax_bounds|].
  intros v. simpl. lra.
Qed.

(** X7: [ps = torch.exp(model(images))] lie between 0 and 1.  A freshly
    constructed [Classifier()], with or without dropout, in either mode and
    whatever the dropout draws, called on a flattened image of 784 pixels
    returns the output of [forward], which has 10 entries, none above 0,
    and whose exponentials are between 0 and 1; called on an input of
    another length it raises. *)
Theorem classifier_outputs_log_probabilities g mode keep x :
  (length x = 784 →
   ∃ log_ps log_ps',
     Classifier_call (Classifier_init g) mode keep x = inr log_ps
     ∧ Classifier_call_plain (Classifier_init g) mode keep x = inr log_ps'
     ∧ log_ps = Classifier_forward (Classifier_init g) mode keep x
     ∧ log_ps' = Classifier_forward_plain (Classifier_init g) mode keep x
     ∧ length log_ps = 10 ∧ length log_ps' = 10
     ∧ Forall (λ v, v <= 0)%R log_ps ∧ Forall (λ v, v <= 0)%R log_ps'
     ∧ Forall (λ v, 0 <= v <= 1)%R (exp <$> log_ps)
     ∧ Forall (λ v, 0 <= v <= 1)%R (exp <$> log_ps'))
  ∧ (length x ≠ 784 →
     (∃ e, Classifier_call (Classifier_init g) mode keep x = inl e)
     ∧ (∃ e, Classifier_call_plain (Classifier_init g) mode keep x = inl e)).
Proof.
  pose proof (Classifier_init_shaped g) as Hc. split.
  - intros Hx.
    destruct (Classifier_call_shaped _ mode keep x Hc Hx) as (E&E'&L&L').
    eexists _, _. split; [exact E|]. split; [exact E'|].
    split; [done|]. split; [done|]. split; [exact L|]. split; [exact L'|].
    split_and!; try apply log_softmax_nonpos; apply exp_log_softmax_unit.
  - by apply Classifier_call_raises.
Qed.

Lemma classifier_outputs_log_probabilities_witness :
  ∃ log_ps,
    Classifier_call (Classifier_init (λ _, 0%R)) true (λ _ _, true)
      (view_flat blank_image) = inr log_ps
    ∧ length log_ps = 10
    ∧ Forall (λ v, v <= 0)%R log_ps
    ∧ Forall (λ v, 0 <= v <= 1)%R (exp <$> log_ps).
Proof.
  destruct (classifier_outputs_log_probabilities (λ _, 0%R) true
              (λ _ _, true) (view_flat blank_image)) as [H _].
  destruct H as (log_ps&_&E&_&_&_&L&_&N&_&U&_); [reflexivity|].
  by exists log_ps.
Defined.

(** *** The loss *)

Lemma NLLLoss_nonneg (log_ps : list (list R)) targets :
  Forall (Forall (λ v, v <= 0)%R) log_ps → (0 <= NLLLoss log_ps targets)%R.
Proof.
  intros HF. unfold NLLLoss.
  assert (0 <= foldr Rplus 0
                 (zip_with (λ row t, - nth t row 0) log_ps targets))%R as Hs.
  { apply sum_nonneg. revert targets.
    induction HF as [|row log_ps Hrow HF IH]; intros [|t targets]; simpl;
      try constructor; [|apply IH].
    destruct (nth_in_or_default t row 0%R) as [Hin| ->]; [|lra].
    rewrite Forall_forall in Hrow. apply list_elem_of_In, Hrow in Hin. lra. }
  destruct log_ps as [|row log_ps].
  - simpl. lra.
  - assert (0 < INR (length (row :: log_ps)))%R as Hn.
    { apply lt_0_INR. simpl. lia. }
    apply Rinv_0_lt_compat in Hn. unfold Rdiv. nra.
Qed.

Lemma call_rows_shaped (call : nat → list R → exn + list R) n xs :
  (∀ k x, x ∈ xs →
          ∃ row, call k x = inr row ∧ length row = 10
                 ∧ Forall (λ v, v <= 0)%R row) →
  ∃ rows, call_rows call n xs = inr rows
          ∧ length rows = length xs
          ∧ Forall (λ row, length row = 10) rows
          ∧ Forall (Forall (λ v, v <= 0)%R) rows.
Proof.
  revert n. induction xs as [|x xs IH]; intros n H; cbn [call_rows].
  - exists []. by repeat split.
  - destruct (H n x) as (row&->&Hlen&Hrow); [by left|].
    destruct (IH (S n)) as (rows&->&Hn&Hl&Hr).
    { intros k y Hy. apply H. by right. }
    exists (row :: rows). split; [done|]. split; [by simpl; rewrite Hn|].
    split; by constructor.
Qed.

Lemma NLLLoss_call_loss (log_ps : list (list R)) targets :
  log_ps ≠ [] → length targets = length log_ps →
  Forall (λ row, length row = 10) log_ps →
  Forall (λ t, t < 10) targets →
  NLLLoss_call log_ps targets = Loss (NLLLoss log_ps targets).
Proof.
  intros Hne Hlen Hrows Ht. unfold NLLLoss_call.
  rewrite decide_True by done. rewrite decide_True.
  - by destruct log_ps.
  - clear Hne. revert targets Hlen Ht.
    induction Hrows as [|row log_ps Hrow _ IH]; intros [|t targets] Hlen Ht;
      try done; try (by constructor).
    apply Forall_cons in Ht as [Ht1 Ht2]. constructor.
    + by rewrite Hrow.
    + apply IH; [by injection Hlen|done].
Qed.

(** X13: the loss [criterion(log_ps, labels)] of the output of a
    classifier is never negative.  For a classifier with the layers of
    [Classifier()], whatever the values of its parameters, the mode and
    the dropout draws, on a batch that is not empty of flattened images of
    784 pixels with one label below 10 per image, the model returns its
    output, the criterion returns a number, and that number is not
    negative; this holds with and without dropout. *)
Theorem classifier_loss_is_not_negative c mode
    (draws : nat → nat → nat → bool) (xs : list (list R)) targets :
  Classifier_shaped c →
  xs ≠ [] → Forall (λ x, length x = 784) xs →
  length targets = length xs → Forall (λ t, t < 10) targets →
  (∃ log_ps v,
     call_rows (λ n, Classifier_call c mode (draws n)) 0 xs = inr log_ps
     ∧ NLLLoss_call log_ps targets = Loss v ∧ (0 <= v)%R)
  ∧ (∃ log_ps v,
       call_rows (λ n, Classifier_call_plain c mode (draws n)) 0 xs
       = inr log_ps
       ∧ NLLLoss_call log_ps targets = Loss v ∧ (0 <= v)%R).
Proof.
  intros Hc Hne Hxs Hlen Ht. rewrite Forall_forall in Hxs.
  assert (∀ call : nat → list R → exn + list R,
            (∀ k x, x ∈ xs →
                    ∃ row, call k x = inr row ∧ length row = 10
                           ∧ Forall (λ v, v <= 0)%R row) →
            ∃ log_ps v, call_rows call 0 xs = inr log_ps
                        ∧ NLLLoss_call log_ps targets = Loss v ∧ (0 <= v)%R)
    as Hcall.
  { intros call H.
    destruct (call_rows_shaped call 0 xs H) as (rows&E&Hn&Hl&Hr).
    exists rows, (NLLLoss rows targets). split; [exact E|]. split.
    - apply NLLLoss_call_loss; [|congruence|done..].
      intros ->. by destruct xs.
    - by apply NLLLoss_nonneg. }
  split; apply Hcall; intros k x Hx;
    destruct (Classifier_call_shaped c mode (draws k) x Hc (Hxs x Hx))
      as (E&E'&L&L'); eexists; (split; [eassumption|]);
    (split; [done|apply log_softmax_nonpos]).
Qed.

Lemma constant_classifier_shaped : Classifier_shaped constant_classifier.
Proof.
  unfold Classifier_shaped, constant_classifier. cbn [fc1 fc2 fc3 fc4].
  split_and!; apply Linear_zero_weights_sized; try apply length_replicate.
  reflexivity.
Qed.

Lemma classifier_loss_is_not_negative_witness :
  ∃ log_ps v,
    call_rows (λ n, Classifier_call constant_classifier true (λ _ _, true))
      0 [view_flat blank_image; view_flat blank_image] = inr log_ps
    ∧ NLLLoss_call log_ps [3; 7] = Loss v ∧ (0 <= v)%R.
Proof.
  apply (classifier_loss_is_not_negative constant_classifier true
           (λ _ _ _, true) [view_flat blank_image; view_flat blank_image]
           [3; 7]).
  - apply constant_classifier_shaped.
  - discriminate.
  - by repeat constructor.
  - reflexivity.
  - repeat constructor; lia.
Defined.

(** *** The most likely class *)

(** What the scan returns: the position of a value no smaller than the best
    so far and than every entry; it is the position of the best so far
    when no entry is larger, and otherwise that of the first entry that no
    other one exceeds. *)
Lemma argmax_from_spec best best_i i row :
  ∃ v, (best <= v)%R
       ∧ (∀ u, u ∈ row → (u <= v)%R)
       ∧ ((argmax_from best best_i i row = best_i ∧ v = best)
          ∨ (∃ j, argmax_from best best_i i row = i + j
                  ∧ row !! j = Some v ∧ (best < v)%R
                  ∧ ∀ j' u, j' < j → row !! j' = Some u → (u < v)%R)).
Proof.
  revert best best_i i. induction row as [|x row IH]; intros best best_i i;
    cbn [argmax_from].
  - exists best. split_and!; [lra|by intros u ?%elem_of_nil|by left].
  - destruct (Rlt_dec best x) as [Hlt|Hge].
    + destruct (IH x i (S i)) as (v&H1&H2&H3). exists v.
      split_and!; [lra| |].
      * intros u [->|Hu]%elem_of_cons; [done|by apply H2].
      * right. destruct H3 as [[E ->]|(j&Ej&Hj&Hb&Hfirst)].
        -- exists 0. split_and!; [lia|done|done|lia].
        -- exists (S j). split_and!; [lia|done|lra|].
           intros [|j'] u Hlt'; simpl.
           ++ intros [= <-]. lra.
           ++ apply Hfirst. lia.
    + destruct (IH best best_i (S i)) as (v&H1&H2&H3). exists v.
      split_and!; [done| |].
      * intros u [->|Hu]%elem_of_cons; [lra|by apply H2].
      * destruct H3 as [E|(j&Ej&Hj&Hb&Hfirst)]; [by left|right].
        exists (S j). split_and!; [lia|done|done|].
        intros [|j'] u Hlt'; simpl.
        -- intros [= <-]. lra.
        -- apply Hfirst. lia.
Qed.

(** X9: [output.argmax(-1)] names the first largest entry: on a row that
    is not empty, [argmax row] is a position of the row, no entry of the
    row is larger than the one there, and every entry before it is
    smaller. *)
Theorem argmax_is_the_first_largest row :
  row ≠ [] →
  ∃ v, row !! argmax row = Some v
       ∧ largest_at row (argmax row)
       ∧ ∀ j u, j < argmax row → row !! j = Some u → (u < v)%R.
Proof.
  destruct row as [|x row]; [done|]. intros _. cbn [argmax].
  destruct (argmax_from_spec x 0 1 row) as (v&H1&H2&H3).
  assert (∀ u, u ∈ x :: row → (u <= v)%R) as Hmax.
  { intros u [->|Hu]%elem_of_cons; [done|by apply H2]. }
  destruct H3 as [[-> ->]|(j&->&Hj&Hb&Hfirst)].
  - exists x. split_and!; [done|by exists x|lia].
  - exists v. split_and!; [done|by exists v|].
    intros [|j'] u Hlt'; simpl.
    + intros [= <-]. lra.
    + apply Hfirst. lia.
Qed.

Lemma argmax_is_the_first_largest_witness :
  ∃ v, [1; 3; 2; 3]%R !! argmax [1; 3; 2; 3]%R = Some v
       ∧ largest_at [1; 3; 2; 3]%R (argmax [1; 3; 2; 3]%R)
       ∧ ∀ j u, j < argmax [1; 3; 2; 3]%R →
                [1; 3; 2; 3]%R !! j = Some u → (u < v)%R.
Proof. apply (argmax_is_the_first_largest [1; 3; 2; 3]%R). discriminate. Defined.

(** *** The mean of a tensor of booleans *)

Lemma sum_indicator (equals : list bool) :
  foldr Rplus 0%R ((λ b : bool, if b then 1 else 0)%R <$> equals)
  = INR (count_true equals).
Proof.
  unfold count_true. induction equals as [|b equals IH]; [done|].
  csimpl. rewrite IH. destruct b.
  - rewrite filter_cons_True by done. simpl length. rewrite S_INR. lra.
  - rewrite filter_cons_False by done. lra.
Qed.

Lemma count_true_le (equals : list bool) :
  (count_true equals ≤ length equals)%nat.
Proof. apply length_filter. Qed.

(** X10: the accuracy [torch.mean(equals.type(torch.FloatTensor))] of a
    batch that is not empty is the number of correct predictions divided by
    the number of examples (as in the printed [10.9375%], 7 of 64); it lies
    between 0 and 1, and it is 1 exactly when every prediction is
    correct. *)
Theorem accuracy_is_a_fraction (equals : list bool) :
  equals ≠ [] →
  mean_float equals = (INR (count_true equals) / INR (length equals))%R
  ∧ (0 <= mean_float equals <= 1)%R
  ∧ (mean_float equals = 1%R ↔ Forall (λ b, b = true) equals).
Proof.
  intros Hne. unfold mean_float. rewrite sum_indicator.
  pose proof (count_true_le equals) as Hle. apply le_INR in Hle.
  pose proof (pos_INR (count_true equals)) as H0.
  assert (0 < INR (length equals))%R as Hn.
  { apply lt_0_INR. destruct equals; [done|simpl; lia]. }
  pose proof (Rinv_0_lt_compat _ Hn) as Hi.
  assert (INR (length equals) ≠ 0%R) as Hnz by (intros E; lra).
  pose proof (Rinv_r _ Hnz) as Hr.
  set (n := INR (length equals)) in *. set (k := INR (count_true equals)) in *.
  unfold Rdiv. split; [done|]. split; [nra|].
  split.
  - intros E. assert (k = n) as Hkn by nra. subst k n.
    apply INR_eq in Hkn. unfold count_true in Hkn.
    clear -Hkn. induction equals as [|b equals IH]; [constructor|].
    destruct b.
    + rewrite filter_cons_True in Hkn by done. simpl in Hkn.
      constructor; [done|]. apply IH. lia.
    + rewrite filter_cons_False in Hkn by done. simpl in Hkn.
      pose proof (length_filter (λ b : bool, b = true) equals). lia.
  - intros HF. assert (k = n) as ->; [|done]. subst k n. f_equal.
    unfold count_true. clear -HF.
    induction HF as [|b equals -> _ IH]; [done|].
    rewrite filter_cons_True by done. simpl. by rewrite IH.
Qed.

Lemma accuracy_is_a_fraction_witness :
  mean_float [true; false; false; true]
  = (INR (count_true [true; false; false; true])
     / INR (length [true; false; false; true]))%R
  ∧ (0 <= mean_float [true; false; false; true] <= 1)%R
  ∧ (mean_float [true; false; false; true] = 1%R
     ↔ Forall (λ b, b = true) [true; false; false; true]).
Proof. apply accuracy_is_a_fraction. discriminate. Defined.


(** *** The batches of a loader *)

Lemma concat_chunks {A} n bs (l : list A) :
  (length l ≤ n * bs)%nat → concat (chunks n bs l) = l.
Proof.
  revert l. induction n as [|n IH]; intros l Hl; simpl.
  - destruct l; [done|simpl in Hl; lia].
  - rewrite IH; [apply take_drop|]. rewrite length_drop. lia.
Qed.

Lemma chunks_bounds {A} n bs (l : list A) :
  (0 < bs)%nat → (n = 0 ∨ (n - 1) * bs < length l)%nat →
  Forall (λ c, 0 < length c ≤ bs)%nat (chunks n bs l).
Proof.
  intros Hbs. revert l. induction n as [|n IH]; intros l Hl; simpl.
  - constructor.
  - destruct Hl as [?|Hl]; [lia|]. constructor.
    + rewrite length_take. replace (S n - 1) with n in Hl by lia. lia.
    + apply IH. rewrite length_drop. destruct n as [|n]; [by left|right].
      replace (S (S n) - 1) with (S n) in Hl by lia. simpl in *. lia.
Qed.

Lemma len_covers dl :
  (0 < batch_size dl)%nat →
  (length (dataset dl) ≤ len dl * batch_size dl)%nat
  ∧ (len dl = 0 ∨ (len dl - 1) * batch_size dl < length (dataset dl))%nat.
Proof.
  intros Hbs. unfold len.
  set (n := length (dataset dl)). set (bs := batch_size dl) in *.
  pose proof (Nat.div_mod_eq (n + bs - 1) bs) as Hd.
  pose proof (Nat.mod_upper_bound (n + bs - 1) bs ltac:(lia)) as Hm.
  set (q := (n + bs - 1) / bs) in *. set (r := (n + bs - 1) mod bs) in *.
  split; [nia|]. destruct q as [|q]; [by left|right].
  replace (S q - 1) with q by lia. nia.
Qed.

Lemma concat_fmap_fmap {A B} (f : A → B) (ls : list (list A)) :
  concat ((λ c : list A, f <$> c) <$> ls) = f <$> concat ls.
Proof.
  induction ls as [|c ls IH]; csimpl; [done|]. by rewrite IH, fmap_app.
Qed.

Section Loader.

Context {P O : Type} {lib : Library P O}.

(** X11: a loader with a positive batch size yields every example of the
    (shuffled) data set exactly once, in order: the images and the labels
    of its batches, put end to end, are those of the data set as the
    permutation left it.  Every batch is on the CPU, holds as many labels
    as images, at least one example and at most [batch_size] of them. *)
Theorem loader_yields_every_example_once dl s :
  (0 < batch_size dl)%nat →
  let l := if shuffle dl then randperm s (dataset dl) else dataset dl in
  length l = length (dataset dl) →
  concat (images <$> loader_batches dl s) = l.*1
  ∧ concat (labels <$> loader_batches dl s) = l.*2
  ∧ Forall (λ b, on b = CPU ∧ length (labels b) = length (images b)
                 ∧ (0 < length (images b) ≤ batch_size dl)%nat)
      (loader_batches dl s).
Proof.
  intros Hbs l Hlen. destruct (len_covers dl Hbs) as [Hcov Hlast].
  unfold loader_batches. fold l. rewrite <-!list_fmap_compose.
  split_and!.
  - rewrite <-(concat_chunks (len dl) (batch_size dl) l) at 2 by lia.
    by rewrite <-concat_fmap_fmap.
  - rewrite <-(concat_chunks (len dl) (batch_size dl) l) at 2 by lia.
    by rewrite <-concat_fmap_fmap.
  - apply Forall_fmap.
    eapply Forall_impl; [apply (chunks_bounds _ _ l Hbs); lia|].
    intros c Hc. simpl. by rewrite !length_fmap.
Qed.

End Loader.

Lemma loader_yields_every_example_once_witness :
  concat (images <$> loader_batches (lib := still_library) small_trainloader 0)
  = (dataset small_trainloader).*1
  ∧ concat (labels <$> loader_batches (lib := still_library)
                         small_trainloader 0)
    = (dataset small_trainloader).*2
  ∧ Forall (λ b, on b = CPU ∧ length (labels b) = length (images b)
                 ∧ (0 < length (images b) ≤ 2)%nat)
      (loader_batches (lib := still_library) small_trainloader 0).
Proof.
  apply (loader_yields_every_example_once (lib := still_library)
           small_trainloader 0).
  - simpl. lia.
  - reflexivity.
Defined.


(** *** The gradient of [z = (x**2).mean()] *)

Lemma derivable_pt_lim_ext (f g : R → R) x l :
  (∀ t, f t = g t) → derivable_pt_lim g x l → derivable_pt_lim f x l.
Proof.
  intros Hfg Hg eps Heps. destruct (Hg eps Heps) as [delta H].
  exists delta. intros h Hh Hd. rewrite !Hfg. by apply H.
Qed.

Lemma square_cons v (x : list R) : square (v :: x) = (v ^ 2)%R :: square x.
Proof. done. Qed.

Lemma sum_square_insert (x : list R) i t :
  (i < length x)%nat →
  foldr Rplus 0%R (square (<[i := t]> x))
  = (t ^ 2 + (foldr Rplus 0 (square x) - nth i x 0 ^ 2))%R.
Proof.
  revert i. induction x as [|v x IH]; intros i Hi.
  - simpl in Hi. lia.
  - destruct i as [|i].
    + change (<[0 := t]> (v :: x)) with (t :: x).
      rewrite !square_cons. cbn [foldr nth]. ring.
    + change (<[S i := t]> (v :: x)) with (v :: <[i := t]> x).
      rewrite !square_cons. cbn [foldr nth].
      rewrite IH by (simpl in Hi; lia). ring.
Qed.

Lemma z_along_derivative (x : list R) i :
  (i < length x)%nat →
  derivable_pt_lim (z_along x i) (nth i x 0%R)
    (2 * nth i x 0 / INR (length x))%R.
Proof.
  intros Hi.
  set (C := (foldr Rplus 0 (square x) - nth i x 0 ^ 2)%R).
  apply (derivable_pt_lim_ext _
           (λ t, ((λ y, y ^ 2) + fct_cte C)%F t / INR (length x))%R).
  - intros t. unfold z_along, mean.
    rewrite sum_square_insert by done.
    unfold square. rewrite length_fmap, length_insert.
    unfold plus_fct, fct_cte. done.
  - replace (2 * nth i x 0 / INR (length x))%R
      with ((INR 2 * nth i x 0 ^ Init.Nat.pred 2 + 0) / INR (length x))%R
      by (simpl; field; apply not_0_INR; lia).
    apply derivable_pt_lim_div_scal, derivable_pt_lim_plus.
    + apply derivable_pt_lim_pow.
    + apply derivable_pt_lim_const.
Qed.

(** X17: the gradient the autograd cells print.  For [y = x**2] and
    [z = y.mean()], the derivative of [z] in entry [i] of [x] is
    [2 * x_i / n] for a tensor of [n] entries; for the [2 x 2] tensor of
    the notebook it is [x_i / 2], which is why [x.grad] and [x/2] print the
    same. *)
Theorem gradient_of_mean_of_squares (x : list R) i :
  (i < length x)%nat →
  derivable_pt_lim (z_along x i) (nth i x 0%R)
    (2 * nth i x 0 / INR (length x))%R
  ∧ (length x = 4 →
     derivable_pt_lim (z_along x i) (nth i x 0%R) (nth i x 0 / 2)%R).
Proof.
  intros Hi. split; [by apply z_along_derivative|].
  intros Hn. pose proof (z_along_derivative x i Hi) as H.
  rewrite Hn in H.
  replace (nth i x 0 / 2)%R with (2 * nth i x 0 / INR 4)%R;
    [done|simpl; field].
Qed.

Lemma gradient_of_mean_of_squares_witness :
  derivable_pt_lim (z_along [1; -2; 3; 4]%R 1) (-2)%R
    (2 * -2 / INR 4)%R
  ∧ (length [1; -2; 3; 4]%R = 4 →
     derivable_pt_lim (z_along [1; -2; 3; 4]%R 1) (-2)%R (-2 / 2)%R).
Proof.
  apply (gradient_of_mean_of_squares [1; -2; 3; 4]%R 1). simpl. lia.
Defined.


(** *** The bookkeeping of the training cell *)




Section Bookkeeping.

Context {P O : Type} {lib : Library P O}.
Implicit Types w : @world P O.


End Bookkeeping.



Section Epochs.

Context {P O : Type} {lib : Library P O}.
Implicit Types w : @world P O.




End Epochs.



(** *** Gradients, the inference cell and the reported accuracy *)



Section Gradients.

Context {P O : Type} {lib : Library P O}.
Implicit Types w : @world P O.

(** X15: what [optimizer.zero_grad()] is for.  [backward] adds the
    gradient of the loss to the gradient already stored, so two backward
    passes leave the sum of both gradients; in the training batch the
    stored gradient is zeroed first, so that (adding to zeros being
    neutral) after the batch the stored gradient is that of this batch
    alone, whatever was stored before, and the step of the optimizer is
    taken along it. *)
Theorem zero_grad_discards_old_gradients b rl w :
  cuda_is_available w = true → model_on w = CUDA →
  (∀ g0, grads w = Some g0 →
         grad_add (grad_zeros g0) (batch_gradient w b) = batch_gradient w b) →
  grads (train_batch b rl w).2 = Some (batch_gradient w b)
  ∧ params (train_batch b rl w).2
    = (optim_update (optim w) (params w) (batch_gradient w b)).2
  ∧ (∀ loss f, grad_fn loss = Some f →
       grads (Part5.bind (backward loss) (λ _, backward loss) w).2
       = Some (grad_add
                 (match grads w with
                  | Some g0 => grad_add g0 (autograd f (params w))
                  | None => autograd f (params w)
                  end)
                 (autograd f (params w)))).
Proof.
  intros Hc Hd Hz. split_and!.
  - unfold train_batch, bind, batch_cuda. rewrite Hc.
    unfold bind, log, ret, optimizer_zero_grad, model_call. simpl.
    rewrite Hd. simpl.
    unfold optimizer_step, bind. simpl.
    destruct (grads w) as [g0|] eqn:Eg; simpl.
    + destruct (optim_update _ _ _) as [o' ps'] eqn:E. simpl.
      f_equal. by apply Hz.
    + by destruct (optim_update _ _ _) as [o' ps'] eqn:E.
  - rewrite train_batch_params, Hc, Hd. simpl.
    destruct (grads w) as [g0|] eqn:Eg; simpl; [|done].
    by rewrite Hz.
  - intros loss f Hf. unfold Part5.bind, backward. rewrite Hf. done.
Qed.


(** X16: the inference cell.  Because of [model.eval().cpu()] the cell
    works wherever the training cell left the model and whether or not CUDA
    is available.  With a positive batch size: on an empty data set the
    iterator raises [StopIteration]; otherwise, from the first example
    [img] of the (shuffled) data set, [img.view(1, 784)] raises
    unless the image has 784 pixels, and with 784 pixels the cell returns
    one row, the exponentials of the output of the model on that image in
    evaluation mode, leaves the parameters, the gradients and the optimizer
    as they were, and the model on the CPU in evaluation mode. *)
Theorem inference_cell_outcome dl w :
  (0 < batch_size dl)%nat →
  let l := if shuffle dl then randperm (rng_state w) (dataset dl)
           else dataset dl in
  let s := (if shuffle dl then 1 else 0) + rng_state w in
  (dataset dl = [] → (inference_cell dl w).1 = inl StopIteration)
  ∧ (∀ img lbl rest,
       dataset dl ≠ [] → l = (img, lbl) :: rest →
       (length (view_flat img) ≠ 784 →
        ∃ what, (inference_cell dl w).1 = inl (Raised (RuntimeError what)))
       ∧ (length (view_flat img) = 784 →
          ∃ w', inference_cell dl w
                = (inr [exp <$> model_forward (params w) false
                                  (bernoulli s 0) (view_flat img)], w')
            ∧ params w' = params w ∧ grads w' = grads w
            ∧ optim w' = optim w
            ∧ model_on w' = CPU ∧ training w' = false)).
Proof.
  intros Hbs l s.
  unfold inference_cell, Part5.bind, set_training, model_to, iterate.
  cbn [rng_state cuda_is_available params grads training model_on optim
       trace stdout].
  split.
  - intros Hds. unfold loader_batches, len. rewrite Hds. simpl length.
    rewrite Nat.div_small by lia. by destruct (shuffle dl).
  - intros img lbl rest Hds Hl.
    pose proof (len_pos dl Hds Hbs) as Hp.
    assert (∃ b bs, loader_batches dl (rng_state w) = b :: bs
                    ∧ on b = CPU
                    ∧ ∃ imgs, images b = img :: imgs) as (b&bs&Eb&Hon&imgs&Ei).
    { unfold loader_batches. fold l. rewrite Hl.
      destruct (len dl) as [|n]; [lia|]. cbn [chunks].
      destruct (batch_size dl) as [|k]; [lia|]. csimpl.
      eexists _, _. split; [reflexivity|]. split; [done|]. by eexists. }
    rewrite Eb, Ei. unfold view_1_784. split.
    + intros Hn. rewrite decide_False by done. by eexists.
    + intros Hn. rewrite decide_True by done.
      unfold model_call. rewrite Hon. subst s.
      destruct (shuffle dl); cbn; (eexists; split; [reflexivity|done]).
Qed.

End Gradients.


Lemma zero_grad_discards_old_gradients_witness :
  let w : @world R () := World true 1%R (Some 5%R) true CUDA () 0 [] [] in
  let b := collate [(blank_image, 0)] in
  grads (train_batch (lib := scalar_library) b 0%R w).2
  = Some (batch_gradient (lib := scalar_library) w b)
  ∧ params (train_batch (lib := scalar_library) b 0%R w).2
    = (optim_update (Library := scalar_library) (optim w) (params w)
         (batch_gradient (lib := scalar_library) w b)).2
  ∧ (∀ loss f, grad_fn loss = Some f →
       grads (Part5.bind (backward (lib := scalar_library) loss)
                (λ _, backward (lib := scalar_library) loss) w).2
       = Some (grad_add (Library := scalar_library)
                 (match grads w with
                  | Some g0 => grad_add (Library := scalar_library) g0
                                 (autograd (Library := scalar_library) f
                                    (params w))
                  | None => autograd (Library := scalar_library) f (params w)
                  end)
                 (autograd (Library := scalar_library) f (params w)))).
Proof.
  apply (zero_grad_discards_old_gradients (lib := scalar_library)).
  - reflexivity.
  - reflexivity.
  - intros g0 _. apply Rplus_0_l.
Defined.


Lemma inference_cell_outcome_witness :
  let w := start_world true CUDA constant_classifier in
  ∃ w',
    inference_cell (lib := still_library) small_trainloader w
    = (inr [exp <$> model_forward (Library := still_library) (params w) false
                      (bernoulli (Library := still_library) (1 + rng_state w)
                         0)
                      (view_flat blank_image)], w')
    ∧ params w' = params w ∧ grads w' = grads w ∧ optim w' = optim w
    ∧ model_on w' = CPU ∧ training w' = false.
Proof.
  intros w.
  destruct (inference_cell_outcome (lib := still_library) small_trainloader w)
    as [_ H]; [simpl; lia|].
  destruct (H blank_image 0 (replicate 2 (blank_image, 0))) as [_ H'];
    [discriminate|reflexivity|].
  apply H'. vm_compute. reflexivity.
Defined.


Section CpuLoop.

Context {P O : Type} {lib : Library P O}.
Implicit Types w : @world P O.

(** X20: the loop of the training notebook never moves anything to a
    device, so it needs the model on the CPU, where the loader puts the
    batches.  With the model on the GPU, at least one epoch and a training
    set that is not empty, the first forward pass raises the [RuntimeError]
    of tensors on different devices: the images have been flattened and
    the gradients zeroed, but no parameter has changed and nothing has been
    printed. *)
Theorem training_loop_needs_the_model_on_the_cpu epochs tl w :
  model_on w = CUDA →
  (0 < epochs)%nat → dataset tl ≠ [] → (0 < batch_size tl)%nat →
  ∃ w', training_loop_cpu epochs tl w
        = (inl (RuntimeError "tensors on different devices"), w')
    ∧ params w' = params w
    ∧ stdout w' = stdout w
    ∧ trace w' = trace w ++ [EvView; EvZeroGrad].
Proof.
  intros Hd He Hds Hbs. unfold training_loop_cpu.
  destruct epochs as [|n]; [lia|]. cbn [seq for_each].
  unfold Part5.bind at 1, epoch_body_cpu, Part5.bind at 1, iterate.
  pose proof (length_loader_batches tl (rng_state w)) as Hl.
  pose proof (len_pos tl Hds Hbs) as Hp.
  pose proof (loader_batches_on_cpu tl (rng_state w)) as Hon.
  destruct (loader_batches tl (rng_state w)) as [|b bs] eqn:Eb;
    [simpl in Hl; lia|].
  apply Forall_cons in Hon as [Hb _].
  unfold Part5.bind at 1. cbn [for_each].
  unfold Part5.bind at 1, train_batch_cpu, Part5.bind at 1, log.
  unfold Part5.bind at 1, optimizer_zero_grad.
  unfold Part5.bind at 1, model_call. rewrite Hb.
  destruct (shuffle tl); cbn; rewrite Hd; cbn;
    (eexists; split; [reflexivity|]); cbn; by rewrite <-app_assoc.
Qed.

End CpuLoop.

Lemma training_loop_needs_the_model_on_the_cpu_witness :
  let w := start_world true CUDA constant_classifier in
  ∃ w', training_loop_cpu (lib := still_library) 5 small_trainloader w
        = (inl (RuntimeError "tensors on different devices"), w')
    ∧ params w' = params w
    ∧ stdout w' = stdout w
    ∧ trace w' = trace w ++ [EvView; EvZeroGrad].
Proof.
  apply (training_loop_needs_the_model_on_the_cpu (lib := still_library)).
  - reflexivity.
  - lia.
  - discriminate.
  - simpl. lia.
Defined.

End Part5CellsFacts.
